(** * Pallet status transitions and the audit trail (routes/pallets.js)

    A shallow embedding of the pallet routes of the warehouse backend, of the
    PostgreSQL tables they work on (database/schema.sql) and of the
    statements they send, followed by the properties of the transition
    engine: atomic scans, the audit chain, validation order, frame
    properties of the administrative routes. *)

From Stdlib Require Import String Ascii List ZArith Bool Lia Sorting Permutation.
Import ListNotations.
Local Open Scope string_scope.
Local Open Scope Z_scope.

Set Implicit Arguments.

(** ** JavaScript values of a parsed JSON body

    [req.body] is produced by [express.json()]: a field is absent
    ([Undefined]) or holds a JSON value.  A number is kept as the text
    [String(n)] gives for it: that text is what the driver sends to the
    server, and the number is zero exactly when the text is ["0"] (minus zero
    prints as ["0"] too).  Arrays and objects are kept as the text the driver
    sends for them; the routes only test them for truthiness. *)
Module JS.

Inductive value : Type :=
| Undefined
| Null
| Bool (b : bool)
| Num (repr : string)
| Str (s : string)
| Obj (repr : string).

(** [ToBoolean]: what [!v] and [if (v)] test. *)
Definition truthy (v : value) : bool :=
  match v with
  | Undefined | Null => false
  | Bool b => b
  | Num r => negb (String.eqb r "0" || String.eqb r "NaN")
  | Str s => negb (String.eqb s "")
  | Obj _ => true
  end.

Definition falsy (v : value) : bool := negb (truthy v).

(** [v !== undefined] *)
Definition defined (v : value) : bool :=
  match v with Undefined => false | _ => true end.

(** [Array.prototype.includes] on an array of strings: SameValueZero, so only
    a string can be found. *)
Definition includes (l : list string) (v : value) : bool :=
  match v with
  | Str s => existsb (String.eqb s) l
  | _ => false
  end.

(** The driver's conversion of a query parameter: [null] and [undefined]
    become SQL NULL, anything else is sent as text. *)
Definition prepareValue (v : value) : option string :=
  match v with
  | Undefined | Null => None
  | Bool true => Some "true"
  | Bool false => Some "false"
  | Num r => Some r
  | Str s => Some s
  | Obj r => Some r
  end.

End JS.

(** ** Rows and tables (database/schema.sql) *)

(** The seven values of the [CHECK (status IN (...))] constraint; the scan
    route's [validStatuses] array holds the same seven, in the same order. *)
Definition validStatuses : list string :=
  [ "At Production";
    "Picked from Production";
    "In Transit to Warehouse";
    "At Warehouse";
    "Picked for Delivery";
    "Out for Delivery";
    "Delivered" ].

Definition status_default : string := "At Production".

Definition is_valid_status (s : string) : bool :=
  existsb (String.eqb s) validStatuses.

(** A row of [pallets].  A NOT NULL column is a [string], a nullable one an
    [option string]; numeric and date columns keep the text the server was
    sent.  Timestamps are integers (ticks of the server clock). *)
Record pallet : Type := mkPallet {
  id : Z;
  pallet_id : string;
  item_code : string;
  item_name : string;
  item_quantity : string;
  unit_no : option string;
  weight_kg : option string;
  production_date : option string;
  expiry_date : option string;
  status : string;
  warehouse_location : option string;
  destination : option string;
  qr_code_url : option string;
  created_at : Z;
  updated_at : Z
}.

(** A row of [pallet_scans], the audit trail. *)
Record scan : Type := mkScan {
  scan_id : Z;
  scan_pallet_id : string;
  flo_id : string;
  flo_name : string;
  previous_status : option string;
  new_status : string;
  scan_location : option string;
  latitude : option string;
  longitude : option string;
  notes : option string;
  scanned_at : Z
}.

Record tables : Type := mkTables {
  pallets : list pallet;
  pallet_scans : list scan
}.

(** The two SERIAL sequences: the last value handed out.  A sequence is not
    transactional: a value taken by a statement that fails or is rolled back
    is not given back. *)
Record sequences : Type := mkSequences {
  pallets_id_seq : Z;
  pallet_scans_id_seq : Z
}.

(** The database: the committed tables, the sequences, and the values of
    [users.flo_id], which [pallet_scans.flo_id] references.  The pallet
    routes never write to [users]. *)
Record db : Type := mkDb {
  tabs : tables;
  seqs : sequences;
  users_flo_id : list string
}.

Definition db_empty (flo_ids : list string) : db :=
  mkDb (mkTables [] []) (mkSequences 0 0) flo_ids.

(** The authenticated user the middleware attaches to the request
    ([req.user], a row of [users]). *)
Record user : Type := mkUser {
  username : string;
  full_name : string;
  role : string;
  user_flo_id : option string
}.

(** ** SQL statements

    A statement reads the clock (CURRENT_TIMESTAMP), the referenced
    [users.flo_id] values, the sequences and the tables it sees, and gives
    back the sequences and either an error (a violated constraint) or its
    rows together with the tables it leaves. *)
Definition stmt (A : Type) : Type :=
  Z -> list string -> sequences -> tables -> sequences * option (A * tables).

(** [WHERE pallet_id = $n]: a NULL parameter matches no row. *)
Definition pallet_id_is (param : option string) (p : pallet) : bool :=
  match param with
  | Some s => String.eqb (pallet_id p) s
  | None => false
  end.

Definition scan_pallet_id_is (param : option string) (s : scan) : bool :=
  match param with
  | Some v => String.eqb (scan_pallet_id s) v
  | None => false
  end.

(** [SELECT * FROM pallets WHERE pallet_id = $1] (with or without
    [FOR UPDATE]: the row lock only matters between concurrent sessions). *)
Definition select_pallets (param : option string) : stmt (list pallet) :=
  fun _ _ sq t => (sq, Some (filter (pallet_id_is param) (pallets t), t)).

(** Columns of [pallets] that the routes assign. *)
Inductive column : Type :=
| col_item_code | col_item_name | col_item_quantity | col_unit_no
| col_weight_kg | col_production_date | col_expiry_date | col_status
| col_warehouse_location | col_destination | col_qr_code_url.

(** One item of a SET list: [col = $n] or [updated_at = CURRENT_TIMESTAMP]. *)
Inductive assignment : Type :=
| SetParam (c : column) (v : option string)
| SetUpdatedAtNow.

Definition with_item_code v p := mkPallet (id p) (pallet_id p) v (item_name p) (item_quantity p) (unit_no p) (weight_kg p) (production_date p) (expiry_date p) (status p) (warehouse_location p) (destination p) (qr_code_url p) (created_at p) (updated_at p).
Definition with_item_name v p := mkPallet (id p) (pallet_id p) (item_code p) v (item_quantity p) (unit_no p) (weight_kg p) (production_date p) (expiry_date p) (status p) (warehouse_location p) (destination p) (qr_code_url p) (created_at p) (updated_at p).
Definition with_item_quantity v p := mkPallet (id p) (pallet_id p) (item_code p) (item_name p) v (unit_no p) (weight_kg p) (production_date p) (expiry_date p) (status p) (warehouse_location p) (destination p) (qr_code_url p) (created_at p) (updated_at p).
Definition with_unit_no v p := mkPallet (id p) (pallet_id p) (item_code p) (item_name p) (item_quantity p) v (weight_kg p) (production_date p) (expiry_date p) (status p) (warehouse_location p) (destination p) (qr_code_url p) (created_at p) (updated_at p).
Definition with_weight_kg v p := mkPallet (id p) (pallet_id p) (item_code p) (item_name p) (item_quantity p) (unit_no p) v (production_date p) (expiry_date p) (status p) (warehouse_location p) (destination p) (qr_code_url p) (created_at p) (updated_at p).
Definition with_production_date v p := mkPallet (id p) (pallet_id p) (item_code p) (item_name p) (item_quantity p) (unit_no p) (weight_kg p) v (expiry_date p) (status p) (warehouse_location p) (destination p) (qr_code_url p) (created_at p) (updated_at p).
Definition with_expiry_date v p := mkPallet (id p) (pallet_id p) (item_code p) (item_name p) (item_quantity p) (unit_no p) (weight_kg p) (production_date p) v (status p) (warehouse_location p) (destination p) (qr_code_url p) (created_at p) (updated_at p).
Definition with_status v p := mkPallet (id p) (pallet_id p) (item_code p) (item_name p) (item_quantity p) (unit_no p) (weight_kg p) (production_date p) (expiry_date p) v (warehouse_location p) (destination p) (qr_code_url p) (created_at p) (updated_at p).
Definition with_warehouse_location v p := mkPallet (id p) (pallet_id p) (item_code p) (item_name p) (item_quantity p) (unit_no p) (weight_kg p) (production_date p) (expiry_date p) (status p) v (destination p) (qr_code_url p) (created_at p) (updated_at p).
Definition with_destination v p := mkPallet (id p) (pallet_id p) (item_code p) (item_name p) (item_quantity p) (unit_no p) (weight_kg p) (production_date p) (expiry_date p) (status p) (warehouse_location p) v (qr_code_url p) (created_at p) (updated_at p).
Definition with_qr_code_url v p := mkPallet (id p) (pallet_id p) (item_code p) (item_name p) (item_quantity p) (unit_no p) (weight_kg p) (production_date p) (expiry_date p) (status p) (warehouse_location p) (destination p) v (created_at p) (updated_at p).
Definition with_updated_at v p := mkPallet (id p) (pallet_id p) (item_code p) (item_name p) (item_quantity p) (unit_no p) (weight_kg p) (production_date p) (expiry_date p) (status p) (warehouse_location p) (destination p) (qr_code_url p) (created_at p) v.

(** Assigning NULL to a NOT NULL column is an error ([None]). *)
Definition not_null (f : string -> pallet -> pallet) (v : option string)
    (p : pallet) : option pallet :=
  match v with
  | Some s => Some (f s p)
  | None => None
  end.

Definition assign (now : Z) (a : assignment) (p : pallet) : option pallet :=
  match a with
  | SetParam col_item_code v => not_null with_item_code v p
  | SetParam col_item_name v => not_null with_item_name v p
  | SetParam col_item_quantity v => not_null with_item_quantity v p
  | SetParam col_unit_no v => Some (with_unit_no v p)
  | SetParam col_weight_kg v => Some (with_weight_kg v p)
  | SetParam col_production_date v => Some (with_production_date v p)
  | SetParam col_expiry_date v => Some (with_expiry_date v p)
  | SetParam col_status v => not_null with_status v p
  | SetParam col_warehouse_location v => Some (with_warehouse_location v p)
  | SetParam col_destination v => Some (with_destination v p)
  | SetParam col_qr_code_url v => Some (with_qr_code_url v p)
  | SetUpdatedAtNow => Some (with_updated_at now p)
  end.

Fixpoint assign_all (now : Z) (sets : list assignment) (p : pallet)
    : option pallet :=
  match sets with
  | [] => Some p
  | a :: rest =>
      match assign now a p with
      | Some p' => assign_all now rest p'
      | None => None
      end
  end.

(** The new version of one row under an UPDATE: the SET list applied, then
    the table's CHECK on [status]. *)
Definition update_row (now : Z) (sets : list assignment) (p : pallet)
    : option pallet :=
  match assign_all now sets p with
  | Some p' => if is_valid_status (status p') then Some p' else None
  | None => None
  end.

(** The UPDATE over a table: rows the WHERE clause selects are replaced; the
    result is the new table and the updated rows (RETURNING * ), or [None]
    when a row violates a constraint. *)
Fixpoint update_rows (now : Z) (sets : list assignment) (param : option string)
    (rows : list pallet) : option (list pallet * list pallet) :=
  match rows with
  | [] => Some ([], [])
  | p :: rest =>
      match update_rows now sets param rest with
      | None => None
      | Some (rest', returned) =>
          if pallet_id_is param p then
            match update_row now sets p with
            | Some p' => Some (p' :: rest', p' :: returned)
            | None => None
            end
          else Some (p :: rest', returned)
      end
  end.

(** [UPDATE pallets SET ... WHERE pallet_id = $n RETURNING *] *)
Definition update_pallets (sets : list assignment) (param : option string)
    : stmt (list pallet) :=
  fun now _ sq t =>
    match update_rows now sets param (pallets t) with
    | Some (rows', returned) =>
        (sq, Some (returned, mkTables rows' (pallet_scans t)))
    | None => (sq, None)
    end.

(** [INSERT INTO pallets (pallet_id, ..., destination) VALUES ($1, ..., $10)
    RETURNING *].  The columns the statement leaves out take their defaults:
    [id] the next value of its sequence, [status] ['At Production'],
    [qr_code_url] NULL, both timestamps CURRENT_TIMESTAMP.  The sequence is
    advanced before the constraints (NOT NULL, UNIQUE (pallet_id), the CHECK
    on status) are tested. *)
Definition insert_pallet
    (v_pallet_id v_item_code v_item_name v_item_quantity v_unit_no v_weight_kg
     v_production_date v_expiry_date v_warehouse_location v_destination
       : option string) : stmt (list pallet) :=
  fun now _ sq t =>
    let next := pallets_id_seq sq + 1 in
    let sq' := mkSequences next (pallet_scans_id_seq sq) in
    match v_pallet_id, v_item_code, v_item_name, v_item_quantity with
    | Some pid, Some code, Some name, Some quantity =>
        let row :=
          mkPallet next pid code name quantity v_unit_no v_weight_kg
            v_production_date v_expiry_date status_default
            v_warehouse_location v_destination None now now in
        if existsb (pallet_id_is (Some pid)) (pallets t) then (sq', None)
        else if negb (is_valid_status (status row)) then (sq', None)
        else (sq', Some ([row], mkTables (pallets t ++ [row]) (pallet_scans t)))
    | _, _, _, _ => (sq', None)
    end.

(** [INSERT INTO pallet_scans (pallet_id, flo_id, flo_name, previous_status,
    new_status, scan_location, latitude, longitude, notes) VALUES (...)].
    [id] and [scanned_at] take their defaults.  Constraints: NOT NULL on
    pallet_id, flo_id, flo_name and new_status; pallet_id REFERENCES
    pallets(pallet_id); flo_id REFERENCES users(flo_id). *)
Definition insert_pallet_scan
    (v_pallet_id v_flo_id v_flo_name v_previous_status v_new_status
     v_scan_location v_latitude v_longitude v_notes : option string)
    : stmt unit :=
  fun now flo_ids sq t =>
    let next := pallet_scans_id_seq sq + 1 in
    let sq' := mkSequences (pallets_id_seq sq) next in
    match v_pallet_id, v_flo_id, v_flo_name, v_new_status with
    | Some pid, Some fid, Some fname, Some new =>
        let row :=
          mkScan next pid fid fname v_previous_status new v_scan_location
            v_latitude v_longitude v_notes now in
        if existsb (pallet_id_is (Some pid)) (pallets t)
           && existsb (String.eqb fid) flo_ids
        then (sq', Some (tt, mkTables (pallets t) (pallet_scans t ++ [row])))
        else (sq', None)
    | _, _, _, _ => (sq', None)
    end.

(** [DELETE FROM pallets WHERE pallet_id = $1 RETURNING pallet_id], with the
    [ON DELETE CASCADE] of [pallet_scans.pallet_id]. *)
Definition delete_pallets (param : option string) : stmt (list string) :=
  fun _ _ sq t =>
    let gone := map pallet_id (filter (pallet_id_is param) (pallets t)) in
    (sq, Some (gone,
       mkTables
         (filter (fun p => negb (pallet_id_is param p)) (pallets t))
         (filter (fun s => negb (existsb (String.eqb (scan_pallet_id s)) gone))
                 (pallet_scans t)))).

(** ORDER BY scanned_at DESC.  The server leaves the order of rows with equal
    [scanned_at] open; this sort keeps them in table order. *)
Fixpoint insert_desc (x : scan) (l : list scan) : list scan :=
  match l with
  | [] => [x]
  | y :: rest =>
      if scanned_at y <=? scanned_at x then x :: y :: rest
      else y :: insert_desc x rest
  end.

Fixpoint order_by_scanned_at_desc (l : list scan) : list scan :=
  match l with
  | [] => []
  | x :: rest => insert_desc x (order_by_scanned_at_desc rest)
  end.

(** [SELECT * FROM pallet_scans WHERE pallet_id = $1 ORDER BY scanned_at DESC] *)
Definition select_scans (param : option string) : stmt (list scan) :=
  fun _ _ sq t =>
    (sq, Some (order_by_scanned_at_desc
                 (filter (scan_pallet_id_is param) (pallet_scans t)), t)).

(** ** A database session

    A request works through one session: the server's state, the private
    tables of the open transaction if there is one, the clock value that
    CURRENT_TIMESTAMP reads, and the faults still to come.  [faults] is the
    storage-failure oracle: every statement sent takes the next flag, and a
    statement whose flag is [true] is rejected before it has any effect
    (connection lost, statement refused for a value the column type does not
    take).  All results below hold for every list of faults. *)
Record session : Type := mkSession {
  server : db;
  txn : option tables;
  clock : Z;
  faults : list bool
}.

Inductive outcome (A : Type) : Type :=
| Returned (a : A)
| Thrown.
Arguments Thrown {A}.

(** A computation that awaits queries: state passing with exceptions. *)
Definition pg (A : Type) : Type := session -> outcome A * session.

Definition ret {A} (a : A) : pg A := fun c => (Returned a, c).

Definition bind {A B} (m : pg A) (k : A -> pg B) : pg B :=
  fun c =>
    match m c with
    | (Returned a, c') => k a c'
    | (Thrown, c') => (Thrown, c')
    end.

Notation "x <- m ;; k" := (bind m (fun x => k))
  (at level 61, m at next level, right associativity).
Notation "m ;;; k" := (bind m (fun _ => k))
  (at level 61, right associativity).

Definition throw {A} : pg A := fun c => (Thrown, c).

(** [try { body } catch (error) { handler }] *)
Definition try_catch {A} (body handler : pg A) : pg A :=
  fun c =>
    match body c with
    | (Returned a, c') => (Returned a, c')
    | (Thrown, c') => handler c'
    end.

Definition take_fault (c : session) : bool * session :=
  match faults c with
  | [] => (false, c)
  | f :: rest => (f, mkSession (server c) (txn c) (clock c) rest)
  end.

(** The tables a statement sees: those of the open transaction, else the
    committed ones. *)
Definition visible (c : session) : tables :=
  match txn c with
  | Some t => t
  | None => tabs (server c)
  end.

Definition with_seqs (sq : sequences) (d : db) : db :=
  mkDb (tabs d) sq (users_flo_id d).

(** The statement's tables go to the open transaction, or are committed at
    once when there is none (autocommit, as with [pool.query]). *)
Definition store (sq : sequences) (t : tables) (c : session) : session :=
  match txn c with
  | Some _ =>
      mkSession (with_seqs sq (server c)) (Some t) (clock c) (faults c)
  | None =>
      mkSession (mkDb t sq (users_flo_id (server c))) None (clock c) (faults c)
  end.

(** Sending a statement: the next fault flag decides whether it reaches the
    server at all. *)
Definition send {A} (m : pg A) : pg A :=
  fun c0 =>
    let (failed, c) := take_fault c0 in
    if failed then (Thrown, c) else m c.

(** The server executes a statement.  A violated constraint raises an error
    and leaves the tables as they were; the sequences keep what the statement
    took.  (After an error inside a transaction the server refuses everything
    but ROLLBACK; the routes send nothing else after an error.) *)
Definition execute {A} (s : stmt A) : pg A :=
  fun c =>
    match s (clock c) (users_flo_id (server c)) (seqs (server c)) (visible c) with
    | (sq, Some (a, t)) => (Returned a, store sq t c)
    | (sq, None) =>
        (Thrown, mkSession (with_seqs sq (server c)) (txn c) (clock c) (faults c))
    end.

(** [await client.query(...)] / [await pool.query(...)] *)
Definition query {A} (s : stmt A) : pg A := send (execute s).

(** [BEGIN]: the transaction starts from the committed tables (inside a
    transaction it only warns). *)
Definition BEGIN : pg unit :=
  send (fun c =>
    match txn c with
    | Some _ => (Returned tt, c)
    | None =>
        (Returned tt,
         mkSession (server c) (Some (tabs (server c))) (clock c) (faults c))
    end).

(** [COMMIT]: the transaction's tables become the committed ones. *)
Definition COMMIT : pg unit :=
  send (fun c =>
    match txn c with
    | Some t =>
        (Returned tt,
         mkSession (mkDb t (seqs (server c)) (users_flo_id (server c)))
                   None (clock c) (faults c))
    | None => (Returned tt, c)
    end).

(** [ROLLBACK]: the transaction's tables are dropped. *)
Definition ROLLBACK : pg unit :=
  send (fun c =>
    (Returned tt, mkSession (server c) None (clock c) (faults c))).

(** ** Requests and responses *)

(** The fields the routes read from [req.body]; a field the body lacks is
    [JS.Undefined]. *)
Record body : Type := mkBody {
  palletId : JS.value;
  itemCode : JS.value;
  itemName : JS.value;
  itemQuantity : JS.value;
  unitNo : JS.value;
  weightKg : JS.value;
  productionDate : JS.value;
  expiryDate : JS.value;
  warehouseLocation : JS.value;
  destination_ : JS.value;
  newStatus : JS.value;
  notes_ : JS.value;
  latitude_ : JS.value;
  longitude_ : JS.value
}.

Definition body_empty : body :=
  mkBody JS.Undefined JS.Undefined JS.Undefined JS.Undefined JS.Undefined
         JS.Undefined JS.Undefined JS.Undefined JS.Undefined JS.Undefined
         JS.Undefined JS.Undefined JS.Undefined JS.Undefined.

(** The JSON a route answers with.  [rows[0]] of an empty result is
    [undefined]: [None]. *)
Inductive payload : Type :=
| Error (error : string)
| Message (message : string)
| PalletCreated (pallet : option pallet)
| PalletRow (pallet : pallet)
| PalletScanned (pallet : option pallet) (previousStatus : string)
                (newStatus : JS.value)
| PalletHistory (palletId : string) (history : list scan)
| PalletUpdated (pallet : option pallet)
| QrGenerated (palletId : string) (qrCode : string) (metadata : pallet).

Record response : Type := mkResponse {
  code : Z;
  json : payload
}.

(** The error kinds of the transition engine, as the routes report them. *)
Definition InvalidStatus : response := mkResponse 400 (Error "Invalid status").
Definition PalletNotFound : response := mkResponse 404 (Error "Pallet not found").
Definition DuplicateId : response :=
  mkResponse 400 (Error "Pallet ID already exists").
Definition RequiredFields : response :=
  mkResponse 400
    (Error "Pallet ID, item code, item name, and quantity are required").
Definition StorageFailure (what : string) : response :=
  mkResponse 500 (Error what).

(** ** The handlers of routes/pallets.js *)

(** POST /api/pallets *)
Definition createPallet (b : body) : pg response :=
  try_catch
    (if JS.falsy (palletId b) || JS.falsy (itemCode b)
        || JS.falsy (itemName b) || JS.falsy (itemQuantity b)
     then ret RequiredFields
     else
       existing <- query (select_pallets (JS.prepareValue (palletId b))) ;;
       if 0 <? Z.of_nat (length existing) then ret DuplicateId
       else
         result <- query
           (insert_pallet
              (JS.prepareValue (palletId b)) (JS.prepareValue (itemCode b))
              (JS.prepareValue (itemName b)) (JS.prepareValue (itemQuantity b))
              (JS.prepareValue (unitNo b)) (JS.prepareValue (weightKg b))
              (JS.prepareValue (productionDate b))
              (JS.prepareValue (expiryDate b))
              (JS.prepareValue (warehouseLocation b))
              (JS.prepareValue (destination_ b))) ;;
         ret (mkResponse 201 (PalletCreated (hd_error result))))
    (ret (StorageFailure "Failed to create pallet")).

(** GET /api/pallets/:palletId *)
Definition getPallet (pid : string) : pg response :=
  try_catch
    (result <- query (select_pallets (Some pid)) ;;
     match result with
     | [] => ret PalletNotFound
     | row :: _ => ret (mkResponse 200 (PalletRow row))
     end)
    (ret (StorageFailure "Failed to fetch pallet")).

(** [req.user.flo_id || req.user.username] *)
Definition actor_id (u : user) : string :=
  match user_flo_id u with
  | Some f => if String.eqb f "" then username u else f
  | None => username u
  end.

(** The SET list of the scan's UPDATE: status and updated_at, and the
    warehouse location when the body gives a truthy one. *)
Definition scan_updates (b : body) : list assignment :=
  [SetParam col_status (JS.prepareValue (newStatus b)); SetUpdatedAtNow]
  ++ (if JS.truthy (warehouseLocation b)
      then [SetParam col_warehouse_location
              (JS.prepareValue (warehouseLocation b))]
      else []).

(** POST /api/pallets/:palletId/scan, from the [try] on.  The status is
    validated before BEGIN; the pallet row is read (and locked), updated, the
    audit row inserted, and both are committed together; any exception goes
    to the [catch], which rolls back. *)
Definition recordScan (u : user) (pid : string) (b : body) : pg response :=
  try_catch
    (if negb (JS.includes validStatuses (newStatus b)) then ret InvalidStatus
     else
       BEGIN ;;;
       palletResult <- query (select_pallets (Some pid)) ;;
       match palletResult with
       | [] => ROLLBACK ;;; ret PalletNotFound
       | pallet :: _ =>
           let previousStatus := status pallet in
           updatedPallet <- query (update_pallets (scan_updates b) (Some pid)) ;;
           query (insert_pallet_scan
                    (Some pid) (Some (actor_id u)) (Some (full_name u))
                    (Some previousStatus) (JS.prepareValue (newStatus b))
                    (JS.prepareValue (warehouseLocation b))
                    (JS.prepareValue (latitude_ b))
                    (JS.prepareValue (longitude_ b))
                    (JS.prepareValue (notes_ b))) ;;;
           COMMIT ;;;
           ret (mkResponse 200
                  (PalletScanned (hd_error updatedPallet) previousStatus
                                 (newStatus b)))
       end)
    (ROLLBACK ;;; ret (StorageFailure "Failed to scan pallet")).

(** GET /api/pallets/:palletId/history *)
Definition getHistory (pid : string) : pg response :=
  try_catch
    (result <- query (select_scans (Some pid)) ;;
     ret (mkResponse 200 (PalletHistory pid result)))
    (ret (StorageFailure "Failed to fetch pallet history")).

(** [if (v !== undefined) { updates.push(`col = $n`); params.push(v) }] *)
Definition push_defined (c : column) (v : JS.value) (updates : list assignment)
    : list assignment :=
  if JS.defined v then updates ++ [SetParam c (JS.prepareValue v)]
  else updates.

Definition admin_updates (b : body) : list assignment :=
  push_defined col_destination (destination_ b)
  (push_defined col_warehouse_location (warehouseLocation b)
  (push_defined col_expiry_date (expiryDate b)
  (push_defined col_production_date (productionDate b)
  (push_defined col_weight_kg (weightKg b)
  (push_defined col_unit_no (unitNo b)
  (push_defined col_item_quantity (itemQuantity b)
  (push_defined col_item_name (itemName b)
  (push_defined col_item_code (itemCode b) [])))))))).

(** PUT /api/pallets/:palletId *)
Definition updatePallet (pid : string) (b : body) : pg response :=
  try_catch
    (let updates := admin_updates b in
     if (Z.of_nat (length updates) =? 0)
     then ret (mkResponse 400 (Error "No fields to update"))
     else
       result <- query
         (update_pallets (updates ++ [SetUpdatedAtNow]) (Some pid)) ;;
       match result with
       | [] => ret PalletNotFound
       | _ :: _ => ret (mkResponse 200 (PalletUpdated (hd_error result)))
       end)
    (ret (StorageFailure "Failed to update pallet")).

(** DELETE /api/pallets/:palletId *)
Definition deletePallet (pid : string) : pg response :=
  try_catch
    (result <- query (delete_pallets (Some pid)) ;;
     match result with
     | [] => ret PalletNotFound
     | _ :: _ => ret (mkResponse 200 (Message "Pallet deleted successfully"))
     end)
    (ret (StorageFailure "Failed to delete pallet")).

(** POST /api/qr/generate (routes/qr.js), the other route that writes to
    [pallets].  [qr] is what [QRCode.toDataURL] gives for the pallet's data:
    the image as a data URL, or [None] when it throws. *)
Definition generateQR (qr : option string) (b : body) : pg response :=
  try_catch
    (if JS.falsy (palletId b)
     then ret (mkResponse 400 (Error "Pallet ID required"))
     else
       result <- query (select_pallets (JS.prepareValue (palletId b))) ;;
       match result with
       | [] => ret PalletNotFound
       | pallet :: _ =>
           match qr with
           | None => throw
           | Some qrCodeDataURL =>
               query (update_pallets
                        [SetParam col_qr_code_url (Some qrCodeDataURL)]
                        (JS.prepareValue (palletId b))) ;;;
               ret (mkResponse 200
                      (QrGenerated (pallet_id pallet) qrCodeDataURL pallet))
           end
       end)
    (ret (StorageFailure "Failed to generate QR code")).

(** ** Serving a request *)

(** What the environment decides for one request: the clock, whether
    [pool.connect()] gives a client, the storage faults, and the QR image. *)
Record env : Type := mkEnv {
  now : Z;
  connects : bool;
  storage_faults : list bool;
  qr_image : option string
}.

Inductive request : Type :=
| POST_pallets (b : body)
| GET_pallet (pid : string)
| POST_scan (pid : string) (b : body)
| GET_history (pid : string)
| PUT_pallet (pid : string) (b : body)
| DELETE_pallet (pid : string)
| POST_qr_generate (b : body).

Definition connect (d : db) (e : env) : session :=
  mkSession d None (now e) (storage_faults e).

(** Runs a handler on a fresh session.  The answer is [None] when the
    handler's promise rejects (an exception escaped its try/catch): no
    response is written.  A transaction still open when the client is
    released was never committed, so only the committed state remains. *)
Definition run (h : pg response) (d : db) (e : env) : db * option response :=
  match h (connect d e) with
  | (Returned r, c) => (server c, Some r)
  | (Thrown, c) => (server c, None)
  end.

(** The whole scan route: [pool.connect()] comes before the [try]. *)
Definition scanRoute (u : user) (pid : string) (b : body) (d : db) (e : env)
    : db * option response :=
  if connects e then run (recordScan u pid b) d e else (d, None).

(** middleware/auth.js, [isAdmin] *)
Definition isAdmin (u : user) (next : db -> env -> db * option response)
    (d : db) (e : env) : db * option response :=
  if negb (String.eqb (role u) "admin")
  then (d, Some (mkResponse 403 (Error "Admin access required")))
  else next d e.

(** The router: which handler and which middleware serve each request. *)
Definition serve (u : user) (r : request) (d : db) (e : env)
    : db * option response :=
  match r with
  | POST_pallets b => isAdmin u (run (createPallet b)) d e
  | GET_pallet pid => run (getPallet pid) d e
  | POST_scan pid b => scanRoute u pid b d e
  | GET_history pid => run (getHistory pid) d e
  | PUT_pallet pid b => isAdmin u (run (updatePallet pid b)) d e
  | DELETE_pallet pid => isAdmin u (run (deletePallet pid)) d e
  | POST_qr_generate b => isAdmin u (run (generateQR (qr_image e) b)) d e
  end.

(** A sequence of requests, each with the user who sends it and what the
    environment does while it is served. *)
Record call : Type := mkCall {
  sender : user;
  what : request;
  during : env
}.

Definition serve_call (d : db) (c : call) : db * option response :=
  serve (sender c) (what c) d (during c).

Fixpoint serve_all (d : db) (calls : list call) : db :=
  match calls with
  | [] => d
  | c :: rest => serve_all (fst (serve_call d c)) rest
  end.

(** The states the routes can bring an empty database to. *)
Inductive reachable : db -> Prop :=
| reachable_empty (flo_ids : list string) : reachable (db_empty flo_ids)
| reachable_serve (d : db) (c : call) :
    reachable d -> reachable (fst (serve_call d c)).

(** ** The other routes

    GET /api/qr/:palletId (routes/qr.js) *)

(** [SELECT pallet_id, item_name, qr_code_url FROM pallets
    WHERE pallet_id = $1] *)
Definition select_qr_codes (param : option string)
    : stmt (list (string * string * option string)) :=
  fun _ _ sq t =>
    (sq, Some (map (fun p => (pallet_id p, item_name p, qr_code_url p))
                   (filter (pallet_id_is param) (pallets t)), t)).

(** The JSON that GET /api/qr/:palletId answers with. *)
Inductive qr_payload : Type :=
| QrError (error : string)
| QrMissing (error message : string)
| QrCode (palletId itemName qrCode : string).

Record qr_response : Type := mkQrResponse {
  qr_status : Z;
  qr_json : qr_payload
}.

Definition QrNotGenerated : qr_response :=
  mkQrResponse 404
    (QrMissing "QR code not generated for this pallet"
       "Use POST /api/qr/generate to create QR code").

(** GET /api/qr/:palletId (routes/qr.js).  [!pallet.qr_code_url] holds for
    NULL and for the empty string. *)
Definition getQRCode (pid : string) : pg qr_response :=
  try_catch
    (result <- query (select_qr_codes (Some pid)) ;;
     match result with
     | [] => ret (mkQrResponse 404 (QrError "Pallet not found"))
     | (palletId, itemName, qrCode) :: _ =>
         match qrCode with
         | None => ret QrNotGenerated
         | Some url =>
             if String.eqb url "" then ret QrNotGenerated
             else ret (mkQrResponse 200 (QrCode palletId itemName url))
         end
     end)
    (ret (mkQrResponse 500 (QrError "Failed to fetch QR code"))).

(** Runs a handler of any answer type on a fresh session, as [run] does. *)
Definition run_as {A} (h : pg A) (d : db) (e : env) : db * option A :=
  match h (connect d e) with
  | (Returned r, c) => (server c, Some r)
  | (Thrown, c) => (server c, None)
  end.

(** The route with the router's [isAdmin] in front of it. *)
Definition qrRoute (u : user) (pid : string) (d : db) (e : env)
    : db * option qr_response :=
  if negb (String.eqb (role u) "admin")
  then (d, Some (mkQrResponse 403 (QrError "Admin access required")))
  else run_as (getQRCode pid) d e.

(** *** The bulk route, POST /api/qr/generate-bulk *)

(** [req.body.palletIds] of POST /api/qr/generate-bulk: a value that is no
    array, or an array, given by what the driver sends for each of its
    elements (NULL for null; elements that are arrays themselves are not
    covered). *)
Inductive bulk_ids : Type :=
| NotAnArray
| IdArray (elements : list (option string)).

Definition elements_of (ids : bulk_ids) : list (option string) :=
  match ids with
  | NotAnArray => []
  | IdArray elements => elements
  end.

(** [pallet_id = ANY($1)] *)
Definition listed (elements : list (option string)) (p : pallet) : bool :=
  existsb (fun v => pallet_id_is v p) elements.

(** [SELECT * FROM pallets WHERE pallet_id = ANY($1)] *)
Definition select_pallets_any (elements : list (option string))
    : stmt (list pallet) :=
  fun _ _ sq t => (sq, Some (filter (listed elements) (pallets t), t)).

(** [await Promise.all(branches)]: every branch runs to its end, whether or
    not another one has thrown, and the whole throws when one of them does.
    The statements of the branches reach the pool in some order; they are
    taken here in the order of the branches.  (The branches of the bulk
    route write different rows, [pallet_id] being UNIQUE.)  The state is
    the one left when every branch has settled. *)
Fixpoint Promise_all {A} (branches : list (pg A)) : pg (list A) :=
  match branches with
  | [] => ret []
  | m :: rest =>
      fun c =>
        match m c with
        | (Returned a, c') =>
            match Promise_all rest c' with
            | (Returned l, c'') => (Returned (a :: l), c'')
            | (Thrown, c'') => (Thrown, c'')
            end
        | (Thrown, c') => (Thrown, snd (Promise_all rest c'))
        end
  end.

(** One branch of the bulk route: encode the row that was read, store the
    image, give [{ palletId, itemName, qrCode }].  [encode] is
    [QRCode.toDataURL] on the row's data: the image, or [None] when it
    throws. *)
Definition generate_one (encode : pallet -> option string) (pallet : pallet)
    : pg (string * string * string) :=
  match encode pallet with
  | None => throw
  | Some qrCodeDataURL =>
      query (update_pallets [SetParam col_qr_code_url (Some qrCodeDataURL)]
                            (Some (pallet_id pallet))) ;;;
      ret (pallet_id pallet, item_name pallet, qrCodeDataURL)
  end.

(** The JSON that POST /api/qr/generate-bulk answers with; the message
    gives [qrCodes.length]. *)
Inductive bulk_payload : Type :=
| BulkError (error : string)
| QrCodes (generated : nat) (qrCodes : list (string * string * string)).

Record bulk_response : Type := mkBulkResponse {
  bulk_status : Z;
  bulk_json : bulk_payload
}.

(** POST /api/qr/generate-bulk (routes/qr.js) *)
Definition generateBulkQR (encode : pallet -> option string) (ids : bulk_ids)
    : pg bulk_response :=
  try_catch
    (match ids with
     | NotAnArray | IdArray [] =>
         ret (mkBulkResponse 400 (BulkError "Array of pallet IDs required"))
     | IdArray palletIds =>
         result <- query (select_pallets_any palletIds) ;;
         match result with
         | [] => ret (mkBulkResponse 404 (BulkError "No pallets found"))
         | _ :: _ =>
             qrCodes <- Promise_all (map (generate_one encode) result) ;;
             ret (mkBulkResponse 200 (QrCodes (length qrCodes) qrCodes))
         end
     end)
    (ret (mkBulkResponse 500 (BulkError "Failed to generate QR codes"))).

(** The route with the router's [isAdmin] in front of it. *)
Definition bulkRoute (encode : pallet -> option string) (u : user)
    (ids : bulk_ids) (d : db) (e : env) : db * option bulk_response :=
  if negb (String.eqb (role u) "admin")
  then (d, Some (mkBulkResponse 403 (BulkError "Admin access required")))
  else run_as (generateBulkQR encode ids) d e.

(** The whole of the API that writes to [pallets]: the requests of
    [request], and the bulk generation. *)
Inductive api_request : Type :=
| Routed (r : request)
| POST_qr_generate_bulk (ids : bulk_ids).

Record api_call : Type := mkApiCall {
  api_sender : user;
  api_what : api_request;
  api_during : env
}.

(** The database a request leaves. *)
Definition serve_api (encode : pallet -> option string) (d : db) (c : api_call)
    : db :=
  match api_what c with
  | Routed r => fst (serve (api_sender c) r d (api_during c))
  | POST_qr_generate_bulk ids =>
      fst (bulkRoute encode (api_sender c) ids d (api_during c))
  end.

Definition serve_api_all (encode : pallet -> option string) (d : db)
    (calls : list api_call) : db :=
  fold_left (serve_api encode) calls d.

(** *** The list route, GET /api/pallets *)

(** [req.query] of the list route: a field is absent or holds a string (an
    array or object for repeated or bracketed keys). *)
Record listing : Type := mkListing {
  q_status : JS.value;
  q_itemCode : JS.value;
  q_warehouseLocation : JS.value;
  q_limit : JS.value;
  q_offset : JS.value
}.

(** How texts are read as integers, by the server for a [bigint] parameter
    ([int8in]; [None] is its error) and by JavaScript's [parseInt] ([None]
    is NaN).  The route's properties hold whatever the two readings are. *)
Record readers : Type := mkReaders {
  int8in : string -> option Z;
  parseInt : JS.value -> option Z
}.

(** The columns the route filters on. *)
Inductive filter_column : Type :=
| by_status | by_item_code | by_warehouse_location.

(** [AND col = $n] *)
Record condition : Type := mkCondition {
  on : filter_column;
  placeholder : nat
}.

(** The statement text the route builds, as far as it varies: the
    conditions after [WHERE 1=1], and for the page query the placeholders
    of LIMIT and OFFSET; and the parameters pushed for it. *)
Record built : Type := mkBuilt {
  conditions : list condition;
  params : list (option string);
  paramCount : nat
}.

(** [if (v) { query += ` AND col = $${paramCount}`; params.push(v);
    paramCount++ }] *)
Definition add_filter (c : filter_column) (v : JS.value) (q : built) : built :=
  if JS.truthy v
  then mkBuilt (conditions q ++ [mkCondition c (paramCount q)])
               (params q ++ [JS.prepareValue v])
               (S (paramCount q))
  else q.

(** The three filters in the order of the source, from
    [paramCount = 1]. *)
Definition filters (l : listing) : built :=
  add_filter by_warehouse_location (q_warehouseLocation l)
    (add_filter by_item_code (q_itemCode l)
       (add_filter by_status (q_status l) (mkBuilt [] [] 1))).

(** [limit = 100], [offset = 0] in the destructuring: the default stands
    in for an absent field only. *)
Definition or_default (v : JS.value) (default : string) : JS.value :=
  match v with
  | JS.Undefined => JS.Num default
  | _ => v
  end.

Definition column_value (c : filter_column) (p : pallet) : option string :=
  match c with
  | by_status => Some (status p)
  | by_item_code => Some (item_code p)
  | by_warehouse_location => warehouse_location p
  end.

(** [$n] among the parameters of the statement. *)
Definition parameter (ps : list (option string)) (n : nat)
    : option (option string) :=
  match n with
  | O => None
  | S i => nth_error ps i
  end.

(** [col = $n]: true for no NULL on either side. *)
Definition holds (ps : list (option string)) (c : condition) (p : pallet)
    : bool :=
  match parameter ps (placeholder c), column_value (on c) p with
  | Some (Some v), Some x => String.eqb x v
  | _, _ => false
  end.

(** The server takes the statement only when the placeholders and the
    parameters sent agree: every [$n] has a parameter, and every parameter
    is some [$n] of the text. *)
Definition bound (placeholders : list nat) (ps : list (option string))
    : bool :=
  forallb (fun n => (1 <=? n)%nat && (n <=? length ps)%nat) placeholders
  && forallb (fun i => existsb (Nat.eqb i) placeholders) (seq 1 (length ps)).

(** ORDER BY created_at DESC.  As for the audit rows, rows with equal
    [created_at] are kept in table order. *)
Fixpoint insert_newest (x : pallet) (l : list pallet) : list pallet :=
  match l with
  | [] => [x]
  | y :: rest =>
      if created_at y <=? created_at x then x :: y :: rest
      else y :: insert_newest x rest
  end.

Fixpoint order_by_created_at_desc (l : list pallet) : list pallet :=
  match l with
  | [] => []
  | x :: rest => insert_newest x (order_by_created_at_desc rest)
  end.

(** A LIMIT or OFFSET parameter: NULL is no limit (no offset), a text is
    read as [bigint] and must not be negative. *)
Definition row_count (rd : readers) (v : option string)
    : option (option nat) :=
  match v with
  | None => Some None
  | Some s =>
      match int8in rd s with
      | Some n => if n <? 0 then None else Some (Some (Z.to_nat n))
      | None => None
      end
  end.

(** [SELECT * FROM pallets WHERE 1=1 AND ... ORDER BY created_at DESC
    LIMIT $l OFFSET $o] *)
Definition select_page (rd : readers) (conds : list condition)
    (l o : nat) (ps : list (option string)) : stmt (list pallet) :=
  fun _ _ sq t =>
    if bound (map placeholder conds ++ [l; o]) ps then
      match parameter ps l, parameter ps o with
      | Some vl, Some vo =>
          match row_count rd vl, row_count rd vo with
          | Some lim, Some off =>
              let rows :=
                order_by_created_at_desc
                  (filter (fun p => forallb (fun c => holds ps c p) conds)
                          (pallets t)) in
              let rest :=
                match off with Some n => skipn n rows | None => rows end in
              (sq, Some (match lim with
                         | Some n => firstn n rest
                         | None => rest
                         end, t))
          | _, _ => (sq, None)
          end
      | _, _ => (sq, None)
      end
    else (sq, None).

(** [SELECT COUNT( * ) FROM pallets WHERE 1=1 AND ...] *)
Definition select_count (conds : list condition) (ps : list (option string))
    : stmt Z :=
  fun _ _ sq t =>
    if bound (map placeholder conds) ps then
      (sq, Some (Z.of_nat
                   (length (filter (fun p => forallb (fun c => holds ps c p)
                                                     conds)
                                   (pallets t))), t))
    else (sq, None).

(** The JSON the list route answers with; NaN is printed as null
    ([None]). *)
Inductive list_payload : Type :=
| ListError (error : string)
| PalletList (pallets : list pallet) (total : Z) (limit offset : option Z)
             (hasMore : bool).

Record list_response : Type := mkListResponse {
  list_status : Z;
  list_json : list_payload
}.

(** [totalCount > parseInt(offset) + result.rows.length]: false when
    [parseInt] gives NaN. *)
Definition has_more (total : Z) (offset : option Z) (rows : nat) : bool :=
  match offset with
  | Some o => o + Z.of_nat rows <? total
  | None => false
  end.

(** GET /api/pallets.  The count query repeats the three filters with its
    own parameter list; [parseInt] of the count the server prints is that
    count. *)
Definition listPallets (rd : readers) (l : listing) : pg list_response :=
  try_catch
    (let limit := or_default (q_limit l) "100" in
     let offset := or_default (q_offset l) "0" in
     let q := filters l in
     result <- query
       (select_page rd (conditions q) (paramCount q) (S (paramCount q))
          (params q ++ [JS.prepareValue limit; JS.prepareValue offset])) ;;
     let c := filters l in
     totalCount <- query (select_count (conditions c) (params c)) ;;
     ret (mkListResponse 200
            (PalletList result totalCount (parseInt rd limit)
               (parseInt rd offset)
               (has_more totalCount (parseInt rd offset) (length result)))))
    (ret (mkListResponse 500 (ListError "Failed to fetch pallets"))).

(** *** The stock route, GET /api/pallets/warehouse/stock *)

(** A row of the view [current_warehouse_stock] (database/schema.sql): the
    pallet's columns, then [last_handled_by] and [last_scan_time], NULL for
    a pallet without audit rows (LEFT JOIN). *)
Record stock_row : Type := mkStockRow {
  stock_pallet : pallet;
  last_handled_by : option string;
  last_scan_time : option Z
}.

(** The lateral subquery: [SELECT flo_name, scanned_at FROM pallet_scans
    WHERE pallet_id = p.pallet_id ORDER BY scanned_at DESC LIMIT 1]. *)
Definition last_scan (t : tables) (p : pallet) : option scan :=
  hd_error
    (order_by_scanned_at_desc
       (filter (scan_pallet_id_is (Some (pallet_id p))) (pallet_scans t))).

Definition current_warehouse_stock (t : tables) : list stock_row :=
  map (fun p =>
         mkStockRow p (option_map flo_name (last_scan t p))
                    (option_map scanned_at (last_scan t p)))
      (filter (fun p => String.eqb (status p) "At Warehouse") (pallets t)).

(** ORDER BY last_scan_time DESC: NULLs come first; rows with equal times
    are kept in the view's order. *)
Definition not_after (a b : option Z) : bool :=
  match a, b with
  | _, None => true
  | None, Some _ => false
  | Some x, Some y => x <=? y
  end.

Fixpoint insert_last_scan (x : stock_row) (l : list stock_row)
    : list stock_row :=
  match l with
  | [] => [x]
  | y :: rest =>
      if not_after (last_scan_time y) (last_scan_time x) then x :: y :: rest
      else y :: insert_last_scan x rest
  end.

Fixpoint order_by_last_scan_time_desc (l : list stock_row) : list stock_row :=
  match l with
  | [] => []
  | x :: rest => insert_last_scan x (order_by_last_scan_time_desc rest)
  end.

(** [SELECT * FROM current_warehouse_stock ORDER BY last_scan_time DESC] *)
Definition select_stock : stmt (list stock_row) :=
  fun _ _ sq t =>
    (sq, Some (order_by_last_scan_time_desc (current_warehouse_stock t), t)).

(** [pallet.warehouse_location || 'Unassigned'] *)
Definition location (r : stock_row) : string :=
  match warehouse_location (stock_pallet r) with
  | Some s => if String.eqb s "" then "Unassigned" else s
  | None => "Unassigned"
  end.

(** [stockByLocation]: the object's own keys with their arrays, in the
    order the keys were added. *)
Definition groups : Type := list (string * list stock_row).

Definition own (g : groups) (key : string) : bool :=
  existsb (fun kv => String.eqb (fst kv) key) g.

(** [stockByLocation[location].push(pallet)] on an own key. *)
Definition push (key : string) (r : stock_row) (g : groups) : groups :=
  map (fun kv : string * list stock_row =>
         if String.eqb (fst kv) key then (fst kv, (snd kv ++ [r])%list)
         else kv) g.

(** One round of the [forEach].  [inherited] says which names
    [Object.prototype] holds: for such a key that is not an own one,
    [stockByLocation[location]] is the inherited (truthy) value, no array
    is put there, and [push] is not a function of it: a TypeError
    ([None]). *)
Definition group_one (inherited : string -> bool) (g : groups) (r : stock_row)
    : option groups :=
  let key := location r in
  if own g key then Some (push key r g)
  else if inherited key then None
  else Some (g ++ [(key, [r])])%list.

Fixpoint group_all (inherited : string -> bool) (g : groups)
    (rows : list stock_row) : option groups :=
  match rows with
  | [] => Some g
  | r :: rest =>
      match group_one inherited g r with
      | Some g' => group_all inherited g' rest
      | None => None
      end
  end.

(** The JSON the stock route answers with. *)
Inductive stock_payload : Type :=
| StockError (error : string)
| Stock (totalPallets : Z) (pallets : list stock_row) (byLocation : groups).

Record stock_response : Type := mkStockResponse {
  stock_status : Z;
  stock_json : stock_payload
}.

(** GET /api/pallets/warehouse/stock *)
Definition warehouseStock (inherited : string -> bool) : pg stock_response :=
  try_catch
    (result <- query select_stock ;;
     match group_all inherited [] result with
     | Some stockByLocation =>
         ret (mkStockResponse 200
                (Stock (Z.of_nat (length result)) result stockByLocation))
     | None => throw
     end)
    (ret (mkStockResponse 500 (StockError "Failed to fetch warehouse stock"))).

(** ** Reading the stored state *)

(** The pallet with a given [pallet_id], as GET /api/pallets/:palletId
    reads it. *)
Definition find_pallet (pid : string) (d : db) : option pallet :=
  hd_error (filter (pallet_id_is (Some pid)) (pallets (tabs d))).

(** The audit rows of a pallet in table order, which is the order in which
    the scans were committed. *)
Definition audit_trail (pid : string) (d : db) : list scan :=
  filter (scan_pallet_id_is (Some pid)) (pallet_scans (tabs d)).

(** What a successful scan makes of the pallet row. *)
Definition scanned (t : Z) (b : body) (s : string) (p : pallet) : pallet :=
  let p' := with_updated_at t (with_status s p) in
  if JS.truthy (warehouseLocation b)
  then with_warehouse_location (JS.prepareValue (warehouseLocation b)) p'
  else p'.

(** The audit row a successful scan appends. *)
Definition audit_row (d : db) (t : Z) (u : user) (pid : string) (b : body)
    (previous new : string) : scan :=
  mkScan (pallet_scans_id_seq (seqs d) + 1) pid (actor_id u) (full_name u)
    (Some previous) new
    (JS.prepareValue (warehouseLocation b)) (JS.prepareValue (latitude_ b))
    (JS.prepareValue (longitude_ b)) (JS.prepareValue (notes_ b)) t.

Definition scan_accepted (r : option response) : bool :=
  match r with
  | Some (mkResponse 200 (PalletScanned _ _ _)) => true
  | _ => false
  end.

(** ** The audit chain *)

Definition status_is (o : option string) (s : string) : bool :=
  match o with
  | Some v => String.eqb v s
  | None => false
  end.

(** Replays audit rows, oldest first, from a status: every row must start
    from the status the one before it left. *)
Fixpoint replay (s : string) (trail : list scan) : option string :=
  match trail with
  | [] => Some s
  | r :: rest =>
      if status_is (previous_status r) s then replay (new_status r) rest
      else None
  end.

(** The consistency of state store and audit log: pallet ids are unique,
    every status is one of the seven, every audit row belongs to a stored
    pallet, and the audit rows of each pallet lead from ['At Production'] to
    its current status. *)
Record consistent (d : db) : Prop := mkConsistent {
  unique_ids : NoDup (map pallet_id (pallets (tabs d)));
  valid_statuses :
    Forall (fun p => is_valid_status (status p) = true) (pallets (tabs d));
  scans_reference :
    Forall (fun s => existsb (pallet_id_is (Some (scan_pallet_id s)))
                       (pallets (tabs d)) = true)
           (pallet_scans (tabs d));
  trails_replay :
    Forall (fun p => replay status_default (audit_trail (pallet_id p) d)
                     = Some (status p))
           (pallets (tabs d))
}.

(** The clock readings of successive requests grow strictly. *)
Fixpoint ticking (calls : list call) : Prop :=
  match calls with
  | [] => True
  | c :: rest =>
      Forall (fun c' => now (during c) < now (during c')) rest /\ ticking rest
  end.

(** What one request adds to the count of accepted scans of pallet [pid]. *)
Definition adds (pid : string) (r : request) (resp : option response) : nat :=
  match r with
  | POST_scan pid' _ =>
      if String.eqb pid' pid && scan_accepted resp then 1%nat else 0%nat
  | _ => 0%nat
  end.

(** How many scans of pallet [pid] the sequence gets accepted. *)
Fixpoint accepted_scans (pid : string) (d : db) (calls : list call) : nat :=
  match calls with
  | [] => O
  | c :: rest =>
      (adds pid (what c) (snd (serve_call d c))
       + accepted_scans pid (fst (serve_call d c)) rest)%nat
  end.

Definition is_delete_of (pid : string) (r : request) : bool :=
  match r with
  | DELETE_pallet pid' => String.eqb pid' pid
  | _ => false
  end.

Definition is_scan (r : request) : bool :=
  match r with
  | POST_scan _ _ => true
  | _ => false
  end.

(** An environment in which nothing fails: the pool gives a client, no
    statement is faulted, the QR encoder gives an image. *)
Definition calm (t : Z) : env :=
  mkEnv t true [] (Some "data:image/png;base64,").

(** ** Reasoning about handlers *)

(** The outcome and final session of a handler satisfy [Q]. *)
Definition wp {A} (m : pg A) (c : session) (Q : outcome A -> session -> Prop)
    : Prop :=
  Q (fst (m c)) (snd (m c)).

Definition answer (o : outcome response) : option response :=
  match o with
  | Returned r => Some r
  | Thrown => None
  end.

(** ** Vocabulary of the properties *)

(** What the invariant reads of a pallet row: its id and its status. *)
Definition key (p : pallet) : string * string := (pallet_id p, status p).

(** Does an item of a SET list assign the status column? *)
Definition sets_status (a : assignment) : bool :=
  match a with
  | SetParam col_status _ => true
  | _ => false
  end.

(** A scan that commits: the pallet [p] was found, the requested status [s]
    is one of the seven, the actor is a known operator; the answer is 200
    with the updated row and the pair of statuses; the rows of the pallet
    carry the update and one audit row is appended. *)
Definition scan_commits (u : user) (pid : string) (b : body) (d : db) (e : env)
    (p : pallet) (s : string) (d' : db) (r : option response) : Prop :=
  find_pallet pid d = Some p /\
  newStatus b = JS.Str s /\
  is_valid_status s = true /\
  existsb (String.eqb (actor_id u)) (users_flo_id d) = true /\
  r = Some (mkResponse 200
              (PalletScanned (Some (scanned (now e) b s p)) (status p)
                             (JS.Str s))) /\
  tabs d' =
    mkTables
      (map (fun q => if pallet_id_is (Some pid) q
                     then scanned (now e) b s q else q)
           (pallets (tabs d)))
      (pallet_scans (tabs d) ++ [audit_row d (now e) u pid b (status p) s]).

(** The two outcomes of a scan: not accepted and both tables as before, or
    committed. *)
Definition scan_outcome (u : user) (pid : string) (b : body) (d : db) (e : env)
    (d' : db) (r : option response) : Prop :=
  users_flo_id d' = users_flo_id d /\
  ((scan_accepted r = false /\ tabs d' = tabs d) \/
   (exists p s, scan_commits u pid b d e p s d' r)).

(** The row the INSERT of POST /api/pallets makes of a body. *)
Definition created_row (d : db) (t : Z) (b : body) : option pallet :=
  match JS.prepareValue (palletId b), JS.prepareValue (itemCode b),
        JS.prepareValue (itemName b), JS.prepareValue (itemQuantity b) with
  | Some pid, Some code, Some name, Some quantity =>
      Some (mkPallet (pallets_id_seq (seqs d) + 1) pid code name quantity
              (JS.prepareValue (unitNo b)) (JS.prepareValue (weightKg b))
              (JS.prepareValue (productionDate b))
              (JS.prepareValue (expiryDate b)) status_default
              (JS.prepareValue (warehouseLocation b))
              (JS.prepareValue (destination_ b)) None t t)
  | _, _, _, _ => None
  end.

Definition pallet_created (r : option response) : bool :=
  match r with
  | Some (mkResponse 201 (PalletCreated _)) => true
  | _ => false
  end.

(** A creation that commits: the id was free, the row is appended, the
    answer is 201 with the row. *)
Definition create_commits (b : body) (d : db) (e : env) (row : pallet)
    (d' : db) (r : option response) : Prop :=
  created_row d (now e) b = Some row /\
  filter (pallet_id_is (Some (pallet_id row))) (pallets (tabs d)) = [] /\
  r = Some (mkResponse 201 (PalletCreated (Some row))) /\
  tabs d' = mkTables (pallets (tabs d) ++ [row]) (pallet_scans (tabs d)).

Definition create_outcome (b : body) (d : db) (e : env)
    (d' : db) (r : option response) : Prop :=
  users_flo_id d' = users_flo_id d /\
  ((pallet_created r = false /\ tabs d' = tabs d) \/
   (exists row, create_commits b d e row d' r)).

(** The rows keep their ids and statuses, the audit trail is untouched. *)
Definition keeps_keys (d d' : db) : Prop :=
  users_flo_id d' = users_flo_id d /\
  map key (pallets (tabs d')) = map key (pallets (tabs d)) /\
  pallet_scans (tabs d') = pallet_scans (tabs d).

(** What DELETE with its cascade leaves of the tables. *)
Definition deleted (pid : string) (t : tables) : tables :=
  mkTables
    (filter (fun p => negb (pallet_id_is (Some pid) p)) (pallets t))
    (filter (fun s => negb (existsb (String.eqb (scan_pallet_id s))
                              (map pallet_id
                                 (filter (pallet_id_is (Some pid)) (pallets t)))))
            (pallet_scans t)).

Definition pallet_deleted (r : option response) : bool :=
  match r with
  | Some (mkResponse 200 (Message _)) => true
  | _ => false
  end.

Definition delete_outcome (pid : string) (d d' : db) (r : option response)
    : Prop :=
  users_flo_id d' = users_flo_id d /\
  ((pallet_deleted r = false /\ tabs d' = tabs d) \/
   (pallet_deleted r = true /\ find_pallet pid d <> None /\
    tabs d' = deleted pid (tabs d))).

(** The order of a history, newest first, and of a trail whose timestamps
    grow strictly. *)
Definition newer_first (r1 r2 : scan) : Prop := scanned_at r2 <= scanned_at r1.

Definition older_first (r1 r2 : scan) : Prop := scanned_at r1 < scanned_at r2.

(** What a request adds to the trail of pallet [pid]: the pallet stays, and
    its trail grows by the rows listed. *)
Definition trail_step (pid : string) (d d' : db) (t : Z) (n : nat) : Prop :=
  find_pallet pid d' <> None /\
  exists rows,
    audit_trail pid d' = (audit_trail pid d ++ rows)%list /\
    Forall (fun s => scanned_at s = t) rows /\
    length rows = n.

(** ** Column types (database/schema.sql)

    The texts that a column of the type takes and gives back as they are,
    without rounding, padding or cutting.  On these the row written by
    [assign] is the row the server holds; a text outside them is refused
    by the server or stored as another text. *)

Definition is_digit (c : ascii) : bool :=
  (48 <=? nat_of_ascii c)%nat && (nat_of_ascii c <=? 57)%nat.

Fixpoint all_digits (s : string) : bool :=
  match s with
  | EmptyString => true
  | String c rest => is_digit c && all_digits rest
  end.

(** A natural number as JSON and [String(n)] print it: digits, at most
    [n] of them, the first not 0 unless it is the only one. *)
Definition numeral (n : nat) (s : string) : bool :=
  match s with
  | EmptyString => false
  | String c rest =>
      all_digits s && (String.length s <=? n)%nat
      && (negb (Ascii.eqb c "0") || String.eqb rest "")
  end.

(** INTEGER: nine digits are within 32 bits; a sign only before a number
    that is not 0. *)
Definition integer_text (s : string) : bool :=
  match s with
  | String "-" rest => numeral 9 rest && negb (String.eqb rest "0")
  | _ => numeral 9 s
  end.

Fixpoint before_point (s : string) : string :=
  match s with
  | EmptyString => EmptyString
  | String c rest => if Ascii.eqb c "." then EmptyString
                     else String c (before_point rest)
  end.

Fixpoint after_point (s : string) : option string :=
  match s with
  | EmptyString => None
  | String c rest => if Ascii.eqb c "." then Some rest else after_point rest
  end.

(** DECIMAL(10,2), not negative, as the server prints it: at most eight
    digits before the point and two after it. *)
Definition decimal_10_2_text (s : string) : bool :=
  numeral 8 (before_point s)
  && match after_point s with
     | Some f => all_digits f && (String.length f =? 2)%nat
     | None => false
     end.

Definition digit_value (c : ascii) : nat := (nat_of_ascii c - 48)%nat.

Definition leap_year (y : nat) : bool :=
  ((y mod 4 =? 0) && negb (y mod 100 =? 0) || (y mod 400 =? 0))%nat.

Definition days_in_month (y m : nat) : nat :=
  if existsb (Nat.eqb m) [1; 3; 5; 7; 8; 10; 12]%nat then 31%nat
  else if existsb (Nat.eqb m) [4; 6; 9; 11]%nat then 30%nat
  else if Nat.eqb m 2 then (if leap_year y then 29%nat else 28%nat)
  else 0%nat.

(** DATE: [YYYY-MM-DD], a day of the calendar in the years 0001 to 9999. *)
Definition date_text (s : string) : bool :=
  match s with
  | String y1 (String y2 (String y3 (String y4 (String "-"
      (String m1 (String m2 (String "-"
        (String d1 (String d2 EmptyString))))))))) =>
      let y := (1000 * digit_value y1 + 100 * digit_value y2
                + 10 * digit_value y3 + digit_value y4)%nat in
      let m := (10 * digit_value m1 + digit_value m2)%nat in
      let d := (10 * digit_value d1 + digit_value d2)%nat in
      forallb is_digit [y1; y2; y3; y4; m1; m2; d1; d2]
      && (1 <=? y)%nat && (1 <=? d)%nat && (d <=? days_in_month y m)%nat
  | _ => false
  end.

Fixpoint ascii_text (s : string) : bool :=
  match s with
  | EmptyString => true
  | String c rest =>
      (1 <=? nat_of_ascii c)%nat && (nat_of_ascii c <=? 127)%nat
      && ascii_text rest
  end.

(** VARCHAR(n): at most [n] characters (of ASCII, NUL left out). *)
Definition varchar_text (n : nat) (s : string) : bool :=
  ascii_text s && (String.length s <=? n)%nat.

(** The columns of [pallets] with their types.  NULL is left to the NOT
    NULL constraints. *)
Definition takes (c : column) (v : option string) : bool :=
  match v with
  | None => true
  | Some s =>
      match c with
      | col_item_code | col_unit_no | col_status | col_warehouse_location =>
          varchar_text 50 s
      | col_item_name | col_destination => varchar_text 100 s
      | col_item_quantity => integer_text s
      | col_weight_kg => decimal_10_2_text s
      | col_production_date | col_expiry_date => date_text s
      | col_qr_code_url => ascii_text s
      end
  end.

(** Every parameter of a SET list is a text its column takes. *)
Definition fits (sets : list assignment) : bool :=
  forallb (fun a => match a with
                    | SetParam c v => takes c v
                    | SetUpdatedAtNow => true
                    end) sets.

(** ** Vocabulary of the further properties *)

(** Row by row, what an UPDATE did. *)
Definition row_updated (t : Z) (sets : list assignment) (param : option string)
    (p p' : pallet) : Prop :=
  if pallet_id_is param p then update_row t sets p = Some p' else p' = p.

(** Everything in the tables that is not about pallet [pid]. *)
Definition outside (pid : string) (t : tables) : tables :=
  mkTables
    (filter (fun p => negb (pallet_id_is (Some pid) p)) (pallets t))
    (filter (fun s => negb (scan_pallet_id_is (Some pid) s)) (pallet_scans t)).

(** Requests that name pallet [pid] and do not delete it, and reads. *)
Definition concerns (pid : string) (r : request) : bool :=
  match r with
  | POST_pallets _ => false
  | GET_pallet _ => true
  | POST_scan x _ => String.eqb x pid
  | GET_history _ => true
  | PUT_pallet x _ => String.eqb x pid
  | DELETE_pallet _ => false
  | POST_qr_generate b =>
      match JS.prepareValue (palletId b) with
      | Some x => String.eqb x pid
      | None => false
      end
  end.

(** What PUT /api/pallets/:palletId does to the database: nothing, or its
    one UPDATE. *)
Definition update_outcome (pid : string) (b : body) (d : db) (e : env)
    (d' : db) (r : option response) : Prop :=
  users_flo_id d' = users_flo_id d /\ seqs d' = seqs d /\
  ((tabs d' = tabs d /\
    forall p, r <> Some (mkResponse 200 (PalletUpdated p))) \/
   (exists rows' p' rest,
      update_rows (now e) (admin_updates b ++ [SetUpdatedAtNow]) (Some pid)
                  (pallets (tabs d)) = Some (rows', p' :: rest) /\
      tabs d' = mkTables rows' (pallet_scans (tabs d)) /\
      r = Some (mkResponse 200 (PalletUpdated (Some p'))))).

(** What POST /api/qr/generate does to the database: nothing, or its one
    UPDATE of [qr_code_url]. *)
Definition qr_outcome (qr : option string) (b : body) (d : db) (e : env)
    (d' : db) (r : option response) : Prop :=
  users_flo_id d' = users_flo_id d /\ seqs d' = seqs d /\
  ((tabs d' = tabs d /\
    forall x y z, r <> Some (mkResponse 200 (QrGenerated x y z))) \/
   (exists pid image p rows' returned,
      JS.prepareValue (palletId b) = Some pid /\ qr = Some image /\
      find_pallet pid d = Some p /\
      update_rows (now e) [SetParam col_qr_code_url (Some image)] (Some pid)
                  (pallets (tabs d)) = Some (rows', returned) /\
      tabs d' = mkTables rows' (pallet_scans (tabs d)) /\
      r = Some (mkResponse 200 (QrGenerated (pallet_id p) image p)))).

(** What a column holds after the UPDATE of PUT /api/pallets/:palletId: the
    parameter of the body's field when the field is given, else what the
    column held. *)
Definition stored (v : JS.value) (old : option string) : option string :=
  if JS.defined v then JS.prepareValue v else old.

(** What the UPDATE of PUT /api/pallets/:palletId makes of a row, or [None]
    when a NOT NULL column would take NULL. *)
Definition edited (t : Z) (b : body) (p : pallet) : option pallet :=
  match stored (itemCode b) (Some (item_code p)),
        stored (itemName b) (Some (item_name p)),
        stored (itemQuantity b) (Some (item_quantity p)) with
  | Some code, Some name, Some quantity =>
      Some (mkPallet (id p) (pallet_id p) code name quantity
              (stored (unitNo b) (unit_no p))
              (stored (weightKg b) (weight_kg p))
              (stored (productionDate b) (production_date p))
              (stored (expiryDate b) (expiry_date p))
              (status p)
              (stored (warehouseLocation b) (warehouse_location p))
              (stored (destination_ b) (destination p))
              (qr_code_url p) (created_at p) t)
  | _, _, _ => None
  end.

(** The body gives none of the nine fields the route can update. *)
Definition no_fields (b : body) : Prop :=
  itemCode b = JS.Undefined /\ itemName b = JS.Undefined /\
  itemQuantity b = JS.Undefined /\ unitNo b = JS.Undefined /\
  weightKg b = JS.Undefined /\ productionDate b = JS.Undefined /\
  expiryDate b = JS.Undefined /\ warehouseLocation b = JS.Undefined /\
  destination_ b = JS.Undefined.

(** What stays of a pallet row for as long as it is stored: the serial
    [id], the [pallet_id] and the time of creation. *)
Definition birth (p : pallet) : Z * string * Z :=
  (id p, pallet_id p, created_at p).

(** The ids of a table come from its sequence: they grow along the table
    and none is beyond the last value handed out. *)
Definition handed_out (last : Z) (ids : list Z) : Prop :=
  StronglySorted Z.lt ids /\ Forall (fun i => i <= last) ids.

Definition serial (d : db) : Prop :=
  handed_out (pallets_id_seq (seqs d)) (map id (pallets (tabs d))) /\
  handed_out (pallet_scans_id_seq (seqs d))
             (map scan_id (pallet_scans (tabs d))).

(** What one request does to the sequences: they never go back, and a
    creation or a scan that is accepted has taken exactly the next value. *)
Definition seqs_outcome (d d' : db) (r : option response) : Prop :=
  pallets_id_seq (seqs d) <= pallets_id_seq (seqs d') /\
  pallet_scans_id_seq (seqs d) <= pallet_scans_id_seq (seqs d') /\
  (pallet_created r = true ->
   pallets_id_seq (seqs d') = pallets_id_seq (seqs d) + 1) /\
  (scan_accepted r = true ->
   pallet_scans_id_seq (seqs d') = pallet_scans_id_seq (seqs d) + 1).

(** What one request does to the rows: the pallets keep what they were
    born with, or some are removed, or one is appended under the next id;
    the audit rows are left as they are, or some are removed, or one is
    appended under the next id. *)
Definition rows_outcome (d d' : db) : Prop :=
  (map birth (pallets (tabs d')) = map birth (pallets (tabs d)) \/
   (exists g, pallets (tabs d') = filter g (pallets (tabs d))) \/
   (exists row,
      pallets (tabs d') = (pallets (tabs d) ++ [row])%list /\
      id row = pallets_id_seq (seqs d) + 1 /\
      pallets_id_seq (seqs d') = pallets_id_seq (seqs d) + 1)) /\
  (pallet_scans (tabs d') = pallet_scans (tabs d) \/
   (exists g, pallet_scans (tabs d') = filter g (pallet_scans (tabs d))) \/
   (exists row,
      pallet_scans (tabs d') = (pallet_scans (tabs d) ++ [row])%list /\
      scan_id row = pallet_scans_id_seq (seqs d) + 1 /\
      pallet_scans_id_seq (seqs d') = pallet_scans_id_seq (seqs d) + 1)) /\
  pallets_id_seq (seqs d) <= pallets_id_seq (seqs d') /\
  pallet_scans_id_seq (seqs d) <= pallet_scans_id_seq (seqs d').

(** What a sequence of requests leaves of the rows there were: a pallet
    still stored under an id has kept what it was born with, an audit row
    still stored is as it was; every other row has a later id. *)
Definition rows_kept (d d' : db) : Prop :=
  (forall p', In p' (pallets (tabs d')) ->
     (exists p, In p (pallets (tabs d)) /\ birth p = birth p') \/
     pallets_id_seq (seqs d) < id p') /\
  (forall s', In s' (pallet_scans (tabs d')) ->
     In s' (pallet_scans (tabs d)) \/
     pallet_scans_id_seq (seqs d) < scan_id s') /\
  pallets_id_seq (seqs d) <= pallets_id_seq (seqs d') /\
  pallet_scans_id_seq (seqs d) <= pallet_scans_id_seq (seqs d').

(** A pallet row without the three columns a scan writes: status,
    warehouse location and [updated_at]. *)
Definition description (p : pallet) : pallet :=
  with_status "" (with_warehouse_location None (with_updated_at 0 p)).

Definition is_qr_generate (r : request) : bool :=
  match r with
  | POST_qr_generate _ => true
  | _ => false
  end.

(** What GET /api/qr/:palletId answers for the row it reads. *)
Definition qr_answer (o : option pallet) : qr_response :=
  match o with
  | None => mkQrResponse 404 (QrError "Pallet not found")
  | Some p =>
      match qr_code_url p with
      | None => QrNotGenerated
      | Some url =>
          if String.eqb url "" then QrNotGenerated
          else mkQrResponse 200 (QrCode (pallet_id p) (item_name p) url)
      end
  end.

(** No stored row of pallet [pid] has a QR code. *)
Definition no_qr_code (pid : string) (d : db) : Prop :=
  Forall (fun p => qr_code_url p = None)
         (filter (pallet_id_is (Some pid)) (pallets (tabs d))).

(** Does the request generate a QR code for pallet [pid]? *)
Definition generates_for (pid : string) (r : api_request) : bool :=
  match r with
  | Routed (POST_qr_generate b) =>
      match JS.prepareValue (palletId b) with
      | Some x => String.eqb x pid
      | None => false
      end
  | Routed _ => false
  | POST_qr_generate_bulk ids =>
      existsb (fun v => match v with
                        | Some x => String.eqb x pid
                        | None => false
                        end) (elements_of ids)
  end.

Definition deletes (pid : string) (r : api_request) : bool :=
  match r with
  | Routed r => is_delete_of pid r
  | POST_qr_generate_bulk _ => false
  end.

(** What a bulk generation does to a row: nothing, or a new [qr_code_url]
    for a row that is listed. *)
Definition qr_touched (elements : list (option string)) (p p' : pallet)
    : Prop :=
  p' = p \/
  (listed elements p = true /\
   exists image, p' = with_qr_code_url (Some image) p).

(** What POST /api/qr/generate-bulk does to the database. *)
Definition bulk_outcome (ids : bulk_ids) (d d' : db) : Prop :=
  users_flo_id d' = users_flo_id d /\ seqs d' = seqs d /\
  pallet_scans (tabs d') = pallet_scans (tabs d) /\
  Forall2 (qr_touched (elements_of ids)) (pallets (tabs d)) (pallets (tabs d')).

(** The state a handler's statements can leave of a session that has no
    open transaction: the same but for QR codes of listed rows. *)
Definition bulk_frame (elements : list (option string)) (c c' : session)
    : Prop :=
  txn c' = None /\ clock c' = clock c /\
  users_flo_id (server c') = users_flo_id (server c) /\
  seqs (server c') = seqs (server c) /\
  pallet_scans (tabs (server c')) = pallet_scans (tabs (server c)) /\
  Forall2 (qr_touched elements) (pallets (tabs (server c)))
          (pallets (tabs (server c'))).

(** What a bulk generation that the storage does not fail makes of a row:
    a listed row takes the image of its own data, when there is one. *)
Definition encoded (encode : pallet -> option string)
    (elements : list (option string)) (p : pallet) : pallet :=
  if listed elements p
  then match encode p with
       | Some image => with_qr_code_url (Some image) p
       | None => p
       end
  else p.

(** [{ palletId, itemName, qrCode }] of a row, when it can be encoded. *)
Definition qr_entry (encode : pallet -> option string) (p : pallet)
    : option (string * string * string) :=
  option_map (fun image => (pallet_id p, item_name p, image)) (encode p).

Fixpoint all_some {A} (l : list (option A)) : option (list A) :=
  match l with
  | [] => Some []
  | Some a :: rest => option_map (cons a) (all_some rest)
  | None :: _ => None
  end.

(** One branch after the other on a row. *)
Definition branch_on (encode : pallet -> option string) (q p : pallet)
    : pallet :=
  if pallet_id_is (Some (pallet_id p)) q
  then match encode p with
       | Some image => with_qr_code_url (Some image) q
       | None => q
       end
  else q.

(** What stays of a session through statements that do not fail. *)
Definition calm_frame (c c' : session) : Prop :=
  txn c' = None /\ faults c' = [] /\ clock c' = clock c /\
  users_flo_id (server c') = users_flo_id (server c) /\
  seqs (server c') = seqs (server c) /\
  pallet_scans (tabs (server c')) = pallet_scans (tabs (server c)).

(** *** The list and stock routes *)

(** What a filter of the request asks of a row. *)
Definition asks (v : JS.value) (x : option string) : bool :=
  if JS.truthy v
  then match JS.prepareValue v, x with
       | Some s, Some y => String.eqb y s
       | _, _ => false
       end
  else true.

Definition wanted (l : listing) (p : pallet) : bool :=
  asks (q_status l) (Some (status p))
  && asks (q_itemCode l) (Some (item_code p))
  && asks (q_warehouseLocation l) (warehouse_location p).

Definition newest_first (p1 p2 : pallet) : Prop :=
  created_at p2 <= created_at p1.

(** The page of a listing: the wanted rows, newest first, without the
    first [off] and cut after [lim]. *)
Definition page (l : listing) (lim off : option nat) (rows : list pallet)
    : list pallet :=
  let sorted := order_by_created_at_desc (filter (wanted l) rows) in
  let rest := match off with Some n => skipn n sorted | None => sorted end in
  match lim with Some n => firstn n rest | None => rest end.

(** The order of the stock list: unscanned pallets first, then the newest
    scan first. *)
Definition last_scan_first (r1 r2 : stock_row) : Prop :=
  not_after (last_scan_time r2) (last_scan_time r1) = true.

(** The array under a key of [byLocation]; none is no row. *)
Definition rows_of (g : groups) (key : string) : list stock_row :=
  match find (fun kv => String.eqb (fst kv) key) g with
  | Some kv => snd kv
  | None => []
  end.

Definition at_location (key : string) (r : stock_row) : bool :=
  String.eqb (location r) key.

(** ** Sample data *)

(** The administrator, the operator and the pallet that
    scripts/setup-database.js sets up. *)
Definition admin : user := mkUser "admin" "System Administrator" "admin" None.

Definition flo001 : user :=
  mkUser "flo001" "John Forklift" "flo" (Some "FLO001").

Definition PLT001 : body :=
  mkBody (JS.Str "PLT001") (JS.Str "ITEM-001") (JS.Str "Sample Product")
         (JS.Num "100") (JS.Str "BOX") (JS.Num "250.5")
         (JS.Str "2026-01-01") (JS.Str "2026-04-01") JS.Null JS.Undefined
         JS.Undefined JS.Undefined JS.Undefined JS.Undefined.

(** A scan body: [{ newStatus, warehouseLocation }]. *)
Definition scan_to (s : string) (location : JS.value) : body :=
  mkBody JS.Undefined JS.Undefined JS.Undefined JS.Undefined JS.Undefined
         JS.Undefined JS.Undefined JS.Undefined location JS.Undefined
         (JS.Str s) JS.Undefined JS.Undefined JS.Undefined.

(** The database with the sample operator, and with the sample pallet
    created at time 1. *)
Definition db0 : db := db_empty ["FLO001"].

Definition db1 : db := fst (serve admin (POST_pallets PLT001) db0 (calm 1)).

(** The sample pallet scanned twice by the operator, at times 2 and 3, and
    then deleted by the administrator at time 4. *)
Definition db2 : db :=
  fst (serve flo001
         (POST_scan "PLT001" (scan_to "Picked from Production" JS.Undefined))
         db1 (calm 2)).

Definition db3 : db :=
  fst (serve flo001
         (POST_scan "PLT001" (scan_to "At Warehouse" (JS.Str "A-12-3")))
         db2 (calm 3)).

Definition db4 : db := fst (serve admin (DELETE_pallet "PLT001") db3 (calm 4)).

(** The two scans of the sample pallet as a sequence of requests. *)
Definition two_scans : list call :=
  [ mkCall flo001
      (POST_scan "PLT001" (scan_to "Picked from Production" JS.Undefined))
      (calm 2);
    mkCall flo001
      (POST_scan "PLT001" (scan_to "At Warehouse" (JS.Str "A-12-3")))
      (calm 3) ].

(** The two scans of the sample pallet served while the clock goes back:
    the first at time 5, the second at time 3. *)
Definition two_scans_clock_back : list call :=
  [ mkCall flo001
      (POST_scan "PLT001" (scan_to "Picked from Production" JS.Undefined))
      (calm 5);
    mkCall flo001
      (POST_scan "PLT001" (scan_to "At Warehouse" (JS.Str "A-12-3")))
      (calm 3) ].

(** *** Further sample data *)

(** An administrative update: [{ weightKg: null, destination }]. *)
Definition relabel : body :=
  mkBody JS.Undefined JS.Undefined JS.Undefined JS.Undefined JS.Undefined
         JS.Null JS.Undefined JS.Undefined JS.Undefined (JS.Str "Lahore")
         JS.Undefined JS.Undefined JS.Undefined JS.Undefined.

(** [{ itemQuantity: 120, weightKg: "312.75", productionDate: "2026-05-01",
      warehouseLocation: null, destination: "Lahore" }] *)
Definition restock : body :=
  mkBody JS.Undefined JS.Undefined JS.Undefined (JS.Num "120") JS.Undefined
         (JS.Str "312.75") (JS.Str "2026-05-01") JS.Undefined JS.Null
         (JS.Str "Lahore")
         JS.Undefined JS.Undefined JS.Undefined JS.Undefined.

(** An encoder for the examples: the image names the pallet and its
    status; a pallet without item code is not encoded. *)
Definition label_encoder (p : pallet) : option string :=
  if String.eqb (item_code p) "" then None
  else Some ("data:image/png;base64," ++ pallet_id p ++ ":" ++ status p).

(** Requests that leave the QR code of [PLT001] alone: a scan of it, a
    bulk generation for other pallets, an administrative update of it. *)
Definition other_calls : list api_call :=
  [ mkApiCall flo001
      (Routed (POST_scan "PLT001" (scan_to "At Warehouse" (JS.Str "A-12-3"))))
      (calm 3);
    mkApiCall admin
      (POST_qr_generate_bulk (IdArray [Some "PLT002"; None; Some "PLT003"]))
      (calm 4);
    mkApiCall admin (Routed (PUT_pallet "PLT001" relabel)) (calm 5) ].

(** [{ palletIds: ["PLT001", "PLT404"] }] *)
Definition bulk_sample : bulk_ids := IdArray [Some "PLT001"; Some "PLT404"].

(** Plain decimal numerals, which the server and [parseInt] read alike. *)
Fixpoint read_digits (s : string) (acc : Z) : option Z :=
  match s with
  | EmptyString => Some acc
  | String c rest =>
      let n := Z.of_nat (Ascii.nat_of_ascii c) - 48 in
      if (0 <=? n) && (n <=? 9) then read_digits rest (10 * acc + n) else None
  end.

Definition decimal (s : string) : option Z :=
  match s with
  | EmptyString => None
  | _ => read_digits s 0
  end.

Definition decimal_readers : readers :=
  mkReaders decimal
    (fun v => match JS.prepareValue v with
              | Some s => decimal s
              | None => None
              end).

(** [GET /api/pallets?status=At Warehouse&limit=1] *)
Definition at_warehouse : listing :=
  mkListing (JS.Str "At Warehouse") JS.Undefined JS.Undefined (JS.Str "1")
            JS.Undefined.

(** The property names of [Object.prototype] in Node.js. *)
Definition object_prototype (key : string) : bool :=
  existsb (String.eqb key)
    [ "constructor"; "__defineGetter__"; "__defineSetter__"; "hasOwnProperty";
      "__lookupGetter__"; "__lookupSetter__"; "isPrototypeOf";
      "propertyIsEnumerable"; "toString"; "valueOf"; "__proto__";
      "toLocaleString" ].

Ltac session_simpl :=
  cbn beta iota delta
    [fst snd txn server clock faults tabs seqs users_flo_id pallets
     pallet_scans store visible with_seqs select_pallets update_pallets
     insert_pallet_scan insert_pallet delete_pallets select_scans
     pallets_id_seq pallet_scans_id_seq answer connect now storage_faults]
    in *.

(** * Properties *)

(** ** Rules for running a handler step by step *)

Section Rules.
Context {A : Type}.
Variable Q : outcome A -> session -> Prop.

Lemma wp_ret (a : A) c : Q (Returned a) c -> wp (ret a) c Q.
Proof. exact (fun H => H). Qed.

Lemma wp_throw c : Q Thrown c -> wp throw c Q.
Proof. exact (fun H => H). Qed.

Lemma wp_fun (f : pg A) c : Q (fst (f c)) (snd (f c)) -> wp f c Q.
Proof. exact (fun H => H). Qed.

Lemma wp_bind B (m : pg B) (k : B -> pg A) c :
  wp m c (fun o c' => match o with
                      | Returned b => wp (k b) c' Q
                      | Thrown => Q Thrown c'
                      end) ->
  wp (bind m k) c Q.
Proof. unfold wp, bind. destruct (m c) as [[b|] c']; exact (fun H => H). Qed.

Lemma wp_try (m h : pg A) c :
  wp m c (fun o c' => match o with
                      | Returned a => Q (Returned a) c'
                      | Thrown => wp h c' Q
                      end) ->
  wp (try_catch m h) c Q.
Proof.
  unfold wp, try_catch. destruct (m c) as [[a|] c']; exact (fun H => H).
Qed.

Lemma wp_if (b : bool) (m1 m2 : pg A) c :
  (b = true -> wp m1 c Q) -> (b = false -> wp m2 c Q) ->
  wp (if b then m1 else m2) c Q.
Proof. destruct b; auto. Qed.

(** A statement is sent: with no fault left it runs; otherwise the next
    flag decides. *)
Lemma wp_send (m : pg A) sv tx ck fs :
  match fs with
  | [] => wp m (mkSession sv tx ck []) Q
  | true :: rest => Q Thrown (mkSession sv tx ck rest)
  | false :: rest => wp m (mkSession sv tx ck rest) Q
  end ->
  wp (send m) (mkSession sv tx ck fs) Q.
Proof.
  unfold wp, send, take_fault. destruct fs as [|[] rest]; exact (fun H => H).
Qed.

Lemma wp_execute (s : stmt A) c :
  match s (clock c) (users_flo_id (server c)) (seqs (server c)) (visible c)
  with
  | (sq, Some (a, t)) => Q (Returned a) (store sq t c)
  | (sq, None) =>
      Q Thrown
        (mkSession (with_seqs sq (server c)) (txn c) (clock c) (faults c))
  end ->
  wp (execute s) c Q.
Proof.
  unfold wp, execute.
  destruct (s _ _ _ _) as [sq [[a t]|]]; exact (fun H => H).
Qed.
End Rules.

Ltac stmt_simpl :=
  unfold select_pallets, update_pallets, insert_pallet_scan, insert_pallet,
    delete_pallets, select_scans in *;
  cbn [JS.prepareValue] in *;
  session_simpl.

Ltac innermost x :=
  lazymatch x with
  | match ?y with _ => _ end => innermost y
  | _ => constr:(x)
  end.

(** One step of a handler, splitting on the next fault flag and on the data
    a statement returns. *)
Ltac wp_step :=
  lazymatch goal with
  | |- wp (ret _) _ _ => apply wp_ret; session_simpl
  | |- wp throw _ _ => apply wp_throw; session_simpl
  | |- wp (bind _ _) _ _ => apply wp_bind
  | |- wp (try_catch _ _) _ _ => apply wp_try
  | |- wp (let _ := _ in _) _ _ => cbv zeta
  | |- wp (match ?x with [] => _ | _ :: _ => _ end) _ _ => destruct x eqn:?
  | |- wp (match ?x with Some _ => _ | None => _ end) _ _ => destruct x eqn:?
  | |- wp (if _ then _ else _) _ _ => apply wp_if; intros ?
  | |- wp (query _) _ _ => unfold query
  | |- wp BEGIN _ _ => unfold BEGIN
  | |- wp COMMIT _ _ => unfold COMMIT
  | |- wp ROLLBACK _ _ => unfold ROLLBACK
  | |- wp (send _) (mkSession _ _ _ ?fs) _ =>
      apply wp_send; try (is_var fs; destruct fs as [|[] ?]); session_simpl
  | |- wp (execute _) _ _ => apply wp_execute; stmt_simpl
  | |- wp (fun _ => _) _ _ => apply wp_fun; session_simpl
  | |- match ?x with _ => _ end =>
      let y := innermost x in destruct y eqn:?; session_simpl
  end.

Lemma run_wp (h : pg response) d e (P : db -> option response -> Prop) :
  wp h (connect d e) (fun o c => P (server c) (answer o)) ->
  P (fst (run h d e)) (snd (run h d e)).
Proof.
  unfold wp, run. destruct (h (connect d e)) as [[r|] c]; exact (fun H => H).
Qed.

(** ** Rows under UPDATE *)

Lemma assign_pallet_id t a p p' :
  assign t a p = Some p' -> pallet_id p' = pallet_id p.
Proof.
  destruct a as [[] [v|]|]; cbn; intros H; inversion H; reflexivity.
Qed.

Lemma assign_status t a p p' :
  sets_status a = false -> assign t a p = Some p' -> status p' = status p.
Proof.
  destruct a as [[] [v|]|]; cbn; intros Hs H; inversion H;
    try reflexivity; discriminate.
Qed.

Lemma assign_all_key t sets p p' :
  forallb (fun a => negb (sets_status a)) sets = true ->
  assign_all t sets p = Some p' -> key p' = key p.
Proof.
  revert p. induction sets as [|a sets IH]; cbn; intros p Hs H.
  - inversion H; reflexivity.
  - apply andb_prop in Hs. destruct Hs as [Ha Hs].
    destruct (assign t a p) as [p1|] eqn:E; [|discriminate].
    rewrite (IH _ Hs H). unfold key.
    rewrite (assign_pallet_id _ _ _ E).
    rewrite (assign_status _ _ _ (proj1 (negb_true_iff _) Ha) E). reflexivity.
Qed.

Lemma assign_all_pallet_id t sets p p' :
  assign_all t sets p = Some p' -> pallet_id p' = pallet_id p.
Proof.
  revert p. induction sets as [|a sets IH]; cbn; intros p H.
  - inversion H; reflexivity.
  - destruct (assign t a p) as [p1|] eqn:E; [|discriminate].
    rewrite (IH _ H). exact (assign_pallet_id _ _ _ E).
Qed.

Lemma update_row_key t sets p p' :
  forallb (fun a => negb (sets_status a)) sets = true ->
  update_row t sets p = Some p' -> key p' = key p.
Proof.
  unfold update_row. intros Hs.
  destruct (assign_all t sets p) as [p1|] eqn:E; [|discriminate].
  destruct (is_valid_status (status p1)); [|discriminate].
  intros H; inversion H; subst. eauto using assign_all_key.
Qed.

Lemma update_rows_keys t sets param rows rows' returned :
  forallb (fun a => negb (sets_status a)) sets = true ->
  update_rows t sets param rows = Some (rows', returned) ->
  map key rows' = map key rows.
Proof.
  intros Hs. revert rows' returned.
  induction rows as [|p rows IH]; cbn; intros rows' returned H.
  - inversion H; reflexivity.
  - destruct (update_rows t sets param rows) as [[r1 r2]|]; [|discriminate].
    destruct (pallet_id_is param p).
    + destruct (update_row t sets p) as [p'|] eqn:E; [|discriminate].
      inversion H; subst. cbn. rewrite (update_row_key _ _ _ Hs E).
      f_equal. eauto.
    + inversion H; subst. cbn. f_equal. eauto.
Qed.

Lemma update_rows_map t sets param (f : pallet -> pallet) rows :
  (forall p, pallet_id_is param p = true -> update_row t sets p = Some (f p)) ->
  update_rows t sets param rows =
    Some (map (fun p => if pallet_id_is param p then f p else p) rows,
          map f (filter (pallet_id_is param) rows)).
Proof.
  intros Hf. induction rows as [|p rows IH]; cbn; [reflexivity|].
  rewrite IH. destruct (pallet_id_is param p) eqn:E; [|reflexivity].
  rewrite (Hf _ E). reflexivity.
Qed.

Lemma update_rows_returned t sets param rows rows' returned :
  update_rows t sets param rows = Some (rows', returned) ->
  (returned = [] <-> filter (pallet_id_is param) rows = []).
Proof.
  revert rows' returned.
  induction rows as [|p rows IH]; cbn; intros rows' returned H.
  - inversion H; tauto.
  - destruct (update_rows t sets param rows) as [[r1 r2]|]; [|discriminate].
    destruct (pallet_id_is param p).
    + destruct (update_row t sets p) as [p'|] eqn:E; [|discriminate].
      inversion H; subst. split; discriminate.
    + inversion H; subst. eauto.
Qed.

Lemma is_valid_status_In s : is_valid_status s = true <-> In s validStatuses.
Proof.
  unfold is_valid_status. rewrite existsb_exists. split.
  - intros [x [Hx E]]. apply String.eqb_eq in E. subst; exact Hx.
  - intros H. exists s. split; [exact H | apply String.eqb_refl].
Qed.

Lemma includes_Str b :
  JS.includes validStatuses (newStatus b) = true ->
  exists s, newStatus b = JS.Str s /\ is_valid_status s = true.
Proof.
  destruct (newStatus b); cbn; try discriminate. eauto.
Qed.

Lemma scanned_status t b s p : status (scanned t b s p) = s.
Proof. unfold scanned. destruct (JS.truthy _); reflexivity. Qed.

Lemma scanned_pallet_id t b s p : pallet_id (scanned t b s p) = pallet_id p.
Proof. unfold scanned. destruct (JS.truthy _); reflexivity. Qed.

Lemma scan_update_row t b s p :
  newStatus b = JS.Str s -> is_valid_status s = true ->
  update_row t (scan_updates b) p = Some (scanned t b s p).
Proof.
  intros Hn Hv. unfold update_row.
  assert (E : assign_all t (scan_updates b) p = Some (scanned t b s p)).
  { unfold scan_updates, scanned. rewrite Hn.
    destruct (JS.truthy (warehouseLocation b)); reflexivity. }
  rewrite E, scanned_status, Hv. reflexivity.
Qed.

(** ** What each handler does to the database *)

Lemma scan_update_rows t b s param rows :
  newStatus b = JS.Str s -> is_valid_status s = true ->
  update_rows t (scan_updates b) param rows =
    Some (map (fun q => if pallet_id_is param q then scanned t b s q else q)
              rows,
          map (scanned t b s) (filter (pallet_id_is param) rows)).
Proof.
  intros Hs Hv. apply update_rows_map. intros q _.
  apply scan_update_row; assumption.
Qed.

Lemma recordScan_cases u pid b d e :
  scan_outcome u pid b d e (fst (run (recordScan u pid b) d e))
                           (snd (run (recordScan u pid b) d e)).
Proof.
  apply (run_wp (recordScan u pid b) d e (scan_outcome u pid b d e)).
  unfold recordScan, connect, scan_outcome.
  destruct (JS.includes validStatuses (newStatus b)) eqn:Hinc.
  2:{ repeat wp_step; try discriminate;
      (split; [reflexivity | left; split; reflexivity]). }
  destruct (includes_Str _ Hinc) as [s [Hs Hv]]. rewrite Hs.
  repeat wp_step; try discriminate.
  all: try solve [split; [reflexivity | left; split; reflexivity]].
  all: match goal with
       | H : update_rows _ (scan_updates _) _ _ = _ |- _ =>
           erewrite scan_update_rows in H by eassumption;
           inversion H; subst; clear H
       end.
  all: match goal with
       | H : _ && _ = true |- _ => apply andb_prop in H; destruct H as [_ Hflo]
       end.
  all: match goal with
       | H : filter _ _ = ?p :: _ |- _ =>
           split; [reflexivity | right; exists p, s];
           unfold scan_commits, find_pallet; rewrite H
       end.
  all: repeat split; assumption.
Qed.

Lemma existsb_filter_nil A (f : A -> bool) l :
  existsb f l = false <-> filter f l = [].
Proof.
  induction l as [|x l IH]; cbn; [tauto|].
  destruct (f x); cbn; [split; discriminate | exact IH].
Qed.

Lemma length_pos_false A (l : list A) :
  (0 <? Z.of_nat (length l)) = false -> l = [].
Proof. destruct l; [reflexivity|]. cbn [length]. intros H. apply Z.ltb_ge in H. lia. Qed.

Lemma createPallet_cases b d e :
  create_outcome b d e (fst (run (createPallet b) d e))
                       (snd (run (createPallet b) d e)).
Proof.
  apply (run_wp (createPallet b) d e (create_outcome b d e)).
  unfold createPallet, connect, create_outcome, create_commits, created_row.
  repeat wp_step; try discriminate.
  all: try solve [split; [reflexivity | left; split; reflexivity]].
  all: split; [reflexivity | right; eexists; repeat split; try reflexivity].
  all: cbn [pallet_id].
  all: match goal with
       | H : (0 <? _) = false |- _ => apply length_pos_false in H
       end.
  all: assumption.
Qed.

Lemma keeps_keys_refl d d' :
  users_flo_id d' = users_flo_id d -> tabs d' = tabs d -> keeps_keys d d'.
Proof. intros Hu Ht. unfold keeps_keys. rewrite Hu, Ht. auto. Qed.

Lemma admin_updates_no_status b :
  forallb (fun a => negb (sets_status a)) (admin_updates b ++ [SetUpdatedAtNow])
  = true.
Proof.
  unfold admin_updates, push_defined.
  repeat match goal with
         | |- context [if JS.defined ?v then _ else _] => destruct (JS.defined v)
         end; reflexivity.
Qed.

Lemma updatePallet_keeps pid b d e :
  keeps_keys d (fst (run (updatePallet pid b) d e)).
Proof.
  apply (run_wp (updatePallet pid b) d e (fun d' _ => keeps_keys d d')).
  unfold updatePallet, connect.
  repeat wp_step; try (apply keeps_keys_refl; reflexivity).
  all: unfold keeps_keys; cbn [tabs pallets pallet_scans users_flo_id];
    repeat split;
    eapply update_rows_keys; [apply admin_updates_no_status | eassumption].
Qed.

Lemma generateQR_keeps qr b d e :
  keeps_keys d (fst (run (generateQR qr b) d e)).
Proof.
  apply (run_wp (generateQR qr b) d e (fun d' _ => keeps_keys d d')).
  unfold generateQR, connect.
  repeat wp_step; try (apply keeps_keys_refl; reflexivity).
  all: unfold keeps_keys; cbn [tabs pallets pallet_scans users_flo_id];
    repeat split;
    eapply update_rows_keys; [|eassumption]; reflexivity.
Qed.

Lemma getPallet_reads pid d e : fst (run (getPallet pid) d e) = d.
Proof.
  apply (run_wp (getPallet pid) d e (fun d' _ => d' = d)).
  unfold getPallet, connect. destruct d as [t sq fl].
  repeat wp_step; reflexivity.
Qed.

Lemma getHistory_reads pid d e : fst (run (getHistory pid) d e) = d.
Proof.
  apply (run_wp (getHistory pid) d e (fun d' _ => d' = d)).
  unfold getHistory, connect. destruct d as [t sq fl].
  repeat wp_step; reflexivity.
Qed.

Lemma filter_none_negb A (f : A -> bool) l :
  filter f l = [] -> filter (fun x => negb (f x)) l = l.
Proof.
  induction l as [|x l IH]; cbn; [reflexivity|].
  destruct (f x); cbn; [discriminate|]. intros H. f_equal. auto.
Qed.

Lemma filter_all A (f : A -> bool) l :
  (forall x, In x l -> f x = true) -> filter f l = l.
Proof.
  induction l as [|x l IH]; cbn; intros H; [reflexivity|].
  rewrite (H x (or_introl eq_refl)). f_equal. auto.
Qed.

Lemma deleted_nothing pid t :
  filter (pallet_id_is (Some pid)) (pallets t) = [] -> deleted pid t = t.
Proof.
  intros H. unfold deleted. rewrite H, (filter_none_negb _ _ H).
  rewrite filter_all by reflexivity. destruct t; reflexivity.
Qed.

Lemma deletePallet_cases pid d e :
  delete_outcome pid d (fst (run (deletePallet pid) d e))
                       (snd (run (deletePallet pid) d e)).
Proof.
  apply (run_wp (deletePallet pid) d e (delete_outcome pid d)).
  unfold deletePallet, connect, delete_outcome.
  repeat wp_step; try discriminate.
  all: try solve [split; [reflexivity | left; split; reflexivity]].
  all: split; [reflexivity|].
  all: match goal with
       | H : map pallet_id ?l = [] |- _ =>
           assert (E : l = []) by (destruct l; [reflexivity | discriminate H]);
           left; split; [reflexivity|]; rewrite <- H;
           exact (deleted_nothing pid (tabs d) E)
       | H : map pallet_id ?l = _ :: _ |- _ =>
           right; split; [reflexivity|]; split;
           [ unfold find_pallet; destruct l; [discriminate H | discriminate]
           | rewrite <- H; reflexivity ]
       end.
Qed.

(** ** The invariant *)

Lemma consistent_empty flo_ids : consistent (db_empty flo_ids).
Proof. constructor; cbn; constructor. Qed.

Lemma existsb_key x ps :
  existsb (pallet_id_is (Some x)) ps
  = existsb (fun k => String.eqb (fst k) x) (map key ps).
Proof. induction ps as [|p ps IH]; cbn; [reflexivity | rewrite IH; reflexivity]. Qed.

Lemma filter_key x ps :
  map key (filter (pallet_id_is (Some x)) ps)
  = filter (fun k => String.eqb (fst k) x) (map key ps).
Proof.
  induction ps as [|p ps IH]; cbn; [reflexivity|].
  destruct (String.eqb (pallet_id p) x); cbn; rewrite IH; reflexivity.
Qed.

Lemma consistent_keys d d' :
  map key (pallets (tabs d')) = map key (pallets (tabs d)) ->
  pallet_scans (tabs d') = pallet_scans (tabs d) ->
  consistent d -> consistent d'.
Proof.
  intros Hk Hs [H1 H2 H3 H4]. constructor.
  - replace (map pallet_id (pallets (tabs d')))
      with (map fst (map key (pallets (tabs d')))) by (rewrite map_map; reflexivity).
    rewrite Hk, map_map. exact H1.
  - apply (Forall_map key (fun k => is_valid_status (snd k) = true)).
    rewrite Hk. apply Forall_map. exact H2.
  - rewrite Hs. eapply Forall_impl; [|exact H3]. cbn. intros s Hx.
    rewrite existsb_key, Hk, <- existsb_key. exact Hx.
  - unfold audit_trail in *. rewrite Hs.
    apply (Forall_map key
             (fun k => replay status_default
                         (filter (scan_pallet_id_is (Some (fst k)))
                                 (pallet_scans (tabs d))) = Some (snd k))).
    rewrite Hk. apply Forall_map. exact H4.
Qed.

Lemma consistent_keeps d d' : keeps_keys d d' -> consistent d -> consistent d'.
Proof. intros [_ [Hk Hs]]. apply consistent_keys; assumption. Qed.

Lemma consistent_tabs d d' : tabs d' = tabs d -> consistent d -> consistent d'.
Proof. intros H. apply consistent_keys; rewrite H; reflexivity. Qed.

Lemma pallet_id_is_eq x p : pallet_id_is (Some x) p = true <-> pallet_id p = x.
Proof. apply String.eqb_eq. Qed.

Lemma scan_pallet_id_is_eq x s :
  scan_pallet_id_is (Some x) s = true <-> scan_pallet_id s = x.
Proof. apply String.eqb_eq. Qed.

Lemma filter_nil_In A (f : A -> bool) l :
  filter f l = [] <-> forall x, In x l -> f x = false.
Proof.
  split.
  - intros H x Hx. destruct (f x) eqn:E; [|reflexivity].
    assert (In x (filter f l)) by (apply filter_In; auto).
    rewrite H in *. contradiction.
  - intros H. induction l as [|x l IH]; cbn; [reflexivity|].
    rewrite (H x (or_introl eq_refl)). apply IH. intros; apply H; right; auto.
Qed.

(** No audit row carries the id of a pallet that is not stored. *)
Lemma no_trail_without_pallet d pid :
  consistent d ->
  filter (pallet_id_is (Some pid)) (pallets (tabs d)) = [] ->
  audit_trail pid d = [].
Proof.
  intros [_ _ H3 _] Hnone. unfold audit_trail. apply filter_nil_In.
  intros s Hs. destruct (scan_pallet_id_is (Some pid) s) eqn:E; [|reflexivity].
  apply scan_pallet_id_is_eq in E. rewrite Forall_forall in H3.
  specialize (H3 _ Hs). rewrite E in H3.
  apply existsb_filter_nil in Hnone. congruence.
Qed.

Lemma consistent_create b d e row d' r :
  create_commits b d e row d' r -> consistent d -> consistent d'.
Proof.
  intros [Hrow [Hfresh [_ Ht]]] Hc.
  assert (Hst : status row = status_default).
  { unfold created_row in Hrow.
    repeat match type of Hrow with
           | match ?x with _ => _ end = _ => destruct x; try discriminate
           end.
    inversion Hrow; reflexivity. }
  pose proof (no_trail_without_pallet _ Hc Hfresh) as Htrail.
  destruct Hc as [H1 H2 H3 H4]. constructor; rewrite Ht; cbn [pallets pallet_scans].
  - rewrite map_app. cbn [map].
    apply Permutation_NoDup with (l := pallet_id row :: map pallet_id (pallets (tabs d))).
    + apply Permutation_cons_append.
    + constructor; [|exact H1]. intros Hin. apply in_map_iff in Hin.
      destruct Hin as [q [Hq Hin]].
      rewrite filter_nil_In in Hfresh. specialize (Hfresh _ Hin).
      apply pallet_id_is_eq in Hq. congruence.
  - apply Forall_app. split; [exact H2|]. constructor; [|constructor].
    rewrite Hst. reflexivity.
  - eapply Forall_impl; [|exact H3]. cbn. intros s Hx.
    rewrite existsb_app, Hx. reflexivity.
  - unfold audit_trail in *. rewrite Ht. cbn [pallet_scans].
    apply Forall_app. split; [exact H4|]. constructor; [|constructor].
    rewrite Htrail, Hst. reflexivity.
Qed.

Lemma filter_map_if (f : pallet -> pallet) (g : pallet -> bool) x ps :
  (forall p, pallet_id (f p) = pallet_id p) ->
  filter (pallet_id_is (Some x)) (map (fun q => if g q then f q else q) ps)
  = map (fun q => if g q then f q else q) (filter (pallet_id_is (Some x)) ps).
Proof.
  intros Hf. induction ps as [|p ps IH]; cbn [map filter]; [reflexivity|].
  assert (E : pallet_id_is (Some x) (if g p then f p else p)
              = pallet_id_is (Some x) p).
  { unfold pallet_id_is. destruct (g p); [rewrite Hf|]; reflexivity. }
  rewrite E. destruct (pallet_id_is (Some x) p); cbn [map]; rewrite IH; reflexivity.
Qed.

Lemma replay_app s trail r :
  replay s (trail ++ [r]) =
  match replay s trail with
  | Some s' => if status_is (previous_status r) s' then Some (new_status r)
               else None
  | None => None
  end.
Proof.
  revert s. induction trail as [|x trail IH]; cbn; intros s.
  - destruct (status_is _ _); reflexivity.
  - destruct (status_is (previous_status x) s); [apply IH | reflexivity].
Qed.

Lemma find_pallet_In pid d p :
  find_pallet pid d = Some p -> In p (pallets (tabs d)) /\ pallet_id p = pid.
Proof.
  unfold find_pallet. intros H.
  destruct (filter _ _) as [|q l] eqn:E; [discriminate|].
  inversion H; subst q.
  assert (Hin : In p (filter (pallet_id_is (Some pid)) (pallets (tabs d))))
    by (rewrite E; left; reflexivity).
  apply filter_In in Hin. destruct Hin as [Hin Hid].
  split; [exact Hin | apply pallet_id_is_eq; exact Hid].
Qed.

Lemma existsb_map_id (f : pallet -> pallet) x ps :
  (forall p, pallet_id (f p) = pallet_id p) ->
  existsb (pallet_id_is (Some x)) (map f ps)
  = existsb (pallet_id_is (Some x)) ps.
Proof.
  intros Hf. induction ps as [|q l IH]; cbn [map existsb]; [reflexivity|].
  rewrite IH. unfold pallet_id_is. rewrite Hf. reflexivity.
Qed.

Lemma consistent_scan u pid b d e p s d' r :
  scan_commits u pid b d e p s d' r -> consistent d -> consistent d'.
Proof.
  intros [Hfind [Hs [Hv [_ [_ Ht]]]]] Hc.
  destruct (find_pallet_In _ _ Hfind) as [Hin Hid].
  destruct Hc as [H1 H2 H3 H4].
  set (f := fun q => if pallet_id_is (Some pid) q
                     then scanned (now e) b s q else q) in *.
  assert (Hfid : forall q, pallet_id (f q) = pallet_id q).
  { intros q. unfold f. destruct (pallet_id_is _ q);
      [apply scanned_pallet_id | reflexivity]. }
  constructor; rewrite Ht; cbn [pallets pallet_scans].
  - rewrite map_map. erewrite map_ext; [exact H1 | exact Hfid].
  - apply Forall_map. eapply Forall_impl; [|exact H2]. cbn. intros q Hq.
    unfold f. destruct (pallet_id_is _ q); [|exact Hq].
    rewrite scanned_status. exact Hv.
  - pose proof (fun x => existsb_map_id f x (pallets (tabs d)) Hfid) as Hex.
    apply Forall_app. split.
    + eapply Forall_impl; [|exact H3]. cbn. intros x Hx. rewrite Hex. exact Hx.
    + constructor; [|constructor]. cbn [scan_pallet_id audit_row]. rewrite Hex.
      apply existsb_exists. exists p. split; [exact Hin|].
      apply pallet_id_is_eq. exact Hid.
  - apply Forall_map. rewrite Forall_forall in *. intros q Hq.
    pose proof (H4 q Hq) as Hrq. pose proof (H4 p Hin) as Hrp.
    unfold audit_trail in *. rewrite Ht.
    cbn [pallet_scans]. rewrite filter_app, Hfid.
    cbn [filter audit_row scan_pallet_id_is scan_pallet_id].
    unfold f, pallet_id_is. rewrite (String.eqb_sym pid).
    destruct (String.eqb (pallet_id q) pid) eqn:E.
    + apply String.eqb_eq in E. rewrite replay_app, Hrq.
      rewrite E, <- Hid, Hrp in Hrq. inversion Hrq as [Hst].
      cbn [audit_row previous_status new_status status_is].
      rewrite String.eqb_refl, scanned_status. reflexivity.
    + rewrite app_nil_r. exact Hrq.
Qed.

Lemma deleted_keeps_others pid x ps :
  x <> pid ->
  filter (pallet_id_is (Some x))
         (filter (fun p => negb (pallet_id_is (Some pid) p)) ps)
  = filter (pallet_id_is (Some x)) ps.
Proof.
  intros Hne. induction ps as [|p ps IH]; cbn [filter]; [reflexivity|].
  destruct (pallet_id_is (Some pid) p) eqn:E1; cbn [negb filter].
  - destruct (pallet_id_is (Some x) p) eqn:E2; [|exact IH].
    apply pallet_id_is_eq in E1. apply pallet_id_is_eq in E2. congruence.
  - destruct (pallet_id_is (Some x) p); rewrite IH; reflexivity.
Qed.

Lemma gone_ids pid ps x :
  existsb (String.eqb x)
          (map pallet_id (filter (pallet_id_is (Some pid)) ps)) = true ->
  x = pid.
Proof.
  intros H. apply existsb_exists in H. destruct H as [y [Hy E]].
  apply String.eqb_eq in E. subst y. apply in_map_iff in Hy.
  destruct Hy as [p [Hp Hin]]. apply filter_In in Hin.
  destruct Hin as [_ Hin]. apply pallet_id_is_eq in Hin. congruence.
Qed.

Lemma deleted_trail_others pid x t :
  x <> pid ->
  filter (scan_pallet_id_is (Some x)) (pallet_scans (deleted pid t))
  = filter (scan_pallet_id_is (Some x)) (pallet_scans t).
Proof.
  intros Hne. unfold deleted. cbn [pallet_scans].
  induction (pallet_scans t) as [|s ss IH]; cbn [filter]; [reflexivity|].
  destruct (existsb _ _) eqn:E; cbn [negb filter].
  - apply gone_ids in E.
    destruct (scan_pallet_id_is (Some x) s) eqn:E2; [|exact IH].
    apply scan_pallet_id_is_eq in E2. congruence.
  - destruct (scan_pallet_id_is (Some x) s); rewrite IH; reflexivity.
Qed.

Lemma NoDup_map_filter A B (f : A -> B) (g : A -> bool) l :
  NoDup (map f l) -> NoDup (map f (filter g l)).
Proof.
  induction l as [|x l IH]; cbn; intros H; [constructor|].
  inversion H as [|? ? Hn Hd]; subst.
  destruct (g x); cbn; [|auto]. constructor; [|auto].
  intros Hin. apply Hn. apply in_map_iff in Hin.
  destruct Hin as [y [Hy Hin]]. apply filter_In in Hin.
  apply in_map_iff. exists y. tauto.
Qed.

Lemma consistent_deleted pid d d' :
  tabs d' = deleted pid (tabs d) -> consistent d -> consistent d'.
Proof.
  intros Ht [H1 H2 H3 H4].
  constructor; unfold audit_trail; rewrite Ht.
  - cbn [deleted pallets]. apply NoDup_map_filter. exact H1.
  - cbn [deleted pallets]. apply Forall_forall. intros p Hp.
    apply filter_In in Hp. rewrite Forall_forall in H2. apply H2, Hp.
  - apply Forall_forall. intros s Hs. unfold deleted in Hs. cbn [pallet_scans] in Hs.
    apply filter_In in Hs. destruct Hs as [Hs Hkeep].
    rewrite Forall_forall in H3. specialize (H3 s Hs).
    apply negb_true_iff in Hkeep.
    assert (Hne : scan_pallet_id s <> pid).
    { intros E. apply existsb_exists in H3. destruct H3 as [p [Hp Hid]].
      rewrite E in *. assert (existsb (String.eqb pid)
        (map pallet_id (filter (pallet_id_is (Some pid)) (pallets (tabs d)))) = true).
      { apply existsb_exists. exists pid. split; [|apply String.eqb_refl].
        apply in_map_iff. exists p. split; [apply pallet_id_is_eq; exact Hid|].
        apply filter_In. auto. }
      congruence. }
    destruct (existsb _ (pallets (deleted _ _))) eqn:E; [reflexivity|].
    apply existsb_filter_nil in E. cbn [deleted pallets] in E.
    rewrite deleted_keeps_others in E by exact Hne.
    apply existsb_filter_nil in E. congruence.
  - apply Forall_forall. intros p Hp. cbn [deleted pallets] in Hp.
    apply filter_In in Hp. destruct Hp as [Hp Hkeep].
    rewrite deleted_trail_others.
    + rewrite Forall_forall in H4. apply H4, Hp.
    + intros E. apply negb_true_iff in Hkeep.
      apply pallet_id_is_eq in E. congruence.
Qed.

Lemma isAdmin_cases u next d e :
  isAdmin u next d e = (d, Some (mkResponse 403 (Error "Admin access required")))
  \/ isAdmin u next d e = next d e.
Proof. unfold isAdmin. destruct (negb _); auto. Qed.

Theorem serve_consistent u r d e :
  consistent d -> consistent (fst (serve u r d e)).
Proof.
  intros Hc. destruct r as [b|pid|pid b|pid|pid b|pid|b]; cbn [serve].
  - destruct (isAdmin_cases u (run (createPallet b)) d e) as [E|E]; rewrite E;
      [exact Hc|].
    destruct (createPallet_cases b d e) as [_ [[_ Ht]|[row Hrow]]].
    + exact (consistent_tabs _ Ht Hc).
    + exact (consistent_create Hrow Hc).
  - rewrite getPallet_reads. exact Hc.
  - unfold scanRoute. destruct (connects e); [|exact Hc].
    destruct (recordScan_cases u pid b d e) as [_ [[_ Ht]|[p [s Hs]]]].
    + exact (consistent_tabs _ Ht Hc).
    + exact (consistent_scan Hs Hc).
  - rewrite getHistory_reads. exact Hc.
  - destruct (isAdmin_cases u (run (updatePallet pid b)) d e) as [E|E]; rewrite E;
      [exact Hc|].
    exact (consistent_keeps (updatePallet_keeps pid b d e) Hc).
  - destruct (isAdmin_cases u (run (deletePallet pid)) d e) as [E|E]; rewrite E;
      [exact Hc|].
    destruct (deletePallet_cases pid d e) as [_ [[_ Ht]|[_ [_ Ht]]]].
    + exact (consistent_tabs _ Ht Hc).
    + exact (consistent_deleted _ Ht Hc).
  - destruct (isAdmin_cases u (run (generateQR (qr_image e) b)) d e) as [E|E];
      rewrite E; [exact Hc|].
    exact (consistent_keeps (generateQR_keeps (qr_image e) b d e) Hc).
Qed.

Lemma reachable_consistent d : reachable d -> consistent d.
Proof.
  induction 1 as [flo|d c _ IH]; [apply consistent_empty|].
  apply serve_consistent. exact IH.
Qed.

(** ** ORDER BY scanned_at DESC *)

Lemma insert_desc_perm x l : Permutation (insert_desc x l) (x :: l).
Proof.
  induction l as [|y l IH]; cbn; [reflexivity|].
  destruct (scanned_at y <=? scanned_at x); [reflexivity|].
  rewrite IH. apply perm_swap.
Qed.

Lemma order_by_perm l : Permutation (order_by_scanned_at_desc l) l.
Proof.
  induction l as [|x l IH]; cbn; [reflexivity|].
  rewrite insert_desc_perm. constructor. exact IH.
Qed.

Lemma insert_desc_sorted x l :
  StronglySorted newer_first l -> StronglySorted newer_first (insert_desc x l).
Proof.
  induction 1 as [|y l Hs IH Hy]; cbn.
  - constructor; constructor.
  - destruct (scanned_at y <=? scanned_at x) eqn:E.
    + apply Z.leb_le in E. constructor.
      * constructor; assumption.
      * constructor; [exact E|]. eapply Forall_impl; [|exact Hy].
        unfold newer_first. intros; lia.
    + apply Z.leb_gt in E. constructor; [exact IH|].
      eapply Permutation_Forall; [symmetry; apply insert_desc_perm|].
      constructor; [unfold newer_first; lia | exact Hy].
Qed.

Lemma order_by_sorted l : StronglySorted newer_first (order_by_scanned_at_desc l).
Proof.
  induction l as [|x l IH]; cbn; [constructor|].
  apply insert_desc_sorted. exact IH.
Qed.

Lemma insert_desc_last x l :
  Forall (fun y => scanned_at x < scanned_at y) l -> insert_desc x l = (l ++ [x])%list.
Proof.
  induction 1 as [|y l Hy _ IH]; cbn; [reflexivity|].
  destruct (scanned_at y <=? scanned_at x) eqn:E.
  - apply Z.leb_le in E. lia.
  - rewrite IH. reflexivity.
Qed.

(** On rows whose timestamps grow strictly in table order, the query gives
    the table order reversed. *)
Lemma order_by_rev l :
  StronglySorted older_first l -> order_by_scanned_at_desc l = rev l.
Proof.
  induction 1 as [|x l _ IH Hx]; cbn; [reflexivity|].
  rewrite IH. apply insert_desc_last.
  apply Forall_rev. exact Hx.
Qed.

(** ** Reading a chain off a replay *)

Lemma replay_links s0 s1 trail :
  replay s0 trail = Some s1 ->
  (forall j r r', nth_error trail j = Some r -> nth_error trail (S j) = Some r' ->
                  previous_status r' = Some (new_status r)) /\
  (forall r, hd_error trail = Some r -> previous_status r = Some s0).
Proof.
  revert s0. induction trail as [|x trail IH]; cbn [replay]; intros s0 H.
  - split; intros; discriminate.
  - destruct (previous_status x) as [v|] eqn:Ev; cbn [status_is] in H;
      [|discriminate].
    destruct (String.eqb v s0) eqn:E; [|discriminate].
    apply String.eqb_eq in E. subst v.
    destruct (IH _ H) as [IH1 IH2]. split.
    + intros [|j] r r' Hr Hr'; cbn in Hr, Hr'.
      * inversion Hr; subst r. apply IH2. destruct trail; [discriminate|].
        cbn in *. exact Hr'.
      * eapply IH1; eassumption.
    + intros r Hr. inversion Hr; subst r. exact Ev.
Qed.

Lemma replay_last s0 s1 trail r :
  replay s0 (trail ++ [r]) = Some s1 -> s1 = new_status r.
Proof.
  rewrite replay_app. destruct (replay s0 trail); [|discriminate].
  destruct (status_is _ _); [|discriminate]. intros H; inversion H; reflexivity.
Qed.

(** The same chain read off the reversed list, newest row first. *)
Lemma replay_rev_links s0 s1 trail :
  replay s0 trail = Some s1 ->
  (forall i r r', nth_error (rev trail) i = Some r ->
                  nth_error (rev trail) (S i) = Some r' ->
                  previous_status r = Some (new_status r')) /\
  (forall r, nth_error (rev trail) (length (rev trail) - 1) = Some r ->
             previous_status r = Some s0) /\
  s1 = match rev trail with [] => s0 | r :: _ => new_status r end.
Proof.
  intros H. destruct (replay_links _ _ H) as [L1 L2]. repeat split.
  - intros i r r'. rewrite !nth_error_rev.
    destruct (Nat.ltb i (length trail)) eqn:E1; [|discriminate].
    destruct (Nat.ltb (S i) (length trail)) eqn:E2; [|discriminate].
    apply Nat.ltb_lt in E1, E2. intros Hr Hr'.
    apply (L1 (length trail - S (S i))%nat); [exact Hr'|].
    replace (S (length trail - S (S i)))%nat with (length trail - S i)%nat by lia.
    exact Hr.
  - intros r. rewrite nth_error_rev, length_rev.
    destruct trail as [|x trail]; [discriminate|]. cbn [length].
    destruct (Nat.ltb _ _); [|discriminate].
    replace (S (length trail) - S (S (length trail) - 1))%nat with O by lia.
    cbn. intros Hr. apply L2. exact Hr.
  - destruct (rev trail) as [|r h] eqn:E.
    + apply (f_equal (@rev scan)) in E. rewrite rev_involutive in E. subst trail.
      inversion H; reflexivity.
    + apply (f_equal (@rev scan)) in E. rewrite rev_involutive in E. subst trail.
      cbn [rev] in H. eapply replay_last. exact H.
Qed.

(** ** One request, seen from one pallet *)

Lemma trail_step_tabs pid d d' t :
  find_pallet pid d <> None -> tabs d' = tabs d -> trail_step pid d d' t 0.
Proof.
  intros Hf Ht. unfold trail_step, find_pallet, audit_trail in *. rewrite Ht.
  split; [exact Hf|]. exists []. rewrite app_nil_r. repeat split. constructor.
Qed.

Lemma trail_step_keeps pid d d' t :
  find_pallet pid d <> None -> keeps_keys d d' -> trail_step pid d d' t 0.
Proof.
  intros Hf [_ [Hk Hs]]. unfold trail_step, find_pallet, audit_trail in *.
  rewrite Hs. split.
  - intros Hn. apply Hf.
    assert (E : map key (filter (pallet_id_is (Some pid)) (pallets (tabs d')))
                = map key (filter (pallet_id_is (Some pid)) (pallets (tabs d)))).
    { rewrite !filter_key, Hk. reflexivity. }
    destruct (filter _ (pallets (tabs d'))); [|discriminate].
    destruct (filter _ (pallets (tabs d))); [reflexivity | discriminate].
  - exists []. rewrite app_nil_r. repeat split. constructor.
Qed.

Lemma trail_step_create pid b d e row d' r :
  find_pallet pid d <> None -> create_commits b d e row d' r ->
  trail_step pid d d' (now e) 0.
Proof.
  intros Hf [_ [_ [_ Ht]]]. unfold trail_step, find_pallet, audit_trail in *.
  rewrite Ht. cbn [pallets pallet_scans]. split.
  - rewrite filter_app. destruct (filter _ (pallets (tabs d))); [contradiction|].
    discriminate.
  - exists []. rewrite app_nil_r. repeat split. constructor.
Qed.

Lemma trail_step_scan pid u pid' b d e p s d' r :
  find_pallet pid d <> None -> scan_commits u pid' b d e p s d' r ->
  trail_step pid d d' (now e) (if String.eqb pid' pid then 1 else 0).
Proof.
  intros Hf [_ [_ [_ [_ [_ Ht]]]]]. unfold trail_step, find_pallet, audit_trail in *.
  rewrite Ht. cbn [pallets pallet_scans]. split.
  - rewrite filter_map_if by (intros; apply scanned_pallet_id).
    destruct (filter _ (pallets (tabs d))); [contradiction|]. discriminate.
  - rewrite filter_app. cbn [filter audit_row scan_pallet_id_is scan_pallet_id].
    destruct (String.eqb pid' pid); eexists; repeat split; repeat constructor.
Qed.

Lemma trail_step_delete pid pid' d d' t :
  pid' <> pid -> find_pallet pid d <> None -> tabs d' = deleted pid' (tabs d) ->
  trail_step pid d d' t 0.
Proof.
  intros Hne Hf Ht. unfold trail_step, find_pallet, audit_trail in *.
  rewrite Ht. split.
  - cbn [deleted pallets]. rewrite deleted_keeps_others by congruence. exact Hf.
  - rewrite deleted_trail_others by congruence.
    exists []. rewrite app_nil_r. repeat split. constructor.
Qed.

Lemma serve_trail pid u r d e :
  find_pallet pid d <> None -> is_delete_of pid r = false ->
  trail_step pid d (fst (serve u r d e)) (now e)
             (adds pid r (snd (serve u r d e))).
Proof.
  intros Hf Hnd. destruct r as [b|x|x b|x|x b|x|b]; cbn [serve adds].
  - destruct (isAdmin_cases u (run (createPallet b)) d e) as [E|E]; rewrite E;
      [apply trail_step_tabs; auto|].
    destruct (createPallet_cases b d e) as [_ [[_ Ht]|[row Hrow]]].
    + apply trail_step_tabs; auto.
    + eapply trail_step_create; eauto.
  - rewrite getPallet_reads. apply trail_step_tabs; auto.
  - unfold scanRoute. destruct (connects e);
      [|cbn [fst snd scan_accepted]; rewrite andb_false_r;
        apply trail_step_tabs; auto].
    destruct (recordScan_cases u x b d e) as [_ [[Hr Ht]|[p [s Hs]]]].
    + rewrite Hr, andb_false_r. apply trail_step_tabs; auto.
    + pose proof (trail_step_scan pid Hf Hs) as H.
      destruct Hs as [_ [_ [_ [_ [Hr _]]]]]. rewrite Hr.
      cbn [scan_accepted]. rewrite andb_true_r. exact H.
  - rewrite getHistory_reads. apply trail_step_tabs; auto.
  - destruct (isAdmin_cases u (run (updatePallet x b)) d e) as [E|E]; rewrite E;
      [apply trail_step_tabs; auto|].
    apply trail_step_keeps; [exact Hf | apply updatePallet_keeps].
  - destruct (isAdmin_cases u (run (deletePallet x)) d e) as [E|E]; rewrite E;
      [apply trail_step_tabs; auto|].
    destruct (deletePallet_cases x d e) as [_ [[_ Ht]|[_ [_ Ht]]]].
    + apply trail_step_tabs; auto.
    + eapply trail_step_delete; [|exact Hf|exact Ht].
      cbn in Hnd. intros E'. subst x. rewrite String.eqb_refl in Hnd. discriminate.
  - destruct (isAdmin_cases u (run (generateQR (qr_image e) b)) d e) as [E|E];
      rewrite E; [apply trail_step_tabs; auto|].
    apply trail_step_keeps; [exact Hf | apply generateQR_keeps].
Qed.

(** ** A sequence of requests, seen from one pallet *)

Lemma accepted_scans_cons pid d c calls :
  accepted_scans pid d (c :: calls)
  = (adds pid (what c) (snd (serve_call d c))
     + accepted_scans pid (fst (serve_call d c)) calls)%nat.
Proof. reflexivity. Qed.

Lemma sorted_app_newer (l rows : list scan) t :
  StronglySorted older_first l ->
  Forall (fun s => scanned_at s < t) l ->
  Forall (fun s => scanned_at s = t) rows -> (length rows <= 1)%nat ->
  StronglySorted older_first (l ++ rows) /\
  Forall (fun s => scanned_at s <= t) (l ++ rows).
Proof.
  intros Hs Hl Hr Hn. split.
  - induction Hs as [|x l Hs IH Hx]; cbn.
    + destruct rows as [|r [|r' rows]]; cbn in Hn; try lia;
        repeat constructor.
    + inversion Hl; subst. constructor; [auto|].
      apply Forall_app. split; [exact Hx|].
      eapply Forall_impl; [|exact Hr]. unfold older_first. cbn. intros; lia.
  - apply Forall_app. split; eapply Forall_impl; try eassumption; cbn; intros; lia.
Qed.

Lemma serve_all_trail pid calls :
  forall d,
    find_pallet pid d <> None ->
    Forall (fun c => is_delete_of pid (what c) = false) calls ->
    ticking calls ->
    StronglySorted older_first (audit_trail pid d) ->
    Forall (fun s => Forall (fun c => scanned_at s < now (during c)) calls)
           (audit_trail pid d) ->
    find_pallet pid (serve_all d calls) <> None /\
    StronglySorted older_first (audit_trail pid (serve_all d calls)) /\
    length (audit_trail pid (serve_all d calls))
    = (length (audit_trail pid d) + accepted_scans pid d calls)%nat.
Proof.
  induction calls as [|c calls IH]; intros d Hf Hnd Htick Hs Hold.
  - cbn. repeat split; auto.
  - rewrite accepted_scans_cons. cbn [serve_all].
    inversion Hnd as [|? ? Hc Hrest]; subst. destruct Htick as [Hlater Htick].
    destruct (@serve_trail pid (sender c) (what c) d (during c) Hf Hc)
      as [Hf' [rows [Etrail [Hrows Hlen]]]].
    fold (serve_call d c) in *.
    assert (Hn : (length rows <= 1)%nat).
    { rewrite Hlen. unfold adds. destruct (what c); try lia.
      destruct (_ && _); lia. }
    assert (Hlt : Forall (fun s => scanned_at s < now (during c)) (audit_trail pid d)).
    { eapply Forall_impl; [|exact Hold]. cbn. intros s Hsx.
      inversion Hsx; assumption. }
    destruct (sorted_app_newer Hs Hlt Hrows Hn) as [Hs' Hle].
    destruct (IH (fst (serve_call d c)) Hf' Hrest Htick) as [R1 [R2 R3]].
    + rewrite Etrail. exact Hs'.
    + rewrite Etrail. apply Forall_forall. intros s Hin.
      rewrite Forall_forall in Hle. specialize (Hle s Hin).
      eapply Forall_impl; [|exact Hlater]. cbn. intros; lia.
    + repeat split; [exact R1 | exact R2 |].
      rewrite R3, Etrail, length_app, Hlen. lia.
Qed.

(** ** The claims *)

Lemma scanRoute_cases u pid b d e :
  scan_outcome u pid b d e (fst (scanRoute u pid b d e))
                           (snd (scanRoute u pid b d e)).
Proof.
  unfold scanRoute. destruct (connects e); [apply recordScan_cases|].
  split; [reflexivity | left; split; reflexivity].
Qed.

(** C1. A scan either commits both writes (every row of the pallet gets the
    new status, the location if the body gives one, and the new timestamp,
    and exactly one audit row is appended) and is accepted, or it is not
    accepted and leaves both tables as they were, whatever fails and
    wherever. *)
Theorem recordScan_atomic u pid b d e :
  (scan_accepted (snd (scanRoute u pid b d e)) = true /\
   exists p s,
     find_pallet pid d = Some p /\ newStatus b = JS.Str s /\
     pallets (tabs (fst (scanRoute u pid b d e))) =
       map (fun q => if pallet_id_is (Some pid) q
                     then scanned (now e) b s q else q)
           (pallets (tabs d)) /\
     pallet_scans (tabs (fst (scanRoute u pid b d e))) =
       (pallet_scans (tabs d)
          ++ [audit_row d (now e) u pid b (status p) s])%list)
  \/
  (scan_accepted (snd (scanRoute u pid b d e)) = false /\
   tabs (fst (scanRoute u pid b d e)) = tabs d).
Proof.
  destruct (scanRoute_cases u pid b d e) as [_ [[Hr Ht]|[p [s Hs]]]].
  - right. split; assumption.
  - left. destruct Hs as [Hf [Hn [_ [_ [Hr Ht]]]]]. rewrite Hr, Ht.
    split; [reflexivity|]. exists p, s. repeat split; assumption.
Qed.

(** The rollback at work: the administrator has no operator id in [users],
    so the audit INSERT violates its foreign key after the UPDATE went
    through; the scan answers 500 and the tables are as before (the sequence
    keeps the value it handed out). *)
Example scan_rolled_back :
  scanRoute admin "PLT001" (scan_to "At Warehouse" (JS.Str "A-12-3")) db1 (calm 2)
  = (mkDb (tabs db1) (mkSequences 1 1) ["FLO001"],
     Some (StorageFailure "Failed to scan pallet")).
Proof. vm_compute. reflexivity. Qed.

Lemma find_pallet_scanned pid t b s d p :
  find_pallet pid d = Some p ->
  hd_error (filter (pallet_id_is (Some pid))
              (map (fun q => if pallet_id_is (Some pid) q
                             then scanned t b s q else q)
                   (pallets (tabs d))))
  = Some (scanned t b s p).
Proof.
  unfold find_pallet. intros H.
  rewrite filter_map_if by (intros; apply scanned_pallet_id).
  destruct (filter _ _) as [|q l] eqn:E; [discriminate|].
  inversion H; subst q. cbn [map hd_error].
  assert (Hin : In p (filter (pallet_id_is (Some pid)) (pallets (tabs d))))
    by (rewrite E; left; reflexivity).
  apply filter_In in Hin. rewrite (proj2 Hin). reflexivity.
Qed.

(** C3. An accepted scan captured the status the pallet had, left the pallet
    with the requested status, appended an audit row with exactly these two
    statuses, and answers with the updated pallet and the pair. *)
Theorem recordScan_success u pid b d e d' p' previous new :
  scanRoute u pid b d e
  = (d', Some (mkResponse 200 (PalletScanned p' previous new))) ->
  exists p s row,
    find_pallet pid d = Some p /\ previous = status p /\
    newStatus b = JS.Str s /\ new = JS.Str s /\
    p' = Some (scanned (now e) b s p) /\
    find_pallet pid d' = Some (scanned (now e) b s p) /\
    status (scanned (now e) b s p) = s /\
    pallet_scans (tabs d') = (pallet_scans (tabs d) ++ [row])%list /\
    scan_pallet_id row = pid /\
    previous_status row = Some previous /\ new_status row = s.
Proof.
  intros H. pose proof (scanRoute_cases u pid b d e) as Hc. rewrite H in Hc.
  cbn [fst snd] in Hc. destruct Hc as [_ [[Hr _]|[p [s Hs]]]]; [discriminate|].
  destruct Hs as [Hf [Hn [_ [_ [Hr Ht]]]]]. inversion Hr; subst.
  exists p, s, (audit_row d (now e) u pid b (status p) s).
  repeat split; try assumption; try reflexivity.
  - unfold find_pallet. rewrite Ht. cbn [pallets].
    apply find_pallet_scanned. exact Hf.
  - apply scanned_status.
  - rewrite Ht. reflexivity.
Qed.

Lemma recordScan_success_witness :
  let b := scan_to "At Warehouse" (JS.Str "A-12-3") in
  let d' := fst (scanRoute flo001 "PLT001" b db1 (calm 2)) in
  let p' := find_pallet "PLT001" d' in
  scanRoute flo001 "PLT001" b db1 (calm 2)
  = (d', Some (mkResponse 200
                 (PalletScanned p' "At Production" (JS.Str "At Warehouse"))))
  /\
  exists p s row,
    find_pallet "PLT001" db1 = Some p /\ "At Production" = status p /\
    newStatus b = JS.Str s /\ JS.Str "At Warehouse" = JS.Str s /\
    p' = Some (scanned 2 b s p) /\
    find_pallet "PLT001" d' = Some (scanned 2 b s p) /\
    status (scanned 2 b s p) = s /\
    pallet_scans (tabs d') = (pallet_scans (tabs db1) ++ [row])%list /\
    scan_pallet_id row = "PLT001" /\
    previous_status row = Some "At Production" /\ new_status row = s.
Proof.
  intros b d' p'.
  assert (H : scanRoute flo001 "PLT001" b db1 (calm 2)
              = (d', Some (mkResponse 200
                   (PalletScanned p' "At Production" (JS.Str "At Warehouse")))))
    by (vm_compute; reflexivity).
  split; [exact H|].
  exact (@recordScan_success flo001 "PLT001" b db1 (calm 2) d' p'
           "At Production" (JS.Str "At Warehouse") H).
Defined.

Lemma includes_valid v :
  JS.includes validStatuses v = true <->
  exists s, v = JS.Str s /\ In s validStatuses.
Proof.
  split.
  - destruct v; cbn [JS.includes]; try discriminate. intros H. exists s.
    split; [reflexivity | apply is_valid_status_In; exact H].
  - intros [s [E H]]. subst v. apply is_valid_status_In. exact H.
Qed.

Lemma recordScan_calm u pid b d e p s :
  storage_faults e = [] ->
  find_pallet pid d = Some p -> newStatus b = JS.Str s ->
  is_valid_status s = true -> In (actor_id u) (users_flo_id d) ->
  snd (run (recordScan u pid b) d e)
  = Some (mkResponse 200
            (PalletScanned (Some (scanned (now e) b s p)) (status p)
                           (JS.Str s))).
Proof.
  intros Hq Hf Hs Hv Hflo.
  apply (run_wp (recordScan u pid b) d e
           (fun _ r => r = Some (mkResponse 200
              (PalletScanned (Some (scanned (now e) b s p)) (status p)
                             (JS.Str s))))).
  set (t := now e) in *.
  assert (Hinc : JS.includes validStatuses (newStatus b) = true)
    by (rewrite Hs; exact Hv).
  destruct (find_pallet_In _ _ Hf) as [Hin Hid].
  assert (Hflo' : existsb (String.eqb (actor_id u)) (users_flo_id d) = true).
  { apply existsb_exists. eexists. split; [exact Hflo | apply String.eqb_refl]. }
  assert (Hex : existsb (pallet_id_is (Some pid))
                  (map (fun q => if pallet_id_is (Some pid) q
                                 then scanned t b s q else q)
                       (pallets (tabs d))) = true).
  { rewrite existsb_map_id.
    - apply existsb_exists. exists p. split; [exact Hin|].
      apply pallet_id_is_eq. exact Hid.
    - intros q. destruct (pallet_id_is _ q);
        [apply scanned_pallet_id | reflexivity]. }
  unfold find_pallet in Hf.
  unfold recordScan, connect. rewrite Hinc, Hs, Hq. fold t. cbn [negb].
  repeat wp_step; try discriminate;
    try match goal with
        | H : update_rows _ (scan_updates _) _ _ = _ |- _ =>
            erewrite scan_update_rows in H by eassumption;
            inversion H; subst; clear H
        end;
    try congruence.
  - rewrite Heql in *. inversion Hf; subst. reflexivity.
  - match goal with
    | H : ?a && ?c = false |- _ =>
        assert (Ha : a = true) by exact Hex;
        rewrite Ha, Hflo' in H; discriminate H
    end.
Qed.

(** C4. A scan whose [newStatus] is not one of the seven strings answers
    "Invalid status" (given a connection) and leaves the database as it was,
    whatever else happens; the test is the membership of the string and
    nothing more, and a scan from any status to any of the seven is accepted
    when the pallet exists, the actor is a known operator and no statement
    fails. *)
Theorem status_validation u pid b d e :
  (JS.includes validStatuses (newStatus b) = false ->
   fst (scanRoute u pid b d e) = d /\
   (connects e = true -> snd (scanRoute u pid b d e) = Some InvalidStatus)) /\
  (JS.includes validStatuses (newStatus b) = true <->
   exists s, newStatus b = JS.Str s /\ In s validStatuses) /\
  (forall p s,
     find_pallet pid d = Some p -> newStatus b = JS.Str s ->
     In s validStatuses -> In (actor_id u) (users_flo_id d) ->
     connects e = true -> storage_faults e = [] ->
     snd (scanRoute u pid b d e)
     = Some (mkResponse 200
               (PalletScanned (Some (scanned (now e) b s p)) (status p)
                              (JS.Str s))) /\
     status (scanned (now e) b s p) = s).
Proof.
  split; [|split].
  - intros H. unfold scanRoute, run, recordScan, try_catch, connect.
    rewrite H. cbn [negb ret fst snd server].
    destruct (connects e); split; intros; try reflexivity; discriminate.
  - apply includes_valid.
  - intros p s Hf Hs Hin Hflo Hc Hq. split; [|apply scanned_status].
    unfold scanRoute. rewrite Hc.
    apply recordScan_calm; try assumption. apply is_valid_status_In; assumption.
Qed.

(** C5 as the spec has it fails: the status is validated before the pallet
    is looked up, so a scan of an unknown pallet with a status outside the
    seven answers "Invalid status", not "Pallet not found". *)
Lemma unknown_pallet_invalid_status :
  find_pallet "PLT404" db1 = None /\
  scanRoute flo001 "PLT404" (scan_to "Lost" JS.Undefined) db1 (calm 2)
  = (db1, Some InvalidStatus) /\
  InvalidStatus <> PalletNotFound.
Proof.
  split; [|split]; [vm_compute; reflexivity | vm_compute; reflexivity
                   | discriminate].
Qed.

(** C5, amended. A scan of a pallet that is not stored leaves the whole
    database as it was and is not accepted, whatever fails; when the
    connection is given and no statement fails it answers "Pallet not found"
    if its status is one of the seven, and "Invalid status" otherwise. *)
Theorem scan_unknown_pallet u pid b d e :
  find_pallet pid d = None ->
  fst (scanRoute u pid b d e) = d /\
  scan_accepted (snd (scanRoute u pid b d e)) = false /\
  (connects e = true -> storage_faults e = [] ->
   snd (scanRoute u pid b d e)
   = Some (if JS.includes validStatuses (newStatus b)
           then PalletNotFound else InvalidStatus)).
Proof.
  intros Hf. unfold scanRoute.
  destruct (connects e);
    [|repeat split; try reflexivity; intros; discriminate].
  apply (run_wp (recordScan u pid b) d e
    (fun d' r => d' = d /\ scan_accepted r = false /\
       (true = true -> storage_faults e = [] ->
        r = Some (if JS.includes validStatuses (newStatus b)
                  then PalletNotFound else InvalidStatus)))).
  unfold find_pallet in Hf.
  assert (Hnone : filter (pallet_id_is (Some pid)) (pallets (tabs d)) = [])
    by (destruct (filter _ _); [reflexivity | discriminate]).
  clear Hf. destruct d as [tb sq fl]. destruct e as [t c fs q].
  unfold recordScan, connect. cbn [now storage_faults tabs] in *.
  destruct (JS.includes validStatuses (newStatus b)); cbn [negb];
    repeat wp_step; try congruence;
    repeat split; try reflexivity; intros; discriminate.
Qed.

Lemma scan_unknown_pallet_witness :
  find_pallet "PLT404" db1 = None /\
  fst (scanRoute flo001 "PLT404" (scan_to "Delivered" JS.Undefined) db1 (calm 2))
  = db1 /\
  scan_accepted
    (snd (scanRoute flo001 "PLT404" (scan_to "Delivered" JS.Undefined) db1
            (calm 2))) = false /\
  (connects (calm 2) = true -> storage_faults (calm 2) = [] ->
   snd (scanRoute flo001 "PLT404" (scan_to "Delivered" JS.Undefined) db1 (calm 2))
   = Some (if JS.includes validStatuses
                (newStatus (scan_to "Delivered" JS.Undefined))
           then PalletNotFound else InvalidStatus)).
Proof.
  assert (H : find_pallet "PLT404" db1 = None) by (vm_compute; reflexivity).
  split; [exact H|].
  exact (@scan_unknown_pallet flo001 "PLT404"
           (scan_to "Delivered" JS.Undefined) db1 (calm 2) H).
Defined.

(** C10. A request that lacks one of the four required fields, or gives a
    falsy value for it, is answered with the validation error before any
    statement is sent.  In particular quantity 0 and the empty pallet id are
    refused, although the table would take both: its columns are only
    NOT NULL. *)
Theorem required_fields b d e :
  (JS.falsy (palletId b) || JS.falsy (itemCode b) || JS.falsy (itemName b)
   || JS.falsy (itemQuantity b) = true ->
   run (createPallet b) d e = (d, Some RequiredFields)) /\
  JS.falsy JS.Undefined = true /\ JS.falsy JS.Null = true /\
  JS.falsy (JS.Num "0") = true /\ JS.falsy (JS.Str "") = true /\
  (forall code name t flo_ids sq,
     snd (insert_pallet (Some "") (Some code) (Some name) (Some "0")
            None None None None None None t flo_ids sq (mkTables [] []))
     <> None).
Proof.
  split.
  - intros H. unfold run, createPallet, try_catch, connect. rewrite H.
    reflexivity.
  - do 4 (split; [reflexivity|]). intros. cbn. discriminate.
Qed.

Lemma required_fields_witness :
  JS.falsy (palletId (scan_to "x" JS.Null))
  || JS.falsy (itemCode (scan_to "x" JS.Null))
  || JS.falsy (itemName (scan_to "x" JS.Null))
  || JS.falsy (itemQuantity (scan_to "x" JS.Null)) = true /\
  run (createPallet (scan_to "x" JS.Null)) db1 (calm 2)
  = (db1, Some RequiredFields).
Proof.
  split; [reflexivity|].
  apply (proj1 (required_fields (scan_to "x" JS.Null) db1 (calm 2))).
  reflexivity.
Defined.

(** C7 as the spec has it fails: the required fields are checked before the
    id is looked up, so a request that repeats a stored id but lacks a
    required field gets the validation error, not "Pallet ID already
    exists". *)
Lemma duplicate_id_missing_fields :
  find_pallet "PLT001" db1 <> None /\
  run (createPallet (mkBody (JS.Str "PLT001") JS.Undefined JS.Undefined
                       JS.Undefined JS.Undefined JS.Undefined JS.Undefined
                       JS.Undefined JS.Undefined JS.Undefined JS.Undefined
                       JS.Undefined JS.Undefined JS.Undefined))
      db1 (calm 2)
  = (db1, Some RequiredFields) /\
  RequiredFields <> DuplicateId.
Proof.
  split; [|split]; [vm_compute; discriminate | vm_compute; reflexivity
                   | discriminate].
Qed.

(** C7, amended. Creating a pallet under an id that is stored leaves the
    whole database as it was, whatever fails: no pallet is added, and the
    stored pallet and its audit rows stay.  When the request has its four
    required fields and no statement fails, the answer is "Pallet ID already
    exists". *)
Theorem create_duplicate b d e pid :
  JS.prepareValue (palletId b) = Some pid ->
  find_pallet pid d <> None ->
  fst (run (createPallet b) d e) = d /\
  (JS.falsy (palletId b) || JS.falsy (itemCode b) || JS.falsy (itemName b)
   || JS.falsy (itemQuantity b) = false ->
   storage_faults e = [] ->
   snd (run (createPallet b) d e) = Some DuplicateId).
Proof.
  intros Hp Hf.
  apply (run_wp (createPallet b) d e
    (fun d' r => d' = d /\
       (JS.falsy (palletId b) || JS.falsy (itemCode b)
        || JS.falsy (itemName b) || JS.falsy (itemQuantity b) = false ->
        storage_faults e = [] -> r = Some DuplicateId))).
  unfold find_pallet in Hf.
  destruct d as [tb sq fl]. destruct e as [t c fs q].
  unfold createPallet, connect. cbn [now storage_faults tabs] in *.
  rewrite Hp.
  repeat wp_step; try congruence;
    try (split; [reflexivity | intros; congruence]).
  all: match goal with
       | H : (0 <? _) = false |- _ =>
           apply length_pos_false in H; rewrite H in Hf; contradiction
       end.
Qed.

Lemma create_duplicate_witness :
  JS.prepareValue (palletId PLT001) = Some "PLT001" /\
  find_pallet "PLT001" db1 <> None /\
  fst (run (createPallet PLT001) db1 (calm 2)) = db1 /\
  (JS.falsy (palletId PLT001) || JS.falsy (itemCode PLT001)
   || JS.falsy (itemName PLT001) || JS.falsy (itemQuantity PLT001) = false ->
   storage_faults (calm 2) = [] ->
   snd (run (createPallet PLT001) db1 (calm 2)) = Some DuplicateId).
Proof.
  assert (H1 : JS.prepareValue (palletId PLT001) = Some "PLT001")
    by reflexivity.
  assert (H2 : find_pallet "PLT001" db1 <> None)
    by (vm_compute; discriminate).
  split; [exact H1|]. split; [exact H2|].
  exact (@create_duplicate PLT001 db1 (calm 2) "PLT001" H1 H2).
Defined.

(** The CHECK on [status] alone is kept by every request, from any state. *)
Lemma serve_valid_statuses u r d e :
  Forall (fun p => is_valid_status (status p) = true) (pallets (tabs d)) ->
  Forall (fun p => is_valid_status (status p) = true)
         (pallets (tabs (fst (serve u r d e)))).
Proof.
  intros Hv.
  assert (Hsame : forall d', tabs d' = tabs d ->
            Forall (fun p => is_valid_status (status p) = true)
                   (pallets (tabs d')))
    by (intros d' Ht; rewrite Ht; exact Hv).
  assert (Hkeep : forall d', keeps_keys d d' ->
            Forall (fun p => is_valid_status (status p) = true)
                   (pallets (tabs d'))).
  { intros d' [_ [Hk _]].
    apply (Forall_map key (fun k => is_valid_status (snd k) = true)).
    rewrite Hk. apply Forall_map. exact Hv. }
  destruct r as [b|x|x b|x|x b|x|b]; cbn [serve].
  - destruct (isAdmin_cases u (run (createPallet b)) d e) as [E|E]; rewrite E;
      [exact Hv|].
    destruct (createPallet_cases b d e) as [_ [[_ Ht]|[row Hrow]]];
      [exact (Hsame _ Ht)|].
    destruct Hrow as [Hrow [_ [_ Ht]]]. rewrite Ht. cbn [pallets].
    apply Forall_app. split; [exact Hv|]. constructor; [|constructor].
    unfold created_row in Hrow.
    destruct (JS.prepareValue (palletId b)); [|discriminate].
    destruct (JS.prepareValue (itemCode b)); [|discriminate].
    destruct (JS.prepareValue (itemName b)); [|discriminate].
    destruct (JS.prepareValue (itemQuantity b)); [|discriminate].
    inversion Hrow. reflexivity.
  - rewrite getPallet_reads. exact Hv.
  - destruct (scanRoute_cases u x b d e) as [_ [[_ Ht]|[p [s Hs]]]];
      [exact (Hsame _ Ht)|].
    destruct Hs as [_ [_ [Hs [_ [_ Ht]]]]]. rewrite Ht. cbn [pallets].
    apply Forall_map. eapply Forall_impl; [|exact Hv]. cbn beta. intros q Hq.
    destruct (pallet_id_is (Some x) q); [|exact Hq].
    rewrite scanned_status. exact Hs.
  - rewrite getHistory_reads. exact Hv.
  - destruct (isAdmin_cases u (run (updatePallet x b)) d e) as [E|E]; rewrite E;
      [exact Hv|].
    apply Hkeep, updatePallet_keeps.
  - destruct (isAdmin_cases u (run (deletePallet x)) d e) as [E|E]; rewrite E;
      [exact Hv|].
    destruct (deletePallet_cases x d e) as [_ [[_ Ht]|[_ [_ Ht]]]];
      [exact (Hsame _ Ht)|].
    rewrite Ht. cbn [deleted pallets]. apply Forall_forall. intros p Hp.
    apply filter_In in Hp. rewrite Forall_forall in Hv. apply Hv, Hp.
  - destruct (isAdmin_cases u (run (generateQR (qr_image e) b)) d e) as [E|E];
      rewrite E; [exact Hv|].
    apply Hkeep, generateQR_keeps.
Qed.

(** C8. A pallet that is created starts at ['At Production'] and is stored
    under its id.  Every request keeps the status of every stored pallet
    among the seven, so in every state the routes can reach from the empty
    database every status is one of the seven. *)
Theorem created_at_production :
  (forall b d e p,
     snd (run (createPallet b) d e)
     = Some (mkResponse 201 (PalletCreated p)) ->
     exists row,
       p = Some row /\ status row = "At Production" /\
       JS.prepareValue (palletId b) = Some (pallet_id row) /\
       find_pallet (pallet_id row) (fst (run (createPallet b) d e)) = Some row)
  /\
  (forall u r d e,
     Forall (fun p => In (status p) validStatuses) (pallets (tabs d)) ->
     Forall (fun p => In (status p) validStatuses)
            (pallets (tabs (fst (serve u r d e)))))
  /\
  (forall d, reachable d ->
     Forall (fun p => In (status p) validStatuses) (pallets (tabs d))).
Proof.
  split; [|split].
  - intros b d e p H.
    destruct (createPallet_cases b d e) as [_ [[Hr _]|[row Hrow]]].
    + rewrite H in Hr. discriminate.
    + destruct Hrow as [Hrow [Hfresh [Hr Ht]]]. rewrite Hr in H.
      inversion H; subst p. exists row.
      unfold created_row in Hrow.
      destruct (JS.prepareValue (palletId b)) as [pid|]; [|discriminate].
      destruct (JS.prepareValue (itemCode b)); [|discriminate].
      destruct (JS.prepareValue (itemName b)); [|discriminate].
      destruct (JS.prepareValue (itemQuantity b)); [|discriminate].
      inversion Hrow as [E]. rewrite <- E in *. cbn [status pallet_id] in *.
      repeat split.
      unfold find_pallet. rewrite Ht. cbn [pallets].
      rewrite filter_app, Hfresh. cbn [filter pallet_id_is pallet_id app].
      rewrite String.eqb_refl. reflexivity.
  - intros u r d e H.
    eapply Forall_impl; [intros p; apply is_valid_status_In|].
    apply serve_valid_statuses.
    eapply Forall_impl; [|exact H]. intros p. apply is_valid_status_In.
  - intros d Hd. destruct (reachable_consistent Hd) as [_ H _ _].
    eapply Forall_impl; [|exact H]. intros p. apply is_valid_status_In.
Qed.

Lemma created_at_production_witness :
  snd (run (createPallet PLT001) db0 (calm 1))
  = Some (mkResponse 201 (PalletCreated (find_pallet "PLT001" db1))) /\
  (exists row,
     find_pallet "PLT001" db1 = Some row /\ status row = "At Production" /\
     JS.prepareValue (palletId PLT001) = Some (pallet_id row) /\
     find_pallet (pallet_id row) (fst (run (createPallet PLT001) db0 (calm 1)))
     = Some row) /\
  reachable db1 /\
  Forall (fun p => In (status p) validStatuses) (pallets (tabs db1)) /\
  Forall (fun p => In (status p) validStatuses) (pallets (tabs db2)).
Proof.
  assert (H : snd (run (createPallet PLT001) db0 (calm 1))
              = Some (mkResponse 201 (PalletCreated (find_pallet "PLT001" db1))))
    by (vm_compute; reflexivity).
  assert (R : reachable db1).
  { exact (reachable_serve (mkCall admin (POST_pallets PLT001) (calm 1))
             (reachable_empty ["FLO001"])). }
  pose proof (proj2 (proj2 created_at_production) db1 R) as V.
  split; [exact H|]. split; [|split; [exact R|split; [exact V|]]].
  - exact (proj1 created_at_production PLT001 db0 (calm 1) _ H).
  - exact (proj1 (proj2 created_at_production) flo001
             (POST_scan "PLT001" (scan_to "Picked from Production" JS.Undefined))
             db1 (calm 2) V).
Defined.

Lemma find_pallet_keys pid d d' p p' :
  map key (pallets (tabs d')) = map key (pallets (tabs d)) ->
  find_pallet pid d = Some p -> find_pallet pid d' = Some p' ->
  status p' = status p.
Proof.
  unfold find_pallet. intros Hk Hp Hp'.
  assert (E : map key (filter (pallet_id_is (Some pid)) (pallets (tabs d')))
              = map key (filter (pallet_id_is (Some pid)) (pallets (tabs d))))
    by (rewrite !filter_key, Hk; reflexivity).
  destruct (filter _ (pallets (tabs d'))) as [|q' l']; [discriminate|].
  destruct (filter _ (pallets (tabs d))) as [|q l]; [discriminate|].
  inversion Hp; inversion Hp'; subst. inversion E. reflexivity.
Qed.

Lemma find_pallet_tabs pid d d' :
  tabs d' = tabs d -> find_pallet pid d' = find_pallet pid d.
Proof. unfold find_pallet. intros H; rewrite H; reflexivity. Qed.

Lemma map_key_status ps ps' :
  map key ps' = map key ps ->
  map status ps' = map status ps /\ map pallet_id ps' = map pallet_id ps.
Proof.
  intros H. split.
  - change status with (fun p => snd (key p)).
    rewrite <- (map_map key snd ps'), <- (map_map key snd ps), H. reflexivity.
  - change pallet_id with (fun p => fst (key p)).
    rewrite <- (map_map key fst ps'), <- (map_map key fst ps), H. reflexivity.
Qed.

(** C9. The administrative update changes no status, row by row, renames no
    pallet and leaves the audit trail alone; and no request other than a
    scan changes the status of a pallet that is stored before and after it,
    or adds an audit row. *)
Theorem status_only_by_scan :
  (forall pid b d e,
     map status (pallets (tabs (fst (run (updatePallet pid b) d e))))
     = map status (pallets (tabs d)) /\
     map pallet_id (pallets (tabs (fst (run (updatePallet pid b) d e))))
     = map pallet_id (pallets (tabs d)) /\
     pallet_scans (tabs (fst (run (updatePallet pid b) d e)))
     = pallet_scans (tabs d)) /\
  (forall u r d e,
     is_scan r = false ->
     (forall pid p p',
        find_pallet pid d = Some p ->
        find_pallet pid (fst (serve u r d e)) = Some p' ->
        status p' = status p) /\
     (forall s, In s (pallet_scans (tabs (fst (serve u r d e)))) ->
                In s (pallet_scans (tabs d)))).
Proof.
  split.
  - intros pid b d e. destruct (updatePallet_keeps pid b d e) as [_ [Hk Hs]].
    destruct (map_key_status _ _ Hk). auto.
  - intros u r d e Hr.
    assert (Hsame : forall d', tabs d' = tabs d ->
      (forall pid p p', find_pallet pid d = Some p ->
         find_pallet pid d' = Some p' -> status p' = status p) /\
      (forall s, In s (pallet_scans (tabs d')) -> In s (pallet_scans (tabs d)))).
    { intros d' Ht. split.
      - intros pid p p' Hp Hp'. rewrite (find_pallet_tabs pid _ _ Ht) in Hp'.
        congruence.
      - rewrite Ht. auto. }
    assert (Hkeep : forall d', keeps_keys d d' ->
      (forall pid p p', find_pallet pid d = Some p ->
         find_pallet pid d' = Some p' -> status p' = status p) /\
      (forall s, In s (pallet_scans (tabs d')) -> In s (pallet_scans (tabs d)))).
    { intros d' [_ [Hk Hs]]. split.
      - intros pid p p'. apply find_pallet_keys. exact Hk.
      - rewrite Hs. auto. }
    destruct r as [b|x|x b|x|x b|x|b]; cbn [serve]; try discriminate.
    + destruct (isAdmin_cases u (run (createPallet b)) d e) as [E|E]; rewrite E;
        [apply Hsame; reflexivity|].
      destruct (createPallet_cases b d e) as [_ [[_ Ht]|[row Hrow]]];
        [apply Hsame; exact Ht|].
      destruct Hrow as [_ [_ [_ Ht]]]. split.
      * intros pid p p'. unfold find_pallet. rewrite Ht. cbn [pallets].
        rewrite filter_app. destruct (filter _ (pallets (tabs d))); [discriminate|].
        cbn. congruence.
      * rewrite Ht. auto.
    + apply Hsame. rewrite getPallet_reads. reflexivity.
    + apply Hsame. rewrite getHistory_reads. reflexivity.
    + destruct (isAdmin_cases u (run (updatePallet x b)) d e) as [E|E]; rewrite E;
        [apply Hsame; reflexivity|].
      apply Hkeep, updatePallet_keeps.
    + destruct (isAdmin_cases u (run (deletePallet x)) d e) as [E|E]; rewrite E;
        [apply Hsame; reflexivity|].
      destruct (deletePallet_cases x d e) as [_ [[_ Ht]|[_ [_ Ht]]]];
        [apply Hsame; exact Ht|].
      split.
      * intros pid p p'. unfold find_pallet. rewrite Ht. cbn [deleted pallets].
        destruct (String.eqb pid x) eqn:Ex.
        -- apply String.eqb_eq in Ex. subst x. intros _ Hp'.
           destruct (filter _ _) as [|q l] eqn:Hq; [discriminate|].
           assert (Hin : In q (q :: l)) by (left; reflexivity).
           rewrite <- Hq in Hin. apply filter_In in Hin. destruct Hin as [Hin Hm].
           apply filter_In in Hin. destruct Hin as [_ Hn]. rewrite Hm in Hn.
           discriminate.
        -- rewrite deleted_keeps_others; [congruence|].
           intros Heq. subst. rewrite String.eqb_refl in Ex. discriminate.
      * rewrite Ht. cbn [deleted pallet_scans]. intros s Hs.
        apply filter_In in Hs. tauto.
    + destruct (isAdmin_cases u (run (generateQR (qr_image e) b)) d e) as [E|E];
        rewrite E; [apply Hsame; reflexivity|].
      apply Hkeep, generateQR_keeps.
Qed.

Lemma getHistory_calm pid d e :
  storage_faults e = [] ->
  run (getHistory pid) d e
  = (d, Some (mkResponse 200
                (PalletHistory pid
                   (order_by_scanned_at_desc (audit_trail pid d))))).
Proof.
  intros Hq. destruct d as [tb sq fl]. destruct e as [t c fs q].
  cbn [storage_faults] in Hq. subst fs. reflexivity.
Qed.

Lemma deleted_trail pid t :
  filter (pallet_id_is (Some pid)) (pallets t) <> [] ->
  filter (scan_pallet_id_is (Some pid)) (pallet_scans (deleted pid t)) = [].
Proof.
  intros Hne. unfold deleted. cbn [pallet_scans].
  apply filter_nil_In. intros s Hs. apply filter_In in Hs.
  destruct Hs as [_ Hkeep]. apply negb_true_iff in Hkeep.
  destruct (scan_pallet_id_is (Some pid) s) eqn:E; [|reflexivity].
  apply scan_pallet_id_is_eq in E. rewrite E in Hkeep.
  destruct (filter (pallet_id_is (Some pid)) (pallets t)) as [|p l] eqn:Hf;
    [contradiction|].
  assert (Hp : pallet_id p = pid).
  { apply pallet_id_is_eq.
    assert (Hin : In p (p :: l)) by (left; reflexivity).
    rewrite <- Hf in Hin. apply filter_In in Hin. tauto. }
  cbn [map existsb] in Hkeep. rewrite Hp, String.eqb_refl in Hkeep.
  discriminate.
Qed.

Lemma deleted_pallet pid t :
  filter (pallet_id_is (Some pid)) (pallets (deleted pid t)) = [].
Proof.
  unfold deleted. cbn [pallets]. apply filter_nil_In. intros p Hp.
  apply filter_In in Hp. destruct Hp as [_ Hn].
  apply negb_true_iff in Hn. exact Hn.
Qed.

(** C6 as the spec has it fails: the history route only reads
    [pallet_scans], so for an id that no pallet has, never stored or
    deleted, it answers 200 with an empty history, not "Pallet not found". *)
Lemma history_of_unknown_pallet :
  find_pallet "PLT404" db3 = None /\
  run (getHistory "PLT404") db3 (calm 5)
  = (db3, Some (mkResponse 200 (PalletHistory "PLT404" []))) /\
  find_pallet "PLT001" db3 <> None /\
  find_pallet "PLT001" db4 = None /\
  run (getHistory "PLT001") db4 (calm 5)
  = (db4, Some (mkResponse 200 (PalletHistory "PLT001" []))) /\
  mkResponse 200 (PalletHistory "PLT001" []) <> PalletNotFound.
Proof.
  split; [|split; [|split; [|split; [|split]]]];
    try (vm_compute; reflexivity); vm_compute; discriminate.
Qed.

(** C6, amended. When its statement does not fail, the history route
    answers 200 with the audit rows of the id, newest [scanned_at] first.
    The history is empty when the pallet was never scanned, and also when no
    pallet has the id: in a consistent database no audit row is left without
    its pallet, and after a delete the cascade has removed them. *)
Theorem history_newest_first pid d e :
  storage_faults e = [] ->
  run (getHistory pid) d e
  = (d, Some (mkResponse 200
                (PalletHistory pid
                   (order_by_scanned_at_desc (audit_trail pid d))))) /\
  Permutation (order_by_scanned_at_desc (audit_trail pid d))
              (audit_trail pid d) /\
  StronglySorted newer_first (order_by_scanned_at_desc (audit_trail pid d)) /\
  (audit_trail pid d = [] ->
   order_by_scanned_at_desc (audit_trail pid d) = []) /\
  (consistent d -> find_pallet pid d = None ->
   order_by_scanned_at_desc (audit_trail pid d) = []) /\
  (forall d0 e0,
     d = fst (run (deletePallet pid) d0 e0) ->
     pallet_deleted (snd (run (deletePallet pid) d0 e0)) = true ->
     find_pallet pid d = None /\
     order_by_scanned_at_desc (audit_trail pid d) = []).
Proof.
  intros Hq. split; [apply getHistory_calm; exact Hq|].
  split; [apply order_by_perm|]. split; [apply order_by_sorted|].
  split; [intros H; rewrite H; reflexivity|]. split.
  - intros Hc Hf. rewrite (@no_trail_without_pallet d pid Hc); [reflexivity|].
    unfold find_pallet in Hf. destruct (filter _ _); [reflexivity|discriminate].
  - intros d0 e0 Hd Hr.
    destruct (deletePallet_cases pid d0 e0) as [_ [[Hr' _]|[_ [Hf Ht]]]];
      [congruence|].
    rewrite <- Hd in Ht. unfold find_pallet, audit_trail. rewrite Ht. split.
    + rewrite deleted_pallet. reflexivity.
    + rewrite deleted_trail; [reflexivity|].
      unfold find_pallet in Hf. intros E. rewrite E in Hf. contradiction.
Qed.

Lemma history_newest_first_witness :
  let h := order_by_scanned_at_desc (audit_trail "PLT001" db3) in
  storage_faults (calm 5) = [] /\
  run (getHistory "PLT001") db3 (calm 5)
  = (db3, Some (mkResponse 200 (PalletHistory "PLT001" h))) /\
  Permutation h (audit_trail "PLT001" db3) /\
  StronglySorted newer_first h /\
  (audit_trail "PLT001" db3 = [] -> h = []) /\
  (consistent db3 -> find_pallet "PLT001" db3 = None -> h = []) /\
  (forall d0 e0,
     db3 = fst (run (deletePallet "PLT001") d0 e0) ->
     pallet_deleted (snd (run (deletePallet "PLT001") d0 e0)) = true ->
     find_pallet "PLT001" db3 = None /\ h = []).
Proof.
  intros h. split; [reflexivity|].
  exact (@history_newest_first "PLT001" db3 (calm 5) eq_refl).
Defined.

Example history_of_sample :
  map new_status (order_by_scanned_at_desc (audit_trail "PLT001" db3))
  = ["At Warehouse"; "Picked from Production"].
Proof. vm_compute. reflexivity. Qed.

Lemma serve_all_consistent calls :
  forall d, consistent d -> consistent (serve_all d calls).
Proof.
  induction calls as [|c calls IH]; intros d Hc; [exact Hc|].
  cbn [serve_all]. apply IH. apply serve_consistent. exact Hc.
Qed.

(** Whatever the clock does, a pallet that is not deleted stays, and its
    trail grows by one row for every accepted scan of it. *)
Lemma serve_all_trail_count pid calls :
  forall d,
    find_pallet pid d <> None ->
    Forall (fun c => is_delete_of pid (what c) = false) calls ->
    find_pallet pid (serve_all d calls) <> None /\
    length (audit_trail pid (serve_all d calls))
    = (length (audit_trail pid d) + accepted_scans pid d calls)%nat.
Proof.
  induction calls as [|c calls IH]; intros d Hf Hnd.
  - cbn. split; [exact Hf | lia].
  - rewrite accepted_scans_cons. cbn [serve_all].
    inversion Hnd as [|? ? Hc Hrest]; subst.
    destruct (@serve_trail pid (sender c) (what c) d (during c) Hf Hc)
      as [Hf' [rows [Etrail [_ Hlen]]]].
    fold (serve_call d c) in *.
    destruct (IH (fst (serve_call d c)) Hf' Hrest) as [R1 R2].
    split; [exact R1|]. rewrite R2, Etrail, length_app, Hlen. lia.
Qed.

(** C2 as the spec has it fails, in two ways.  The history lists the newest
    row first, so it is the previous status of a row that equals the new
    status of the row after it in the list, not the other way round.  And
    newest is by [scanned_at]: when the clock goes back between two scans,
    the history starts with the row committed first, and the pallet's
    status is not the new status of the first row in the list. *)
Lemma history_links_backwards :
  let h := order_by_scanned_at_desc (audit_trail "PLT001" db3) in
  let d := serve_all db1 two_scans_clock_back in
  let h' := order_by_scanned_at_desc (audit_trail "PLT001" d) in
  (serve_all db1 two_scans = db3 /\
   accepted_scans "PLT001" db1 two_scans = 2%nat /\
   run (getHistory "PLT001") db3 (calm 4)
   = (db3, Some (mkResponse 200 (PalletHistory "PLT001" h))) /\
   length h = 2%nat /\
   ~ (forall i r r',
        nth_error h i = Some r -> nth_error h (S i) = Some r' ->
        Some (new_status r) = previous_status r')) /\
  (accepted_scans "PLT001" db1 two_scans_clock_back = 2%nat /\
   run (getHistory "PLT001") d (calm 6)
   = (d, Some (mkResponse 200 (PalletHistory "PLT001" h'))) /\
   map (fun r => (scanned_at r, previous_status r, new_status r)) h'
   = [ (5, Some "At Production", "Picked from Production");
       (3, Some "Picked from Production", "At Warehouse") ] /\
   option_map status (find_pallet "PLT001" d) = Some "At Warehouse" /\
   option_map new_status (hd_error h') = Some "Picked from Production").
Proof.
  intros h d h'. split.
  - split; [vm_compute; reflexivity|].
    split; [vm_compute; reflexivity|]. split; [vm_compute; reflexivity|].
    split; [vm_compute; reflexivity|].
    intros H.
    destruct (nth_error h 0) as [r|] eqn:E0; [|vm_compute in E0; discriminate].
    destruct (nth_error h 1) as [r'|] eqn:E1; [|vm_compute in E1; discriminate].
    specialize (H 0%nat r r' E0 E1).
    vm_compute in E0, E1. inversion E0; inversion E1; subst r r'.
    vm_compute in H. discriminate.
  - split; [vm_compute; reflexivity|]. split; [vm_compute; reflexivity|].
    split; [vm_compute; reflexivity|]. split; vm_compute; reflexivity.
Qed.

(** C2, amended. After a pallet is created, let any requests be served that
    do not delete it.  Then its history has as many rows as scans of it were
    accepted, and they are the rows of its audit trail.  In the order in
    which the scans were committed, each row starts from the status the row
    before it left, the first from ['At Production'], and the pallet's
    status is the new status of the row committed last.  When the clock
    readings of the requests grow strictly, the history is that order
    reversed: each row starts from the status the next (older) row in the
    list left; the oldest row starts from ['At Production']; and the
    pallet's status is the new status of the first row in the list. *)
Theorem audit_chain b d0 e0 d1 row calls e :
  consistent d0 ->
  run (createPallet b) d0 e0
  = (d1, Some (mkResponse 201 (PalletCreated (Some row)))) ->
  Forall (fun c => is_delete_of (pallet_id row) (what c) = false) calls ->
  storage_faults e = [] ->
  exists h p,
    run (getHistory (pallet_id row)) (serve_all d1 calls) e
    = (serve_all d1 calls,
       Some (mkResponse 200 (PalletHistory (pallet_id row) h))) /\
    length h = accepted_scans (pallet_id row) d1 calls /\
    find_pallet (pallet_id row) (serve_all d1 calls) = Some p /\
    Permutation h (audit_trail (pallet_id row) (serve_all d1 calls)) /\
    (forall j r r',
       nth_error (audit_trail (pallet_id row) (serve_all d1 calls)) j = Some r ->
       nth_error (audit_trail (pallet_id row) (serve_all d1 calls)) (S j)
       = Some r' ->
       previous_status r' = Some (new_status r)) /\
    (forall r,
       hd_error (audit_trail (pallet_id row) (serve_all d1 calls)) = Some r ->
       previous_status r = Some "At Production") /\
    status p = match rev (audit_trail (pallet_id row) (serve_all d1 calls)) with
               | [] => "At Production"
               | r :: _ => new_status r
               end /\
    (ticking calls ->
     h = rev (audit_trail (pallet_id row) (serve_all d1 calls)) /\
     (forall i r r',
        nth_error h i = Some r -> nth_error h (S i) = Some r' ->
        previous_status r = Some (new_status r')) /\
     (forall r, nth_error h (length h - 1) = Some r ->
                previous_status r = Some "At Production") /\
     status p = match h with
                | [] => "At Production"
                | r :: _ => new_status r
                end).
Proof.
  intros Hc Hcreate Hnd Hq.
  set (P := pallet_id row) in *.
  pose proof (createPallet_cases b d0 e0) as Hcases. rewrite Hcreate in Hcases.
  cbn [fst snd] in Hcases.
  destruct Hcases as [_ [[Hr _]|[row' Hrow]]]; [discriminate|].
  assert (row' = row) by (destruct Hrow as [_ [_ [Hr _]]]; congruence).
  subst row'.
  pose proof (consistent_create Hrow Hc) as Hc1.
  destruct Hrow as [_ [Hfresh [_ Ht]]]. fold P in Hfresh.
  assert (Hf1 : find_pallet P d1 <> None).
  { unfold find_pallet. rewrite Ht. cbn [pallets].
    rewrite filter_app, Hfresh. cbn [filter app]. unfold P, pallet_id_is.
    rewrite String.eqb_refl. discriminate. }
  assert (Htrail1 : audit_trail P d1 = []).
  { pose proof (@no_trail_without_pallet d0 P Hc Hfresh) as H0.
    unfold audit_trail in *. rewrite Ht. exact H0. }
  destruct (@serve_all_trail_count P calls d1 Hf1 Hnd) as [Hf2 Hlen].
  rewrite Htrail1 in Hlen. cbn [length Nat.add] in Hlen.
  pose proof (serve_all_consistent calls Hc1) as Hc2.
  set (d2 := serve_all d1 calls) in *.
  destruct (find_pallet P d2) as [p|] eqn:Hp; [|contradiction].
  destruct (find_pallet_In _ _ Hp) as [Hin Hid].
  assert (Hreplay : replay status_default (audit_trail P d2) = Some (status p)).
  { destruct Hc2 as [_ _ _ H4]. rewrite Forall_forall in H4.
    rewrite <- Hid. apply H4. exact Hin. }
  destruct (replay_links _ _ Hreplay) as [K1 K2].
  destruct (@replay_rev_links _ _ _ Hreplay) as [L1 [L2 L3]].
  exists (order_by_scanned_at_desc (audit_trail P d2)), p.
  split; [apply getHistory_calm; exact Hq|].
  split; [rewrite (Permutation_length (order_by_perm _)); exact Hlen|].
  split; [reflexivity|]. split; [apply order_by_perm|].
  split; [exact K1|]. split; [exact K2|]. split; [exact L3|].
  intros Htick.
  destruct (@serve_all_trail P calls d1 Hf1 Hnd Htick) as [_ [Hsorted _]].
  { rewrite Htrail1. constructor. }
  { rewrite Htrail1. constructor. }
  fold d2 in Hsorted.
  rewrite (order_by_rev Hsorted).
  split; [reflexivity|]. split; [exact L1|]. split; [exact L2 | exact L3].
Qed.

Lemma audit_chain_witness :
  let h := order_by_scanned_at_desc (audit_trail "PLT001" db3) in
  consistent db0 /\
  run (createPallet PLT001) db0 (calm 1)
  = (db1, Some (mkResponse 201 (PalletCreated (find_pallet "PLT001" db1)))) /\
  Forall (fun c => is_delete_of "PLT001" (what c) = false) two_scans /\
  ticking two_scans /\
  storage_faults (calm 4) = [] /\
  serve_all db1 two_scans = db3 /\
  map (fun r => (previous_status r, new_status r)) h
  = [ (Some "Picked from Production", "At Warehouse");
      (Some "At Production", "Picked from Production") ] /\
  exists h' p,
    run (getHistory "PLT001") (serve_all db1 two_scans) (calm 4)
    = (serve_all db1 two_scans,
       Some (mkResponse 200 (PalletHistory "PLT001" h'))) /\
    length h' = accepted_scans "PLT001" db1 two_scans /\
    find_pallet "PLT001" (serve_all db1 two_scans) = Some p /\
    Permutation h' (audit_trail "PLT001" (serve_all db1 two_scans)) /\
    (forall j r r',
       nth_error (audit_trail "PLT001" (serve_all db1 two_scans)) j = Some r ->
       nth_error (audit_trail "PLT001" (serve_all db1 two_scans)) (S j)
       = Some r' ->
       previous_status r' = Some (new_status r)) /\
    (forall r,
       hd_error (audit_trail "PLT001" (serve_all db1 two_scans)) = Some r ->
       previous_status r = Some "At Production") /\
    status p = match rev (audit_trail "PLT001" (serve_all db1 two_scans)) with
               | [] => "At Production"
               | r :: _ => new_status r
               end /\
    (ticking two_scans ->
     h' = rev (audit_trail "PLT001" (serve_all db1 two_scans)) /\
     (forall i r r',
        nth_error h' i = Some r -> nth_error h' (S i) = Some r' ->
        previous_status r = Some (new_status r')) /\
     (forall r, nth_error h' (length h' - 1) = Some r ->
                previous_status r = Some "At Production") /\
     status p = match h' with
                | [] => "At Production"
                | r :: _ => new_status r
                end).
Proof.
  intros h.
  assert (H0 : consistent db0) by apply consistent_empty.
  destruct (find_pallet "PLT001" db1) as [row|] eqn:Hrow;
    [|vm_compute in Hrow; discriminate].
  assert (Hid : pallet_id row = "PLT001").
  { vm_compute in Hrow. inversion Hrow. reflexivity. }
  assert (H1 : run (createPallet PLT001) db0 (calm 1)
               = (db1, Some (mkResponse 201 (PalletCreated (Some row))))).
  { rewrite <- Hrow. vm_compute. reflexivity. }
  assert (H2 : Forall (fun c => is_delete_of (pallet_id row) (what c) = false)
                      two_scans).
  { rewrite Hid. repeat constructor. }
  assert (H3 : ticking two_scans).
  { cbn. repeat split; repeat constructor. }
  split; [exact H0|]. split; [exact H1|].
  split; [rewrite <- Hid; exact H2|]. split; [exact H3|].
  split; [reflexivity|]. split; [vm_compute; reflexivity|].
  split; [vm_compute; reflexivity|].
  rewrite <- Hid.
  exact (@audit_chain PLT001 db0 (calm 1) db1 row two_scans (calm 4)
           H0 H1 H2 eq_refl).
Defined.

Lemma status_validation_witness :
  let back := scan_to "At Production" JS.Undefined in
  let lost := scan_to "Lost" JS.Undefined in
  (JS.includes validStatuses (newStatus lost) = false /\
   fst (scanRoute flo001 "PLT001" lost db3 (calm 4)) = db3 /\
   snd (scanRoute flo001 "PLT001" lost db3 (calm 4)) = Some InvalidStatus) /\
  exists p,
    find_pallet "PLT001" db3 = Some p /\ status p = "At Warehouse" /\
    In "At Production" validStatuses /\
    In (actor_id flo001) (users_flo_id db3) /\
    snd (scanRoute flo001 "PLT001" back db3 (calm 4))
    = Some (mkResponse 200
              (PalletScanned (Some (scanned 4 back "At Production" p))
                             "At Warehouse" (JS.Str "At Production"))) /\
    status (scanned 4 back "At Production" p) = "At Production".
Proof.
  intros back lost. split.
  - assert (H : JS.includes validStatuses (newStatus lost) = false)
      by reflexivity.
    destruct (proj1 (status_validation flo001 "PLT001" lost db3 (calm 4)) H)
      as [H1 H2].
    split; [exact H|]. split; [exact H1 | exact (H2 eq_refl)].
  - destruct (find_pallet "PLT001" db3) as [p|] eqn:Hp;
      [|vm_compute in Hp; discriminate].
    assert (Hst : status p = "At Warehouse").
    { vm_compute in Hp. inversion Hp. reflexivity. }
    assert (Hin : In "At Production" validStatuses) by (left; reflexivity).
    assert (Hflo : In (actor_id flo001) (users_flo_id db3))
      by (left; reflexivity).
    exists p. split; [reflexivity|]. split; [exact Hst|].
    split; [exact Hin|]. split; [exact Hflo|]. rewrite <- Hst.
    exact (proj2 (proj2 (status_validation flo001 "PLT001" back db3 (calm 4)))
             p "At Production" Hp eq_refl Hin Hflo eq_refl eq_refl).
Defined.

(** The administrator moves the sample pallet to another location: the
    status column and the audit trail stay as they were. *)
Lemma status_only_by_scan_witness :
  let move :=
    mkBody JS.Undefined JS.Undefined JS.Undefined JS.Undefined JS.Undefined
           JS.Undefined JS.Undefined JS.Undefined (JS.Str "B-01-1")
           JS.Undefined JS.Undefined JS.Undefined JS.Undefined JS.Undefined in
  let d := fst (serve admin (PUT_pallet "PLT001" move) db3 (calm 4)) in
  is_scan (PUT_pallet "PLT001" move) = false /\
  option_map warehouse_location (find_pallet "PLT001" d)
  = Some (Some "B-01-1") /\
  (forall pid p p',
     find_pallet pid db3 = Some p -> find_pallet pid d = Some p' ->
     status p' = status p) /\
  (forall s, In s (pallet_scans (tabs d)) -> In s (pallet_scans (tabs db3))).
Proof.
  intros move d. split; [reflexivity|]. split; [vm_compute; reflexivity|].
  exact (proj2 status_only_by_scan admin (PUT_pallet "PLT001" move) db3
           (calm 4) eq_refl).
Defined.

(** ** Further properties of the routes *)

(** *** The invariant, and deletion *)

(** X1. Whatever requests are served, by whom and with whatever failures,
    a consistent database stays consistent: pallet ids stay unique, every
    status is one of the seven, every audit row belongs to a stored pallet,
    and the audit rows of each pallet replay from ['At Production'] to its
    current status. *)
Theorem requests_keep_consistency calls d :
  consistent d -> consistent (serve_all d calls).
Proof.
  revert d. induction calls as [|c calls IH]; intros d Hc; [exact Hc|].
  cbn [serve_all]. apply IH. unfold serve_call.
  destruct c as [u r e]. cbn [sender what during].
  destruct r; apply serve_consistent; exact Hc.
Qed.

Lemma requests_keep_consistency_witness :
  consistent db1 /\ consistent (serve_all db1 two_scans).
Proof.
  assert (H : consistent db1).
  { apply reachable_consistent.
    exact (reachable_serve (mkCall admin (POST_pallets PLT001) (calm 1))
             (reachable_empty ["FLO001"])). }
  split; [exact H|].
  exact (@requests_keep_consistency two_scans db1 H).
Defined.

Lemma run_is (h : pg response) d e d' r :
  wp h (connect d e) (fun o c => server c = d' /\ answer o = r) ->
  run h d e = (d', r).
Proof.
  intros H.
  pose proof (run_wp h d e (fun x y => x = d' /\ y = r) H) as [H1 H2].
  rewrite (surjective_pairing (run h d e)), H1, H2. reflexivity.
Qed.

Lemma deletePallet_calm pid d e :
  storage_faults e = [] ->
  run (deletePallet pid) d e
  = (mkDb (deleted pid (tabs d)) (seqs d) (users_flo_id d),
     Some (match find_pallet pid d with
           | Some _ => mkResponse 200 (Message "Pallet deleted successfully")
           | None => PalletNotFound
           end)).
Proof.
  intros Hq. apply run_is. unfold deletePallet, connect, find_pallet, deleted.
  rewrite Hq.
  repeat wp_step;
    match goal with
    | H : map pallet_id ?l = _ |- _ =>
        rewrite <- H; destruct l; try discriminate H; split; reflexivity
    end.
Qed.

Lemma deleted_find_others pid x t :
  x <> pid ->
  filter (pallet_id_is (Some x)) (pallets (deleted pid t))
  = filter (pallet_id_is (Some x)) (pallets t).
Proof. intros H. cbn [deleted pallets]. apply deleted_keeps_others. exact H. Qed.

(** X2. DELETE /api/pallets/:palletId.  Whatever fails, the tables end as
    they were or with the delete and its cascade done, never in between.
    When the statement does not fail: an id that is not stored answers 404
    and changes nothing; a stored id answers 200, and afterwards the pallet
    and all its audit rows are gone while every other pallet and every other
    pallet's audit rows are exactly as before. *)
Theorem delete_cascades pid d e :
  (tabs (fst (run (deletePallet pid) d e)) = tabs d \/
   tabs (fst (run (deletePallet pid) d e)) = deleted pid (tabs d)) /\
  (storage_faults e = [] -> find_pallet pid d = None ->
   run (deletePallet pid) d e = (d, Some PalletNotFound)) /\
  (storage_faults e = [] -> find_pallet pid d <> None ->
   snd (run (deletePallet pid) d e)
   = Some (mkResponse 200 (Message "Pallet deleted successfully")) /\
   find_pallet pid (fst (run (deletePallet pid) d e)) = None /\
   audit_trail pid (fst (run (deletePallet pid) d e)) = [] /\
   forall x, x <> pid ->
     find_pallet x (fst (run (deletePallet pid) d e)) = find_pallet x d /\
     audit_trail x (fst (run (deletePallet pid) d e)) = audit_trail x d).
Proof.
  split; [|split].
  - destruct (deletePallet_cases pid d e) as [_ [[_ H]|[_ [_ H]]]]; auto.
  - intros Hq Hf. rewrite (@deletePallet_calm pid d e Hq), Hf.
    rewrite deleted_nothing.
    + destruct d; reflexivity.
    + unfold find_pallet in Hf. destruct (filter _ _); [reflexivity|discriminate].
  - intros Hq Hf. rewrite (@deletePallet_calm pid d e Hq). cbn [fst snd].
    destruct (find_pallet pid d) eqn:E; [|contradiction].
    split; [reflexivity|]. unfold find_pallet, audit_trail in *. cbn [tabs].
    split; [rewrite deleted_pallet; reflexivity|].
    split.
    + apply deleted_trail. intros H. rewrite H in E. discriminate.
    + intros x Hx. rewrite deleted_find_others, deleted_trail_others by exact Hx.
      split; reflexivity.
Qed.

Lemma delete_cascades_witness :
  storage_faults (calm 4) = [] /\ find_pallet "PLT001" db3 <> None /\
  length (audit_trail "PLT001" db3) = 2%nat /\
  snd (run (deletePallet "PLT001") db3 (calm 4))
  = Some (mkResponse 200 (Message "Pallet deleted successfully")) /\
  find_pallet "PLT001" (fst (run (deletePallet "PLT001") db3 (calm 4))) = None /\
  audit_trail "PLT001" (fst (run (deletePallet "PLT001") db3 (calm 4))) = [] /\
  forall x, x <> "PLT001" ->
    find_pallet x (fst (run (deletePallet "PLT001") db3 (calm 4)))
    = find_pallet x db3 /\
    audit_trail x (fst (run (deletePallet "PLT001") db3 (calm 4)))
    = audit_trail x db3.
Proof.
  assert (H : find_pallet "PLT001" db3 <> None) by (vm_compute; discriminate).
  split; [reflexivity|]. split; [exact H|].
  split; [vm_compute; reflexivity|].
  exact (proj2 (proj2 (delete_cascades "PLT001" db3 (calm 4))) eq_refl H).
Defined.

(** *** Rows under UPDATE, row by row *)

Lemma update_row_pallet_id t sets p p' :
  update_row t sets p = Some p' -> pallet_id p' = pallet_id p.
Proof.
  unfold update_row. destruct (assign_all t sets p) as [q|] eqn:E; [|discriminate].
  destruct (is_valid_status (status q)); [|discriminate].
  intros H; inversion H; subst. eapply assign_all_pallet_id; eassumption.
Qed.

Lemma update_rows_spec t sets param rows rows' returned :
  update_rows t sets param rows = Some (rows', returned) ->
  Forall2 (row_updated t sets param) rows rows' /\
  returned = filter (pallet_id_is param) rows'.
Proof.
  revert rows' returned.
  induction rows as [|p rows IH]; cbn [update_rows]; intros rows' returned H.
  - inversion H. split; [constructor | reflexivity].
  - destruct (update_rows t sets param rows) as [[r1 r2]|]; [|discriminate].
    destruct (IH _ _ eq_refl) as [F E].
    destruct (pallet_id_is param p) eqn:Em.
    + destruct (update_row t sets p) as [p'|] eqn:Eu; [|discriminate].
      inversion H; subst. split.
      * constructor; [unfold row_updated; rewrite Em; exact Eu | exact F].
      * cbn [filter].
        assert (Em' : pallet_id_is param p' = true).
        { unfold pallet_id_is in *. rewrite (@update_row_pallet_id _ _ _ _ Eu).
          exact Em. }
        rewrite Em'. reflexivity.
    + inversion H; subst. split.
      * constructor; [unfold row_updated; rewrite Em; reflexivity | exact F].
      * cbn [filter]. rewrite Em. reflexivity.
Qed.

Lemma row_updated_match t sets param p p' :
  row_updated t sets param p p' ->
  pallet_id_is param p' = pallet_id_is param p.
Proof.
  unfold row_updated. destruct (pallet_id_is param p) eqn:E.
  - intros H. unfold pallet_id_is in *. rewrite (@update_row_pallet_id _ _ _ _ H).
    exact E.
  - intros ->. exact E.
Qed.

Lemma updated_outside t sets pid rows rows' :
  Forall2 (row_updated t sets (Some pid)) rows rows' ->
  filter (fun p => negb (pallet_id_is (Some pid) p)) rows'
  = filter (fun p => negb (pallet_id_is (Some pid) p)) rows.
Proof.
  induction 1 as [|p p' rows rows' Hp _ IH]; [reflexivity|].
  cbn [filter]. rewrite (@row_updated_match _ _ _ _ _ Hp).
  unfold row_updated in Hp.
  destruct (pallet_id_is (Some pid) p); cbn [negb]; [exact IH|].
  subst p'. rewrite IH. reflexivity.
Qed.

Lemma updated_inside t sets pid rows rows' :
  Forall2 (row_updated t sets (Some pid)) rows rows' ->
  filter (pallet_id_is (Some pid)) rows <> [] ->
  filter (pallet_id_is (Some pid)) rows' <> [].
Proof.
  induction 1 as [|p p' rows rows' Hp _ IH]; [auto|].
  cbn [filter]. rewrite (@row_updated_match _ _ _ _ _ Hp).
  destruct (pallet_id_is (Some pid) p); [discriminate | exact IH].
Qed.

Lemma updated_unmatched t sets param rows rows' :
  Forall2 (row_updated t sets param) rows rows' ->
  filter (pallet_id_is param) rows = [] -> rows' = rows.
Proof.
  induction 1 as [|p p' rows rows' Hp _ IH]; [reflexivity|].
  cbn [filter]. unfold row_updated in Hp.
  destruct (pallet_id_is param p); [discriminate|].
  intros H. subst p'. rewrite (IH H). reflexivity.
Qed.

Lemma updatePallet_cases pid b d e :
  update_outcome pid b d e (fst (run (updatePallet pid b) d e))
                           (snd (run (updatePallet pid b) d e)).
Proof.
  apply (run_wp (updatePallet pid b) d e (update_outcome pid b d e)).
  unfold updatePallet, connect, update_outcome.
  repeat wp_step;
    try solve [split; [reflexivity|]; split; [reflexivity|];
               left; split; [reflexivity | intros; discriminate]].
  all: split; [reflexivity|]; split; [reflexivity|].
  all: match goal with
       | H : update_rows _ _ _ _ = Some (?l', []) |- _ =>
           left; split; [|intros; discriminate];
           pose proof (proj1 (@update_rows_spec _ _ _ _ _ _ H)) as F;
           pose proof (proj1 (@update_rows_returned _ _ _ _ _ _ H) eq_refl) as N;
           rewrite (@updated_unmatched _ _ _ _ _ F N);
           destruct (tabs d); reflexivity
       | H : update_rows _ _ _ _ = Some (_, _ :: _) |- _ =>
           right; do 3 eexists; split; [reflexivity|]; split; reflexivity
       end.
Qed.

Lemma generateQR_cases qr b d e :
  qr_outcome qr b d e (fst (run (generateQR qr b) d e))
                      (snd (run (generateQR qr b) d e)).
Proof.
  apply (run_wp (generateQR qr b) d e (qr_outcome qr b d e)).
  unfold generateQR, connect, qr_outcome, find_pallet.
  destruct (palletId b) as [| |[]|n|s|o] eqn:Ep;
    cbn [JS.prepareValue JS.falsy JS.truthy negb].
  all: repeat wp_step;
    try solve [split; [reflexivity|]; split; [reflexivity|];
               left; split; [reflexivity | intros; discriminate]].
  all: split; [reflexivity|]; split; [reflexivity|].
  all: right; do 5 eexists.
  all: split; [reflexivity|]; split; [reflexivity|].
  all: match goal with
       | H : filter _ _ = _ :: _ |- _ => rewrite H
       end.
  all: split; [reflexivity|]; split; [eassumption|]; split; reflexivity.
Qed.

(** *** A pallet's life, from creation to deletion *)

Lemma deleted_is_outside pid t :
  filter (pallet_id_is (Some pid)) (pallets t) <> [] ->
  deleted pid t = outside pid t.
Proof.
  intros Hne. unfold deleted, outside. f_equal.
  apply filter_ext. intros s. f_equal.
  destruct (filter (pallet_id_is (Some pid)) (pallets t)) as [|p l] eqn:E;
    [contradiction|].
  cbn [scan_pallet_id_is].
  destruct (String.eqb (scan_pallet_id s) pid) eqn:Es.
  - apply existsb_exists. exists (pallet_id p). split; [left; reflexivity|].
    assert (Hin : In p (p :: l)) by (left; reflexivity).
    rewrite <- E in Hin. apply filter_In in Hin.
    rewrite (proj1 (pallet_id_is_eq _ _) (proj2 Hin)). exact Es.
  - destruct (existsb _ _) eqn:Ex; [|reflexivity].
    rewrite <- E in Ex. apply gone_ids in Ex. subst pid.
    rewrite String.eqb_refl in Es. discriminate.
Qed.

Lemma scanned_outside pid t b s rows :
  filter (fun p => negb (pallet_id_is (Some pid) p))
         (map (fun q => if pallet_id_is (Some pid) q then scanned t b s q else q)
              rows)
  = filter (fun p => negb (pallet_id_is (Some pid) p)) rows.
Proof.
  induction rows as [|p rows IH]; [reflexivity|]. cbn [map filter].
  destruct (pallet_id_is (Some pid) p) eqn:E.
  - unfold pallet_id_is in *. rewrite scanned_pallet_id, E. exact IH.
  - rewrite E. cbn [negb]. rewrite IH. reflexivity.
Qed.

Lemma scanned_inside pid t b s rows :
  filter (pallet_id_is (Some pid)) rows <> [] ->
  filter (pallet_id_is (Some pid))
         (map (fun q => if pallet_id_is (Some pid) q then scanned t b s q else q)
              rows) <> [].
Proof.
  rewrite filter_map_if by (intros; apply scanned_pallet_id).
  destruct (filter _ rows); [auto | discriminate].
Qed.

Lemma find_pallet_stored pid d :
  find_pallet pid d <> None <->
  filter (pallet_id_is (Some pid)) (pallets (tabs d)) <> [].
Proof.
  unfold find_pallet.
  destruct (filter (pallet_id_is (Some pid)) (pallets (tabs d)));
    cbn [hd_error]; split; intros H; try discriminate; auto.
Qed.

(** A request that concerns only pallet [pid] leaves everything else in
    the tables as it was, and leaves the pallet stored. *)
Lemma concerns_outside pid u r d e :
  concerns pid r = true -> find_pallet pid d <> None ->
  outside pid (tabs (fst (serve u r d e))) = outside pid (tabs d) /\
  find_pallet pid (fst (serve u r d e)) <> None.
Proof.
  intros Hc Hf.
  assert (Hsame : forall d', tabs d' = tabs d ->
            outside pid (tabs d') = outside pid (tabs d) /\
            find_pallet pid d' <> None).
  { intros d' Ht. unfold find_pallet in *. rewrite Ht. auto. }
  assert (Hst : filter (pallet_id_is (Some pid)) (pallets (tabs d)) <> [])
    by (apply find_pallet_stored; exact Hf).
  assert (Hupd : forall d' t sets rows' returned,
            update_rows t sets (Some pid) (pallets (tabs d))
            = Some (rows', returned) ->
            tabs d' = mkTables rows' (pallet_scans (tabs d)) ->
            outside pid (tabs d') = outside pid (tabs d) /\
            find_pallet pid d' <> None).
  { intros d' t sets rows' returned Hu Ht.
    destruct (@update_rows_spec _ _ _ _ _ _ Hu) as [F _].
    split; [|apply find_pallet_stored]; unfold outside; rewrite Ht;
      cbn [pallets pallet_scans].
    - rewrite (@updated_outside _ _ _ _ _ F). reflexivity.
    - exact (@updated_inside _ _ _ _ _ F Hst). }
  destruct r as [b|x|x b|x|x b|x|b]; cbn [serve concerns] in *;
    try discriminate.
  - apply Hsame. rewrite getPallet_reads. reflexivity.
  - apply String.eqb_eq in Hc. subst x.
    destruct (scanRoute_cases u pid b d e) as [_ [[_ Ht]|[p [s Hs]]]];
      [exact (Hsame _ Ht)|].
    destruct Hs as [_ [_ [_ [_ [_ Ht]]]]].
    split; [|apply find_pallet_stored]; unfold outside; rewrite Ht;
      cbn [pallets pallet_scans].
    + rewrite scanned_outside, filter_app.
      cbn [filter audit_row scan_pallet_id_is scan_pallet_id].
      rewrite String.eqb_refl. cbn [negb]. rewrite app_nil_r. reflexivity.
    + apply scanned_inside. exact Hst.
  - apply Hsame. rewrite getHistory_reads. reflexivity.
  - apply String.eqb_eq in Hc. subst x.
    destruct (isAdmin_cases u (run (updatePallet pid b)) d e) as [E|E];
      rewrite E; [apply Hsame; reflexivity|].
    destruct (updatePallet_cases pid b d e)
      as [_ [_ [[Ht _]|[rows' [p' [rest [Hu [Ht _]]]]]]]];
      [exact (Hsame _ Ht) | exact (Hupd _ _ _ _ _ Hu Ht)].
  - destruct (isAdmin_cases u (run (generateQR (qr_image e) b)) d e) as [E|E];
      rewrite E; [apply Hsame; reflexivity|].
    destruct (generateQR_cases (qr_image e) b d e)
      as [_ [_ [[Ht _]|[x [im [p [rows' [ret [Hp [_ [_ [Hu [Ht _]]]]]]]]]]]]];
      [exact (Hsame _ Ht)|].
    rewrite Hp in Hc. apply String.eqb_eq in Hc. subst x.
    exact (Hupd _ _ _ _ _ Hu Ht).
Qed.

Lemma concerns_all_outside pid calls :
  forall d,
    Forall (fun c => concerns pid (what c) = true) calls ->
    find_pallet pid d <> None ->
    outside pid (tabs (serve_all d calls)) = outside pid (tabs d) /\
    find_pallet pid (serve_all d calls) <> None.
Proof.
  induction calls as [|c calls IH]; intros d Hc Hf; [auto|].
  inversion Hc as [|? ? H1 H2]; subst. cbn [serve_all]. unfold serve_call.
  destruct (@concerns_outside pid (sender c) (what c) d (during c) H1 Hf)
    as [Ho Hf'].
  destruct (IH _ H2 Hf') as [Ho' Hf'']. split; [|exact Hf''].
  rewrite Ho'. exact Ho.
Qed.

(** X3. Deleting a pallet undoes its creation and everything done to it
    since: after a pallet is created in a consistent database and any
    number of scans, administrative updates, QR generations and reads of
    that pallet, a delete that does not fail answers 200 and leaves both
    tables exactly as they were before the creation. *)
Theorem delete_undoes_creation b d0 e0 d1 row calls e :
  consistent d0 ->
  run (createPallet b) d0 e0
  = (d1, Some (mkResponse 201 (PalletCreated (Some row)))) ->
  Forall (fun c => concerns (pallet_id row) (what c) = true) calls ->
  storage_faults e = [] ->
  snd (run (deletePallet (pallet_id row)) (serve_all d1 calls) e)
  = Some (mkResponse 200 (Message "Pallet deleted successfully")) /\
  tabs (fst (run (deletePallet (pallet_id row)) (serve_all d1 calls) e))
  = tabs d0.
Proof.
  intros Hc Hcreate Hcalls Hq. set (P := pallet_id row) in *.
  pose proof (createPallet_cases b d0 e0) as Hcases. rewrite Hcreate in Hcases.
  cbn [fst snd] in Hcases.
  destruct Hcases as [_ [[Hr _]|[row' Hrow]]]; [discriminate|].
  assert (row' = row) by (destruct Hrow as [_ [_ [Hr _]]]; congruence).
  subst row'. destruct Hrow as [_ [Hfresh [_ Ht]]]. fold P in Hfresh.
  assert (Hf1 : find_pallet P d1 <> None).
  { unfold find_pallet. rewrite Ht. cbn [pallets].
    rewrite filter_app, Hfresh. cbn [filter app]. unfold P, pallet_id_is.
    rewrite String.eqb_refl. discriminate. }
  assert (Ho1 : outside P (tabs d1) = tabs d0).
  { unfold outside. rewrite Ht. cbn [pallets pallet_scans].
    rewrite filter_app, (filter_none_negb _ _ Hfresh).
    cbn [filter]. unfold P at 1, pallet_id_is at 1. rewrite String.eqb_refl.
    cbn [negb]. rewrite app_nil_r.
    pose proof (@no_trail_without_pallet d0 P Hc Hfresh) as Hn.
    unfold audit_trail in Hn. rewrite (filter_none_negb _ _ Hn).
    destruct (tabs d0); reflexivity. }
  destruct (@concerns_all_outside P calls d1 Hcalls Hf1) as [Ho2 Hf2].
  rewrite (@deletePallet_calm P _ e Hq). cbn [fst snd tabs].
  destruct (find_pallet P (serve_all d1 calls)) eqn:E; [|contradiction].
  split; [reflexivity|].
  rewrite deleted_is_outside, Ho2; [exact Ho1|].
  unfold find_pallet in E. intros H. rewrite H in E. discriminate.
Qed.

Lemma delete_undoes_creation_witness :
  consistent db0 /\
  run (createPallet PLT001) db0 (calm 1)
  = (db1, Some (mkResponse 201 (PalletCreated (find_pallet "PLT001" db1)))) /\
  Forall (fun c => concerns "PLT001" (what c) = true) two_scans /\
  storage_faults (calm 4) = [] /\
  length (pallet_scans (tabs (serve_all db1 two_scans))) = 2%nat /\
  snd (run (deletePallet "PLT001") (serve_all db1 two_scans) (calm 4))
  = Some (mkResponse 200 (Message "Pallet deleted successfully")) /\
  tabs (fst (run (deletePallet "PLT001") (serve_all db1 two_scans) (calm 4)))
  = tabs db0.
Proof.
  assert (H0 : consistent db0) by apply consistent_empty.
  destruct (find_pallet "PLT001" db1) as [row|] eqn:Hrow;
    [|vm_compute in Hrow; discriminate].
  assert (Hid : pallet_id row = "PLT001").
  { vm_compute in Hrow. inversion Hrow. reflexivity. }
  assert (H1 : run (createPallet PLT001) db0 (calm 1)
               = (db1, Some (mkResponse 201 (PalletCreated (Some row))))).
  { rewrite <- Hrow. vm_compute. reflexivity. }
  assert (H2 : Forall (fun c => concerns (pallet_id row) (what c) = true)
                      two_scans).
  { rewrite Hid. repeat constructor. }
  split; [exact H0|]. split; [exact H1|].
  split; [rewrite <- Hid; exact H2|]. split; [reflexivity|].
  split; [vm_compute; reflexivity|].
  rewrite <- Hid.
  exact (@delete_undoes_creation PLT001 db0 (calm 1) db1 row two_scans
           (calm 4) H0 H1 H2 eq_refl).
Defined.

(** *** PUT /api/pallets/:palletId *)

Lemma push_defined_nil c v l :
  push_defined c v l = [] <-> v = JS.Undefined /\ l = [].
Proof.
  unfold push_defined. destruct v; cbn [JS.defined]; split.
  all: try (intros H; apply app_eq_nil in H; destruct H; discriminate).
  all: try (intros [H _]; discriminate).
  - auto.
  - intros [_ H]; exact H.
Qed.

Lemma admin_updates_nil b : admin_updates b = [] <-> no_fields b.
Proof.
  unfold admin_updates, no_fields. rewrite !push_defined_nil. tauto.
Qed.

Lemma admin_assign t b p :
  assign_all t (admin_updates b ++ [SetUpdatedAtNow]) p = edited t b p.
Proof.
  unfold admin_updates, push_defined, edited, stored.
  destruct (JS.defined (itemCode b));
    [destruct (JS.prepareValue (itemCode b))|];
  (destruct (JS.defined (itemName b));
    [destruct (JS.prepareValue (itemName b))|]);
  (destruct (JS.defined (itemQuantity b));
    [destruct (JS.prepareValue (itemQuantity b))|]);
  destruct (JS.defined (unitNo b)); destruct (JS.defined (weightKg b));
  destruct (JS.defined (productionDate b));
  destruct (JS.defined (expiryDate b));
  destruct (JS.defined (warehouseLocation b));
  destruct (JS.defined (destination_ b)); reflexivity.
Qed.

Lemma edited_row t b p p' :
  edited t b p = Some p' ->
  id p' = id p /\ pallet_id p' = pallet_id p /\ status p' = status p /\
  qr_code_url p' = qr_code_url p /\ created_at p' = created_at p /\
  updated_at p' = t.
Proof.
  unfold edited.
  destruct (stored (itemCode b) _); [|discriminate].
  destruct (stored (itemName b) _); [|discriminate].
  destruct (stored (itemQuantity b) _); [|discriminate].
  intros H. inversion H. cbn. tauto.
Qed.

Lemma admin_update_row t b p :
  is_valid_status (status p) = true ->
  update_row t (admin_updates b ++ [SetUpdatedAtNow]) p = edited t b p.
Proof.
  intros Hv. unfold update_row. rewrite admin_assign.
  destruct (edited t b p) as [p'|] eqn:E; [|reflexivity].
  destruct (edited_row _ _ _ E) as [_ [_ [Hs _]]]. rewrite Hs, Hv. reflexivity.
Qed.

Lemma update_rows_map_in t sets param (f : pallet -> pallet) rows :
  (forall p, In p rows -> pallet_id_is param p = true ->
             update_row t sets p = Some (f p)) ->
  update_rows t sets param rows =
    Some (map (fun p => if pallet_id_is param p then f p else p) rows,
          map f (filter (pallet_id_is param) rows)).
Proof.
  induction rows as [|p rows IH]; intros Hf; cbn; [reflexivity|].
  rewrite IH by (intros q Hq; apply Hf; right; exact Hq).
  destruct (pallet_id_is param p) eqn:E; [|reflexivity].
  rewrite (Hf p (or_introl eq_refl) E). reflexivity.
Qed.

Lemma update_rows_fails t sets param rows p :
  In p rows -> pallet_id_is param p = true -> update_row t sets p = None ->
  update_rows t sets param rows = None.
Proof.
  induction rows as [|q rows IH]; intros Hin Hm Hu; [destruct Hin|].
  cbn [update_rows]. destruct Hin as [->|Hin].
  - destruct (update_rows t sets param rows) as [[r1 r2]|]; [|reflexivity].
    rewrite Hm, Hu. reflexivity.
  - rewrite (IH Hin Hm Hu). reflexivity.
Qed.

Lemma unique_row (rows : list pallet) p q :
  NoDup (map pallet_id rows) -> In p rows -> In q rows ->
  pallet_id p = pallet_id q -> p = q.
Proof.
  induction rows as [|r rows IH]; intros Hn Hp Hq E; [destruct Hp|].
  inversion Hn as [|? ? Hr Hn']; subst.
  destruct Hp as [->|Hp], Hq as [->|Hq]; [reflexivity | | | auto].
  - exfalso. apply Hr. rewrite E. apply in_map. exact Hq.
  - exfalso. apply Hr. rewrite <- E. apply in_map. exact Hp.
Qed.

Lemma unique_filter pid (rows : list pallet) p :
  NoDup (map pallet_id rows) ->
  hd_error (filter (pallet_id_is (Some pid)) rows) = Some p ->
  filter (pallet_id_is (Some pid)) rows = [p].
Proof.
  induction rows as [|r rows IH]; intros Hn H; [discriminate|].
  inversion Hn as [|? ? Hr Hn']; subst. cbn [filter] in *.
  destruct (pallet_id_is (Some pid) r) eqn:E.
  - cbn in H. inversion H; subst r. f_equal. apply filter_nil_In.
    intros q Hq. destruct (pallet_id_is (Some pid) q) eqn:Eq; [|reflexivity].
    exfalso. apply Hr. apply pallet_id_is_eq in E, Eq. rewrite E, <- Eq.
    apply in_map. exact Hq.
  - auto.
Qed.

Lemma updatePallet_calm pid b d e :
  storage_faults e = [] -> ~ no_fields b ->
  run (updatePallet pid b) d e
  = (mkDb
       match update_rows (now e) (admin_updates b ++ [SetUpdatedAtNow])
                         (Some pid) (pallets (tabs d)) with
       | Some (rows', _) => mkTables rows' (pallet_scans (tabs d))
       | None => tabs d
       end (seqs d) (users_flo_id d),
     Some match update_rows (now e) (admin_updates b ++ [SetUpdatedAtNow])
                            (Some pid) (pallets (tabs d)) with
          | Some (_, []) => PalletNotFound
          | Some (_, p' :: _) => mkResponse 200 (PalletUpdated (Some p'))
          | None => StorageFailure "Failed to update pallet"
          end).
Proof.
  intros Hq Hb. apply run_is. unfold updatePallet, connect. rewrite Hq.
  rewrite <- admin_updates_nil in Hb.
  destruct (admin_updates b) as [|a l] eqn:Ea; [contradiction|].
  repeat wp_step; try discriminate; split; reflexivity.
Qed.

Lemma updated_others t sets pid x rows rows' :
  Forall2 (row_updated t sets (Some pid)) rows rows' -> x <> pid ->
  filter (pallet_id_is (Some x)) rows' = filter (pallet_id_is (Some x)) rows.
Proof.
  intros F Hx. induction F as [|p p' rows rows' Hp _ IH]; [reflexivity|].
  cbn [filter]. rewrite IH. unfold row_updated in Hp.
  destruct (pallet_id_is (Some pid) p) eqn:E; [|subst p'; reflexivity].
  pose proof (@update_row_pallet_id _ _ _ _ Hp) as Hid.
  apply pallet_id_is_eq in E.
  assert (N : forall q, pallet_id q = pid -> pallet_id_is (Some x) q = false).
  { intros q Hq. unfold pallet_id_is. rewrite Hq. apply String.eqb_neq. auto. }
  rewrite (N p E), (N p') by congruence. reflexivity.
Qed.

Lemma updated_ids t sets param rows rows' :
  Forall2 (row_updated t sets param) rows rows' ->
  map pallet_id rows' = map pallet_id rows.
Proof.
  induction 1 as [|p p' rows rows' Hp _ IH]; [reflexivity|].
  cbn [map]. rewrite IH. f_equal. unfold row_updated in Hp.
  destruct (pallet_id_is param p); [|subst; reflexivity].
  eapply update_row_pallet_id; eassumption.
Qed.

Lemma updated_first t sets pid rows rows' p :
  Forall2 (row_updated t sets (Some pid)) rows rows' ->
  hd_error (filter (pallet_id_is (Some pid)) rows) = Some p ->
  exists p', hd_error (filter (pallet_id_is (Some pid)) rows') = Some p' /\
             update_row t sets p = Some p'.
Proof.
  induction 1 as [|q q' rows rows' Hq _ IH]; [discriminate|].
  cbn [filter]. rewrite (@row_updated_match _ _ _ _ _ Hq).
  unfold row_updated in Hq.
  destruct (pallet_id_is (Some pid) q); [|exact IH].
  cbn [hd_error]. intros H. inversion H; subst q. eauto.
Qed.

Lemma stored_none v old : stored v (Some old) = None <-> v = JS.Null.
Proof.
  unfold stored. destruct v as [| |[]| | |]; cbn; split; intros H;
    try discriminate; reflexivity.
Qed.

Lemma edited_none t b p :
  edited t b p = None <->
  itemCode b = JS.Null \/ itemName b = JS.Null \/ itemQuantity b = JS.Null.
Proof.
  unfold edited. rewrite <- (stored_none (itemCode b) (item_code p)).
  rewrite <- (stored_none (itemName b) (item_name p)).
  rewrite <- (stored_none (itemQuantity b) (item_quantity p)).
  destruct (stored (itemCode b) _); [|tauto].
  destruct (stored (itemName b) _); [|tauto].
  destruct (stored (itemQuantity b) _); [|tauto].
  split; [discriminate|]. intros [H|[H|H]]; discriminate.
Qed.

(** X4. PUT /api/pallets/:palletId answers 400 "No fields to update"
    exactly when the body gives none of the nine fields it can update, and
    then the database is left as it is, whatever the storage does: no
    statement is sent. *)
Theorem update_needs_a_field pid b d e :
  (snd (run (updatePallet pid b) d e)
   = Some (mkResponse 400 (Error "No fields to update")) <-> no_fields b) /\
  (no_fields b -> fst (run (updatePallet pid b) d e) = d).
Proof.
  destruct (admin_updates b) as [|a l] eqn:Ea.
  - assert (Hn : no_fields b) by (apply admin_updates_nil; exact Ea).
    assert (E : run (updatePallet pid b) d e
                = (d, Some (mkResponse 400 (Error "No fields to update")))).
    { apply run_is. unfold updatePallet, connect. rewrite Ea.
      repeat wp_step; try discriminate; split; reflexivity. }
    rewrite E. cbn [fst snd]. tauto.
  - assert (Hn : ~ no_fields b).
    { rewrite <- admin_updates_nil, Ea. discriminate. }
    split; [|intros H; contradiction].
    split; [|intros H; contradiction]. intros H. exfalso. revert H.
    apply (run_wp (updatePallet pid b) d e
             (fun _ r => r <> Some (mkResponse 400 (Error "No fields to update")))).
    unfold updatePallet, connect. rewrite Ea.
    repeat wp_step; discriminate.
Qed.

(** Texts the typed columns take as written, and texts they do not. *)
Example texts_taken :
  map integer_text ["100"; "-5"; "0"; "abc"; ""; "007"; "-0"; "1e3";
                    "12345678901"]
  = [true; true; true; false; false; false; false; false; false] /\
  map decimal_10_2_text ["250.50"; "0.05"; "250.5"; "250"; "250.555"; "heavy";
                         ".50"; "123456789.00"; "-1.00"]
  = [true; true; false; false; false; false; false; false; false] /\
  map date_text ["2026-01-01"; "2024-02-29"; "2026-02-29"; "tomorrow";
                 "2026-13-01"; "2026-1-1"]
  = [true; true; false; false; false; false] /\
  fits (admin_updates restock) = true /\
  fits (admin_updates relabel) = true.
Proof. vm_compute. repeat split. Qed.

Lemma consistent_db1 : consistent db1.
Proof.
  apply reachable_consistent.
  exact (reachable_serve (mkCall admin (POST_pallets PLT001) (calm 1))
           (reachable_empty ["FLO001"])).
Qed.

(** X5. What PUT /api/pallets/:palletId does when a field is given and the
    storage does not fail, in a consistent database.  For a stored pallet,
    a null for item code, item name or quantity is answered 500, and the
    tables are unchanged.  When every given value is a text its column
    takes as written ([fits]: within the length of a VARCHAR column, a
    whole number for the quantity, a decimal with two places for the
    weight, a day of the calendar for the dates), an unknown id is answered
    404, the tables unchanged, and for a stored pallet the answer is 200
    with the edited row: each given field stored, the others kept, as are
    the id, the status, the QR code and the creation time, and [updated_at]
    is the time of the request; every other pallet, the order of the rows
    and the whole audit trail are unchanged. *)
Theorem update_edits_the_row pid b d e :
  consistent d -> storage_faults e = [] -> ~ no_fields b ->
  (fits (admin_updates b) = true -> find_pallet pid d = None ->
   snd (run (updatePallet pid b) d e) = Some PalletNotFound /\
   tabs (fst (run (updatePallet pid b) d e)) = tabs d) /\
  (forall p, find_pallet pid d = Some p ->
     (itemCode b = JS.Null \/ itemName b = JS.Null \/
      itemQuantity b = JS.Null) ->
     snd (run (updatePallet pid b) d e)
     = Some (StorageFailure "Failed to update pallet") /\
     tabs (fst (run (updatePallet pid b) d e)) = tabs d) /\
  (forall p p', fits (admin_updates b) = true ->
     find_pallet pid d = Some p ->
     edited (now e) b p = Some p' ->
     snd (run (updatePallet pid b) d e)
     = Some (mkResponse 200 (PalletUpdated (Some p'))) /\
     find_pallet pid (fst (run (updatePallet pid b) d e)) = Some p' /\
     (forall x, x <> pid ->
        find_pallet x (fst (run (updatePallet pid b) d e))
        = find_pallet x d) /\
     map pallet_id (pallets (tabs (fst (run (updatePallet pid b) d e))))
     = map pallet_id (pallets (tabs d)) /\
     pallet_scans (tabs (fst (run (updatePallet pid b) d e)))
     = pallet_scans (tabs d)).
Proof.
  intros Hc Hq Hb. rewrite (@updatePallet_calm pid b d e Hq Hb).
  cbn [fst snd tabs].
  set (sets := (admin_updates b ++ [SetUpdatedAtNow])%list).
  assert (Hvalid : forall q, In q (pallets (tabs d)) ->
            update_row (now e) sets q = edited (now e) b q).
  { intros q Hin. apply admin_update_row.
    pose proof (valid_statuses Hc) as Hv. rewrite Forall_forall in Hv. auto. }
  split; [|split].
  - intros _ Hf.
    assert (Hnone : filter (pallet_id_is (Some pid)) (pallets (tabs d)) = []).
    { unfold find_pallet in Hf. destruct (filter _ _); [reflexivity|discriminate]. }
    destruct (update_rows (now e) sets (Some pid) (pallets (tabs d)))
      as [[rows' returned]|] eqn:Eu.
    + destruct (@update_rows_spec _ _ _ _ _ _ Eu) as [F _].
      rewrite (proj2 (@update_rows_returned _ _ _ _ _ _ Eu) Hnone).
      rewrite (@updated_unmatched _ _ _ _ _ F Hnone).
      split; [reflexivity | destruct (tabs d); reflexivity].
    + exfalso.
      rewrite (@update_rows_map_in (now e) sets (Some pid) (fun q => q)) in Eu;
        [discriminate|].
      intros q Hin Hm. exfalso.
      assert (Hq' : In q (filter (pallet_id_is (Some pid)) (pallets (tabs d))))
        by (apply filter_In; split; assumption).
      rewrite Hnone in Hq'. destruct Hq'.
  - intros p Hf Hnull.
    destruct (find_pallet_In _ _ Hf) as [Hin Hid].
    rewrite (@update_rows_fails (now e) sets (Some pid) (pallets (tabs d)) p).
    + split; reflexivity.
    + exact Hin.
    + apply pallet_id_is_eq. exact Hid.
    + rewrite (Hvalid _ Hin). apply edited_none. exact Hnull.
  - intros p p' _ Hf He.
    destruct (find_pallet_In _ _ Hf) as [Hin Hid].
    assert (Eu : update_rows (now e) sets (Some pid) (pallets (tabs d))
                 = Some (map (fun q => if pallet_id_is (Some pid) q
                                       then p' else q) (pallets (tabs d)),
                         map (fun _ => p')
                             (filter (pallet_id_is (Some pid))
                                     (pallets (tabs d))))).
    { apply update_rows_map_in. intros q Hq' Hm. apply pallet_id_is_eq in Hm.
      rewrite (@unique_row (pallets (tabs d)) q p (unique_ids Hc) Hq' Hin)
        by congruence.
      rewrite (Hvalid _ Hin). exact He. }
    destruct (@update_rows_spec _ _ _ _ _ _ Eu) as [F _].
    rewrite Eu. unfold find_pallet in *.
    rewrite (@unique_filter pid _ p (unique_ids Hc) Hf).
    cbn [map tabs pallets pallet_scans].
    split; [reflexivity|]. split; [|split; [|split]].
    + destruct (@updated_first _ _ _ _ _ _ F Hf) as [p'' [H1 H2]].
      rewrite H1. rewrite (Hvalid _ Hin), He in H2. congruence.
    + intros x Hx. rewrite (@updated_others _ _ _ _ _ _ F Hx). reflexivity.
    + exact (@updated_ids _ _ _ _ _ F).
    + reflexivity.
Qed.

Lemma update_edits_the_row_witness :
  let p := mkPallet 1 "PLT001" "ITEM-001" "Sample Product" "100"
             (Some "BOX") (Some "250.5") (Some "2026-01-01")
             (Some "2026-04-01") "At Production" None None None 1 1 in
  let p' := mkPallet 1 "PLT001" "ITEM-001" "Sample Product" "120"
              (Some "BOX") (Some "312.75") (Some "2026-05-01")
              (Some "2026-04-01") "At Production" None (Some "Lahore") None
              1 5 in
  consistent db1 /\ storage_faults (calm 5) = [] /\ ~ no_fields restock /\
  fits (admin_updates restock) = true /\
  find_pallet "PLT001" db1 = Some p /\ edited (now (calm 5)) restock p = Some p' /\
  snd (run (updatePallet "PLT001" restock) db1 (calm 5))
  = Some (mkResponse 200 (PalletUpdated (Some p'))) /\
  find_pallet "PLT001" (fst (run (updatePallet "PLT001" restock) db1 (calm 5)))
  = Some p'.
Proof.
  intros p p'.
  assert (Hc : consistent db1) by exact consistent_db1.
  assert (Hn : ~ no_fields restock).
  { intros [_ [_ [H _]]]. discriminate H. }
  assert (Hfit : fits (admin_updates restock) = true)
    by (vm_compute; reflexivity).
  assert (Hf : find_pallet "PLT001" db1 = Some p) by (vm_compute; reflexivity).
  assert (He : edited (now (calm 5)) restock p = Some p')
    by (vm_compute; reflexivity).
  destruct (@update_edits_the_row "PLT001" restock db1 (calm 5) Hc eq_refl Hn)
    as [_ [_ H]].
  destruct (H p p' Hfit Hf He) as [H1 [H2 _]].
  repeat (split; [assumption || reflexivity|]). exact H2.
Defined.

(** *** POST /api/qr/generate *)

Lemma generateQR_calm qr b d e pid :
  storage_faults e = [] ->
  JS.truthy (palletId b) = true -> JS.prepareValue (palletId b) = Some pid ->
  run (generateQR qr b) d e
  = (mkDb
       match find_pallet pid d, qr with
       | Some _, Some image =>
           match update_rows (now e) [SetParam col_qr_code_url (Some image)]
                             (Some pid) (pallets (tabs d)) with
           | Some (rows', _) => mkTables rows' (pallet_scans (tabs d))
           | None => tabs d
           end
       | _, _ => tabs d
       end (seqs d) (users_flo_id d),
     Some match find_pallet pid d, qr with
          | None, _ => PalletNotFound
          | Some _, None => StorageFailure "Failed to generate QR code"
          | Some p, Some image =>
              match update_rows (now e) [SetParam col_qr_code_url (Some image)]
                                (Some pid) (pallets (tabs d)) with
              | Some _ => mkResponse 200 (QrGenerated (pallet_id p) image p)
              | None => StorageFailure "Failed to generate QR code"
              end
          end).
Proof.
  intros Hq Ht Hp. apply run_is. unfold generateQR, connect, find_pallet, JS.falsy.
  rewrite Hq, Ht, Hp. cbn [negb].
  repeat wp_step; try discriminate; split; reflexivity.
Qed.

Lemma qr_update_row t image p :
  is_valid_status (status p) = true ->
  update_row t [SetParam col_qr_code_url (Some image)] p
  = Some (with_qr_code_url (Some image) p).
Proof.
  intros Hv. unfold update_row. cbn [assign_all assign].
  unfold with_qr_code_url at 1. cbn [status]. rewrite Hv. reflexivity.
Qed.

(** X6. POST /api/qr/generate.  A falsy [palletId] is answered 400 and
    nothing is sent to the database.  Otherwise, in a consistent database
    and with a storage that does not fail: an unknown pallet is answered
    404; when the encoder throws the answer is 500; in both cases the
    tables are unchanged.  When the encoder gives an image the answer is
    200 with the image and the row as it was read, and the stored row
    differs from it in [qr_code_url] alone ([updated_at] is not touched);
    every other pallet, the order of the rows and the audit trail are
    unchanged. *)
Theorem qr_generation b d e :
  consistent d -> storage_faults e = [] ->
  (JS.falsy (palletId b) = true ->
   run (generateQR (qr_image e) b) d e
   = (d, Some (mkResponse 400 (Error "Pallet ID required")))) /\
  (forall pid,
     JS.truthy (palletId b) = true ->
     JS.prepareValue (palletId b) = Some pid ->
     (find_pallet pid d = None ->
      snd (run (generateQR (qr_image e) b) d e) = Some PalletNotFound /\
      tabs (fst (run (generateQR (qr_image e) b) d e)) = tabs d) /\
     (forall p, find_pallet pid d = Some p -> qr_image e = None ->
      snd (run (generateQR (qr_image e) b) d e)
      = Some (StorageFailure "Failed to generate QR code") /\
      tabs (fst (run (generateQR (qr_image e) b) d e)) = tabs d) /\
     (forall p image, find_pallet pid d = Some p ->
      qr_image e = Some image ->
      snd (run (generateQR (qr_image e) b) d e)
      = Some (mkResponse 200 (QrGenerated (pallet_id p) image p)) /\
      find_pallet pid (fst (run (generateQR (qr_image e) b) d e))
      = Some (with_qr_code_url (Some image) p) /\
      (forall x, x <> pid ->
         find_pallet x (fst (run (generateQR (qr_image e) b) d e))
         = find_pallet x d) /\
      map pallet_id
          (pallets (tabs (fst (run (generateQR (qr_image e) b) d e))))
      = map pallet_id (pallets (tabs d)) /\
      pallet_scans (tabs (fst (run (generateQR (qr_image e) b) d e)))
      = pallet_scans (tabs d))).
Proof.
  intros Hc Hq. split.
  - intros Hf. apply run_is. unfold generateQR, connect. rewrite Hf.
    repeat wp_step; split; reflexivity.
  - intros pid Ht Hp.
    rewrite (@generateQR_calm (qr_image e) b d e pid Hq Ht Hp).
    cbn [fst snd tabs]. split; [|split].
    + intros Hf. rewrite Hf. split; reflexivity.
    + intros p Hf Hi. rewrite Hf, Hi. split; reflexivity.
    + intros p image Hf Hi. rewrite Hf, Hi.
      assert (Eu : update_rows (now e) [SetParam col_qr_code_url (Some image)]
                     (Some pid) (pallets (tabs d))
                   = Some (map (fun q => if pallet_id_is (Some pid) q
                                         then with_qr_code_url (Some image) q
                                         else q) (pallets (tabs d)),
                           map (with_qr_code_url (Some image))
                               (filter (pallet_id_is (Some pid))
                                       (pallets (tabs d))))).
      { apply update_rows_map_in. intros q Hin _. apply qr_update_row.
        pose proof (valid_statuses Hc) as Hv. rewrite Forall_forall in Hv.
        auto. }
      destruct (@update_rows_spec _ _ _ _ _ _ Eu) as [F _].
      rewrite Eu. unfold find_pallet in *. cbn [tabs pallets pallet_scans].
      split; [reflexivity|]. split; [|split; [|split]].
      * destruct (@updated_first _ _ _ _ _ _ F Hf) as [p' [H1 H2]].
        rewrite H1. rewrite qr_update_row in H2; [symmetry; exact H2|].
        pose proof (valid_statuses Hc) as Hv. rewrite Forall_forall in Hv.
        apply Hv. destruct (filter _ _) as [|p0 l] eqn:E; [discriminate|].
        inversion Hf; subst p0.
        assert (Hin : In p (p :: l)) by (left; reflexivity).
        rewrite <- E in Hin. apply filter_In in Hin. tauto.
      * intros x Hx. rewrite (@updated_others _ _ _ _ _ _ F Hx). reflexivity.
      * exact (@updated_ids _ _ _ _ _ F).
      * reflexivity.
Qed.

Lemma qr_generation_witness :
  let p := mkPallet 1 "PLT001" "ITEM-001" "Sample Product" "100"
             (Some "BOX") (Some "250.5") (Some "2026-01-01")
             (Some "2026-04-01") "At Production" None None None 1 1 in
  consistent db1 /\ storage_faults (calm 5) = [] /\
  find_pallet "PLT001" db1 = Some p /\
  find_pallet "PLT001"
    (fst (run (generateQR (qr_image (calm 5)) PLT001) db1 (calm 5)))
  = Some (with_qr_code_url (Some "data:image/png;base64,") p).
Proof.
  intros p.
  assert (Hc : consistent db1) by exact consistent_db1.
  assert (Hf : find_pallet "PLT001" db1 = Some p) by (vm_compute; reflexivity).
  split; [exact Hc|]. split; [reflexivity|]. split; [exact Hf|].
  destruct (@qr_generation PLT001 db1 (calm 5) Hc eq_refl) as [_ H].
  destruct (H "PLT001" eq_refl eq_refl) as [_ [_ H3]].
  exact (proj1 (proj2 (H3 p "data:image/png;base64," Hf eq_refl))).
Defined.

(** *** Scans and the operators *)

Lemma recordScan_unregistered u pid b d e p s :
  storage_faults e = [] ->
  find_pallet pid d = Some p -> newStatus b = JS.Str s ->
  is_valid_status s = true ->
  existsb (String.eqb (actor_id u)) (users_flo_id d) = false ->
  run (recordScan u pid b) d e
  = (mkDb (tabs d)
          (mkSequences (pallets_id_seq (seqs d))
                       (pallet_scans_id_seq (seqs d) + 1))
          (users_flo_id d),
     Some (StorageFailure "Failed to scan pallet")).
Proof.
  intros Hq Hf Hs Hv Hflo. apply run_is.
  assert (Hinc : JS.includes validStatuses (newStatus b) = true)
    by (rewrite Hs; exact Hv).
  unfold find_pallet in Hf.
  unfold recordScan, connect. rewrite Hinc, Hs, Hq. cbn [negb].
  repeat wp_step; try discriminate;
    try match goal with
        | H : update_rows _ (scan_updates _) _ _ = _ |- _ =>
            erewrite scan_update_rows in H by eassumption;
            inversion H; subst; clear H
        end;
    try congruence; try (split; reflexivity).
  match goal with
  | H : _ && _ = true |- _ =>
      rewrite Hflo, andb_false_r in H; discriminate H
  end.
Qed.

(** X7. The scan route writes the audit row under
    [req.user.flo_id || req.user.username], and [pallet_scans.flo_id]
    references [users.flo_id].  So a scan by a user whose operator id (or,
    without one, user name) is no [users.flo_id] is never accepted and
    leaves both tables as they are; when everything else is in order (the
    pool gives a client, the storage does not fail, the pallet is stored,
    the status is one of the seven) the answer is 500 "Failed to scan
    pallet", and the rolled-back INSERT has still taken a value of the
    audit table's id sequence. *)
Theorem scan_needs_registered_operator u pid b d e :
  existsb (String.eqb (actor_id u)) (users_flo_id d) = false ->
  scan_accepted (snd (scanRoute u pid b d e)) = false /\
  tabs (fst (scanRoute u pid b d e)) = tabs d /\
  (forall p s,
     connects e = true -> storage_faults e = [] ->
     find_pallet pid d = Some p -> newStatus b = JS.Str s ->
     is_valid_status s = true ->
     snd (scanRoute u pid b d e)
     = Some (StorageFailure "Failed to scan pallet") /\
     pallet_scans_id_seq (seqs (fst (scanRoute u pid b d e)))
     = pallet_scans_id_seq (seqs d) + 1).
Proof.
  intros Hflo.
  destruct (scanRoute_cases u pid b d e) as [_ [[Hr Ht]|[p [s Hs]]]].
  - split; [exact Hr|]. split; [exact Ht|].
    intros p s Hcon Hq Hf Hn Hv. unfold scanRoute. rewrite Hcon.
    rewrite (@recordScan_unregistered u pid b d e p s Hq Hf Hn Hv Hflo).
    split; reflexivity.
  - destruct Hs as [_ [_ [_ [Hreg _]]]]. rewrite Hreg in Hflo. discriminate.
Qed.

Lemma scan_needs_registered_operator_witness :
  existsb (String.eqb (actor_id admin)) (users_flo_id db1) = false /\
  scan_accepted
    (snd (scanRoute admin "PLT001" (scan_to "At Warehouse" JS.Undefined) db1
            (calm 2))) = false /\
  tabs (fst (scanRoute admin "PLT001" (scan_to "At Warehouse" JS.Undefined)
               db1 (calm 2))) = tabs db1.
Proof.
  split; [reflexivity|].
  pose proof (@scan_needs_registered_operator admin "PLT001"
                (scan_to "At Warehouse" JS.Undefined) db1 (calm 2) eq_refl)
    as [H1 [H2 _]].
  split; [exact H1 | exact H2].
Defined.

(** *** The serial ids *)

Ltac seqs_leaf :=
  unfold seqs_outcome, with_seqs, StorageFailure, PalletNotFound, DuplicateId,
    RequiredFields, InvalidStatus;
  cbn [pallet_created scan_accepted seqs pallets_id_seq pallet_scans_id_seq];
  repeat split; intros; try discriminate; try reflexivity; lia.

Lemma createPallet_seqs b d e :
  seqs_outcome d (fst (run (createPallet b) d e))
                 (snd (run (createPallet b) d e)).
Proof.
  apply (run_wp (createPallet b) d e (seqs_outcome d)).
  unfold createPallet, connect.
  repeat wp_step; try discriminate; seqs_leaf.
Qed.

Lemma recordScan_seqs u pid b d e :
  seqs_outcome d (fst (run (recordScan u pid b) d e))
                 (snd (run (recordScan u pid b) d e)).
Proof.
  apply (run_wp (recordScan u pid b) d e (seqs_outcome d)).
  unfold recordScan, connect.
  repeat wp_step; try discriminate; seqs_leaf.
Qed.

Lemma deletePallet_seqs pid d e :
  seqs (fst (run (deletePallet pid) d e)) = seqs d.
Proof.
  apply (run_wp (deletePallet pid) d e (fun d' _ => seqs d' = seqs d)).
  unfold deletePallet, connect.
  repeat wp_step; reflexivity.
Qed.

Lemma assign_birth t a p p' : assign t a p = Some p' -> birth p' = birth p.
Proof.
  destruct a as [[] [v|]|]; cbn; intros H; inversion H; reflexivity.
Qed.

Lemma assign_all_birth t sets p p' :
  assign_all t sets p = Some p' -> birth p' = birth p.
Proof.
  revert p. induction sets as [|a sets IH]; cbn; intros p H.
  - inversion H; reflexivity.
  - destruct (assign t a p) as [p1|] eqn:E; [|discriminate].
    rewrite (IH _ H). exact (assign_birth _ _ _ E).
Qed.

Lemma update_row_birth t sets p p' :
  update_row t sets p = Some p' -> birth p' = birth p.
Proof.
  unfold update_row. destruct (assign_all t sets p) as [q|] eqn:E; [|discriminate].
  destruct (is_valid_status (status q)); [|discriminate].
  intros H; inversion H; subst. eapply assign_all_birth; eassumption.
Qed.

Lemma updated_births t sets param rows rows' :
  Forall2 (row_updated t sets param) rows rows' ->
  map birth rows' = map birth rows.
Proof.
  induction 1 as [|p p' rows rows' Hp _ IH]; [reflexivity|].
  cbn [map]. rewrite IH. f_equal. unfold row_updated in Hp.
  destruct (pallet_id_is param p); [|subst; reflexivity].
  eapply update_row_birth; eassumption.
Qed.

Lemma scanned_birth t b s p : birth (scanned t b s p) = birth p.
Proof. unfold scanned. destruct (JS.truthy _); reflexivity. Qed.

Lemma scanned_births pid t b s rows :
  map birth (map (fun q => if pallet_id_is (Some pid) q
                           then scanned t b s q else q) rows)
  = map birth rows.
Proof.
  rewrite map_map. apply map_ext. intros q.
  destruct (pallet_id_is _ q); [apply scanned_birth | reflexivity].
Qed.

Lemma created_row_id d t b row :
  created_row d t b = Some row -> id row = pallets_id_seq (seqs d) + 1.
Proof.
  unfold created_row.
  destruct (JS.prepareValue (palletId b)); [|discriminate].
  destruct (JS.prepareValue (itemCode b)); [|discriminate].
  destruct (JS.prepareValue (itemName b)); [|discriminate].
  destruct (JS.prepareValue (itemQuantity b)); [|discriminate].
  intros H; inversion H; reflexivity.
Qed.

Lemma rows_outcome_same d d' :
  tabs d' = tabs d ->
  pallets_id_seq (seqs d) <= pallets_id_seq (seqs d') ->
  pallet_scans_id_seq (seqs d) <= pallet_scans_id_seq (seqs d') ->
  rows_outcome d d'.
Proof.
  intros Ht H1 H2. unfold rows_outcome. rewrite Ht. auto.
Qed.

Lemma scanRoute_seqs u pid b d e :
  seqs_outcome d (fst (scanRoute u pid b d e)) (snd (scanRoute u pid b d e)).
Proof.
  unfold scanRoute. destruct (connects e); [apply recordScan_seqs|].
  seqs_leaf.
Qed.

Lemma serve_rows u r d e : rows_outcome d (fst (serve u r d e)).
Proof.
  assert (Hrefl : rows_outcome d d)
    by (apply rows_outcome_same; [reflexivity|lia|lia]).
  assert (Hupd : forall d' t sets x rows' returned,
            seqs d' = seqs d ->
            update_rows t sets (Some x) (pallets (tabs d))
            = Some (rows', returned) ->
            tabs d' = mkTables rows' (pallet_scans (tabs d)) ->
            rows_outcome d d').
  { intros d' t sets x rows' ret Hs Hu Ht.
    destruct (@update_rows_spec _ _ _ _ _ _ Hu) as [F _].
    unfold rows_outcome. rewrite Ht, Hs. cbn [pallets pallet_scans].
    split; [left; exact (@updated_births _ _ _ _ _ F)|].
    split; [left; reflexivity|]. lia. }
  destruct r as [b|pid|pid b|pid|pid b|pid|b]; cbn [serve].
  - destruct (isAdmin_cases u (run (createPallet b)) d e) as [E|E];
      rewrite E; [exact Hrefl|].
    destruct (createPallet_seqs b d e) as [S1 [S2 [S3 _]]].
    destruct (createPallet_cases b d e) as [_ [[_ Ht]|[row Hrow]]].
    + apply rows_outcome_same; assumption.
    + destruct Hrow as [Hc [_ [Hr Ht]]]. unfold rows_outcome.
      rewrite Ht. cbn [pallets pallet_scans].
      split; [|split; [left; reflexivity | split; assumption]].
      right; right. exists row. split; [reflexivity|].
      split; [exact (created_row_id _ _ _ Hc)|].
      apply S3. rewrite Hr. reflexivity.
  - rewrite getPallet_reads. exact Hrefl.
  - destruct (scanRoute_seqs u pid b d e) as [S1 [S2 [_ S4]]].
    destruct (scanRoute_cases u pid b d e) as [_ [[_ Ht]|[p [s Hs]]]].
    + apply rows_outcome_same; assumption.
    + destruct Hs as [_ [_ [_ [_ [Hr Ht]]]]]. unfold rows_outcome.
      rewrite Ht. cbn [pallets pallet_scans].
      split; [left; apply scanned_births|].
      split; [|split; assumption].
      right; right. eexists. split; [reflexivity|].
      split; [reflexivity|]. apply S4. rewrite Hr. reflexivity.
  - rewrite getHistory_reads. exact Hrefl.
  - destruct (isAdmin_cases u (run (updatePallet pid b)) d e) as [E|E];
      rewrite E; [exact Hrefl|].
    destruct (updatePallet_cases pid b d e)
      as [_ [Hs [[Ht _]|[rows' [p' [rest [Hu [Ht _]]]]]]]].
    + apply rows_outcome_same; [exact Ht | rewrite Hs; lia | rewrite Hs; lia].
    + exact (Hupd _ _ _ _ _ _ Hs Hu Ht).
  - destruct (isAdmin_cases u (run (deletePallet pid)) d e) as [E|E];
      rewrite E; [exact Hrefl|].
    pose proof (deletePallet_seqs pid d e) as Hs.
    destruct (deletePallet_cases pid d e) as [_ [[_ Ht]|[_ [_ Ht]]]].
    + apply rows_outcome_same; [exact Ht | rewrite Hs; lia | rewrite Hs; lia].
    + unfold rows_outcome. rewrite Ht, Hs. unfold deleted.
      cbn [pallets pallet_scans].
      split; [right; left; eexists; reflexivity|].
      split; [right; left; eexists; reflexivity|]. lia.
  - destruct (isAdmin_cases u (run (generateQR (qr_image e) b)) d e) as [E|E];
      rewrite E; [exact Hrefl|].
    destruct (generateQR_cases (qr_image e) b d e)
      as [_ [Hs [[Ht _]|[x [im [p [rows' [ret [_ [_ [_ [Hu [Ht _]]]]]]]]]]]]].
    + apply rows_outcome_same; [exact Ht | rewrite Hs; lia | rewrite Hs; lia].
    + exact (Hupd _ _ _ _ _ _ Hs Hu Ht).
Qed.

Lemma handed_out_mono n m ids :
  n <= m -> handed_out n ids -> handed_out m ids.
Proof.
  intros Hnm [Hs Hb]. split; [exact Hs|].
  eapply Forall_impl; [|exact Hb]. cbn. intros; lia.
Qed.

Lemma handed_out_filter A (f : A -> Z) (g : A -> bool) n l :
  handed_out n (map f l) -> handed_out n (map f (filter g l)).
Proof.
  intros [Hs Hb]. split.
  - induction l as [|x l IH]; cbn [map filter] in *; [constructor|].
    inversion Hs as [|? ? Hs' Hx]; subst. inversion Hb as [|? ? _ Hb']; subst.
    destruct (g x); [|auto]. cbn [map]. constructor; [auto|].
    rewrite Forall_forall in *. intros i Hi. apply Hx.
    apply in_map_iff in Hi. destruct Hi as [y [<- Hy]].
    apply filter_In in Hy. apply in_map. tauto.
  - rewrite Forall_forall in *. intros i Hi. apply Hb.
    apply in_map_iff in Hi. destruct Hi as [y [<- Hy]].
    apply filter_In in Hy. apply in_map. tauto.
Qed.

Lemma handed_out_next n ids :
  handed_out n ids -> handed_out (n + 1) (ids ++ [n + 1]).
Proof.
  intros [Hs Hb]. split.
  - induction ids as [|i ids IH]; cbn [app].
    + repeat constructor.
    + inversion Hs as [|? ? Hs' Hi]; subst. inversion Hb as [|? ? Hin Hb']; subst.
      constructor; [auto|]. apply Forall_app. split; [exact Hi|].
      constructor; [lia | constructor].
  - apply Forall_app. split.
    + eapply Forall_impl; [|exact Hb]. cbn. intros; lia.
    + constructor; [lia | constructor].
Qed.

Lemma ids_of_births rows :
  map id rows = map (fun x => fst (fst x)) (map birth rows).
Proof. rewrite map_map. reflexivity. Qed.

Lemma serial_empty flo_ids : serial (db_empty flo_ids).
Proof. repeat constructor. Qed.

Lemma serve_serial u r d e : serial d -> serial (fst (serve u r d e)).
Proof.
  intros [Hp Hs].
  destruct (serve_rows u r d e) as [Rp [Rs [L1 L2]]]. split.
  - destruct Rp as [E|[[g E]|[row [E [Hi Hq]]]]].
    + rewrite ids_of_births, E, <- ids_of_births.
      exact (handed_out_mono L1 Hp).
    + rewrite E. apply handed_out_filter. exact (handed_out_mono L1 Hp).
    + rewrite E, Hq, map_app. cbn [map]. rewrite Hi.
      apply handed_out_next. exact Hp.
  - destruct Rs as [E|[[g E]|[row [E [Hi Hq]]]]].
    + rewrite E. exact (handed_out_mono L2 Hs).
    + rewrite E. apply handed_out_filter. exact (handed_out_mono L2 Hs).
    + rewrite E, Hq, map_app. cbn [map]. rewrite Hi.
      apply handed_out_next. exact Hs.
Qed.

Lemma rows_outcome_kept d d' : rows_outcome d d' -> rows_kept d d'.
Proof.
  intros [Rp [Rs [L1 L2]]]. split; [|split; [|split; assumption]].
  - intros p' Hin. destruct Rp as [E|[[g E]|[row [E [Hi Hq]]]]].
    + left. assert (Hb : In (birth p') (map birth (pallets (tabs d))))
        by (rewrite <- E; apply in_map; exact Hin).
      apply in_map_iff in Hb. destruct Hb as [p [Hb Hp]]. eauto.
    + left. rewrite E in Hin. apply filter_In in Hin. exists p'. tauto.
    + rewrite E in Hin. apply in_app_or in Hin.
      destruct Hin as [Hin|[<-|[]]]; [left; eauto | right; lia].
  - intros s' Hin. destruct Rs as [E|[[g E]|[row [E [Hi Hq]]]]].
    + left. rewrite <- E. exact Hin.
    + left. rewrite E in Hin. apply filter_In in Hin. tauto.
    + rewrite E in Hin. apply in_app_or in Hin.
      destruct Hin as [Hin|[<-|[]]]; [left; exact Hin | right; lia].
Qed.

Lemma rows_kept_trans d1 d2 d3 :
  rows_kept d1 d2 -> rows_kept d2 d3 -> rows_kept d1 d3.
Proof.
  intros [P1 [S1 [A1 B1]]] [P2 [S2 [A2 B2]]].
  split; [|split; [|split; lia]].
  - intros p3 H3. destruct (P2 _ H3) as [[p2 [H2 E2]]|Hlt]; [|right; lia].
    destruct (P1 _ H2) as [[p1 [H1 E1]]|Hlt].
    + left. exists p1. split; [exact H1 | congruence].
    + right. assert (id p2 = id p3) by (unfold birth in E2; congruence). lia.
  - intros s3 H3. destruct (S2 _ H3) as [H2|Hlt]; [|right; lia].
    destruct (S1 _ H2) as [H1|Hlt]; [left; exact H1 | right; lia].
Qed.

Lemma serve_all_kept calls : forall d, rows_kept d (serve_all d calls).
Proof.
  induction calls as [|c calls IH]; intros d; cbn [serve_all].
  - apply rows_outcome_kept, rows_outcome_same; [reflexivity|lia|lia].
  - eapply rows_kept_trans; [|apply IH].
    apply rows_outcome_kept. apply serve_rows.
Qed.

Lemma handed_out_unique A (f : A -> Z) n l x y :
  handed_out n (map f l) -> In x l -> In y l -> f x = f y -> x = y.
Proof.
  intros [Hs _]. induction l as [|z l IH]; intros Hx Hy E; [destruct Hx|].
  cbn [map] in Hs. inversion Hs as [|? ? Hs' Hz]; subst.
  rewrite Forall_forall in Hz.
  destruct Hx as [->|Hx], Hy as [->|Hy]; [reflexivity | | | auto].
  - specialize (Hz (f y) (in_map f _ _ Hy)). lia.
  - specialize (Hz (f x) (in_map f _ _ Hx)). lia.
Qed.

Lemma serial_db1 : serial db1.
Proof.
  exact (serve_serial admin (POST_pallets PLT001) (calm 1)
           (serial_empty ["FLO001"])).
Qed.

(** X8. The serial ids.  Whatever requests are served, with whatever
    rollbacks and storage failures, the ids of both tables grow along the
    table (so none is given twice) and none is beyond its sequence; an
    empty database starts that way. *)
Theorem ids_are_serial calls d :
  serial d -> serial (serve_all d calls).
Proof.
  revert d. induction calls as [|c calls IH]; intros d H; [exact H|].
  cbn [serve_all]. apply IH. unfold serve_call.
  apply serve_serial. exact H.
Qed.

Lemma ids_are_serial_witness :
  serial db0 /\
  serial (serve_all db0
            (mkCall admin (POST_pallets PLT001) (calm 1) :: two_scans)).
Proof.
  assert (H : serial db0) by apply serial_empty.
  split; [exact H|].
  exact (@ids_are_serial
           (mkCall admin (POST_pallets PLT001) (calm 1) :: two_scans) db0 H).
Defined.

(** X9. No route rewrites what identifies a row.  Through any sequence of
    requests, a pallet found under the id of an earlier one has its
    [pallet_id] and creation time, and an audit row found under the id of
    an earlier one is that row, unchanged: an id is never given to another
    row, not even after a deletion. *)
Theorem ids_keep_their_rows calls d :
  serial d ->
  (forall p p', In p (pallets (tabs d)) ->
     In p' (pallets (tabs (serve_all d calls))) -> id p' = id p ->
     pallet_id p' = pallet_id p /\ created_at p' = created_at p) /\
  (forall s s', In s (pallet_scans (tabs d)) ->
     In s' (pallet_scans (tabs (serve_all d calls))) ->
     scan_id s' = scan_id s -> s' = s).
Proof.
  intros [Hp Hs]. destruct (serve_all_kept calls d) as [Kp [Ks _]]. split.
  - intros p p' Hin Hin' E. destruct (Kp _ Hin') as [[q [Hq Eq]]|Hlt].
    + assert (q = p).
      { apply (@handed_out_unique _ id _ _ _ _ Hp Hq Hin).
        unfold birth in Eq. congruence. }
      subst q. unfold birth in Eq. inversion Eq. auto.
    + exfalso. destruct Hp as [_ Hb]. rewrite Forall_forall in Hb.
      specialize (Hb (id p) (in_map id _ _ Hin)). lia.
  - intros s s' Hin Hin' E. destruct (Ks _ Hin') as [Hq|Hlt].
    + exact (@handed_out_unique _ scan_id _ _ _ _ Hs Hq Hin E).
    + exfalso. destruct Hs as [_ Hb]. rewrite Forall_forall in Hb.
      specialize (Hb (scan_id s) (in_map scan_id _ _ Hin)). lia.
Qed.

Lemma ids_keep_their_rows_witness :
  serial db1 /\
  forall p p', In p (pallets (tabs db1)) ->
    In p' (pallets (tabs (serve_all db1 two_scans))) -> id p' = id p ->
    pallet_id p' = pallet_id p /\ created_at p' = created_at p.
Proof.
  assert (H : serial db1) by exact serial_db1.
  split; [exact H|].
  exact (proj1 (@ids_keep_their_rows two_scans db1 H)).
Defined.

(** *** What operators can change *)

Lemma scanned_description t b s p :
  description (scanned t b s p) = description p.
Proof. unfold scanned. destruct (JS.truthy _); reflexivity. Qed.

Lemma isAdmin_refuses u next d e :
  role u <> "admin" ->
  isAdmin u next d e
  = (d, Some (mkResponse 403 (Error "Admin access required"))).
Proof.
  intros H. unfold isAdmin. apply String.eqb_neq in H. rewrite H. reflexivity.
Qed.

(** X10. Only administrators administer.  Requests of users whose role is
    not [admin] never add, remove or reorder pallets and never change a
    column other than the three a scan writes (status, warehouse location,
    [updated_at]); the audit table only grows.  The four administrative
    routes answer such a user 403 and leave the database as it is. *)
Theorem operators_only_scan calls d :
  Forall (fun c => role (sender c) <> "admin") calls ->
  map description (pallets (tabs (serve_all d calls)))
  = map description (pallets (tabs d)) /\
  (exists rows,
     pallet_scans (tabs (serve_all d calls))
     = (pallet_scans (tabs d) ++ rows)%list) /\
  (Forall (fun c => is_scan (what c) = false) calls ->
   serve_all d calls = d).
Proof.
  intros Hops.
  assert (Hone : forall u r d0 e, role u <> "admin" ->
            (map description (pallets (tabs (fst (serve u r d0 e))))
             = map description (pallets (tabs d0)) /\
             exists rows, pallet_scans (tabs (fst (serve u r d0 e)))
                          = (pallet_scans (tabs d0) ++ rows)%list) /\
            (is_scan r = false -> fst (serve u r d0 e) = d0)).
  { intros u r d0 e Hu.
    assert (Hsame : forall d', d' = d0 ->
              map description (pallets (tabs d'))
              = map description (pallets (tabs d0)) /\
              exists rows, pallet_scans (tabs d')
                           = (pallet_scans (tabs d0) ++ rows)%list).
    { intros d' ->. split; [reflexivity|]. exists []. symmetry; apply app_nil_r. }
    destruct r as [b|pid|pid b|pid|pid b|pid|b]; cbn [serve is_scan];
      rewrite ?(@isAdmin_refuses u _ d0 e Hu), ?getPallet_reads, ?getHistory_reads;
      cbn [fst]; try (split; [apply Hsame; reflexivity | intros _; reflexivity]).
    split; [|intros H; discriminate H].
    destruct (scanRoute_cases u pid b d0 e) as [_ [[_ Ht]|[p [s Hs]]]].
    - rewrite Ht. split; [reflexivity|]. exists []. symmetry; apply app_nil_r.
    - destruct Hs as [_ [_ [_ [_ [_ Ht]]]]]. rewrite Ht.
      cbn [pallets pallet_scans]. split; [|eexists; reflexivity].
      rewrite map_map. apply map_ext. intros q.
      destruct (pallet_id_is _ q); [apply scanned_description | reflexivity]. }
  split; [|split].
  - revert d. induction Hops as [|c calls Hc _ IH]; intros d; [reflexivity|].
    cbn [serve_all]. unfold serve_call. rewrite IH.
    apply (Hone _ _ _ _ Hc).
  - revert d. induction Hops as [|c calls Hc _ IH]; intros d.
    + exists []. symmetry; apply app_nil_r.
    + cbn [serve_all]. unfold serve_call.
      destruct (IH (fst (serve (sender c) (what c) d (during c)))) as [r2 E2].
      destruct (proj2 (proj1 (Hone (sender c) (what c) d (during c) Hc)))
        as [r1 E1].
      exists (r1 ++ r2)%list. rewrite E2, E1, app_assoc. reflexivity.
  - revert d. induction Hops as [|c calls Hc _ IH]; intros d Hs; [reflexivity|].
    inversion Hs as [|? ? H1 H2]; subst. cbn [serve_all]. unfold serve_call.
    rewrite (proj2 (Hone (sender c) (what c) d (during c) Hc) H1).
    apply IH. exact H2.
Qed.

Lemma operators_only_scan_witness :
  Forall (fun c => role (sender c) <> "admin") two_scans /\
  map description (pallets (tabs (serve_all db1 two_scans)))
  = map description (pallets (tabs db1)).
Proof.
  assert (H : Forall (fun c => role (sender c) <> "admin") two_scans)
    by (repeat constructor; discriminate).
  split; [exact H|].
  exact (proj1 (@operators_only_scan two_scans db1 H)).
Defined.

(** *** Reads after writes *)

Lemma getPallet_calm pid d e :
  storage_faults e = [] ->
  run (getPallet pid) d e
  = (d, Some match find_pallet pid d with
             | Some p => mkResponse 200 (PalletRow p)
             | None => PalletNotFound
             end).
Proof.
  intros Hq. destruct d as [tb sq fl]. destruct e as [t c fs q].
  cbn [storage_faults] in Hq. subst fs.
  unfold run, getPallet, find_pallet, connect, try_catch, bind, query, send,
    execute, select_pallets, take_fault.
  cbn [faults clock server users_flo_id seqs visible txn tabs now
       storage_faults store].
  destruct (filter _ _); reflexivity.
Qed.

(** X11. A read finds what the write answered.  When POST /api/pallets
    answers 201 with a row, when an accepted scan or a PUT answers 200 with
    a row, a GET of that pallet right after (the storage not failing)
    answers 200 with that very row; after a DELETE answered 200 it answers
    404. *)
Theorem reads_follow_writes d e e' :
  storage_faults e' = [] ->
  (forall b row,
     snd (run (createPallet b) d e)
     = Some (mkResponse 201 (PalletCreated (Some row))) ->
     snd (run (getPallet (pallet_id row)) (fst (run (createPallet b) d e)) e')
     = Some (mkResponse 200 (PalletRow row))) /\
  (forall u pid b row previous new,
     snd (scanRoute u pid b d e)
     = Some (mkResponse 200 (PalletScanned (Some row) previous new)) ->
     snd (run (getPallet pid) (fst (scanRoute u pid b d e)) e')
     = Some (mkResponse 200 (PalletRow row))) /\
  (forall pid b row,
     snd (run (updatePallet pid b) d e)
     = Some (mkResponse 200 (PalletUpdated (Some row))) ->
     snd (run (getPallet pid) (fst (run (updatePallet pid b) d e)) e')
     = Some (mkResponse 200 (PalletRow row))) /\
  (forall pid,
     snd (run (deletePallet pid) d e)
     = Some (mkResponse 200 (Message "Pallet deleted successfully")) ->
     snd (run (getPallet pid) (fst (run (deletePallet pid) d e)) e')
     = Some PalletNotFound).
Proof.
  intros Hq. split; [|split; [|split]].
  - intros b row Hr. rewrite (@getPallet_calm _ _ e' Hq). cbn [snd].
    destruct (createPallet_cases b d e) as [_ [[Hn _]|[row' Hrow]]].
    + rewrite Hr in Hn. discriminate.
    + destruct Hrow as [_ [Hfree [Hr' Ht]]].
      assert (row' = row) by congruence. subst row'.
      unfold find_pallet. rewrite Ht. cbn [pallets].
      rewrite filter_app, Hfree. cbn [filter app]. unfold pallet_id_is.
      rewrite String.eqb_refl. reflexivity.
  - intros u pid b row previous new Hr.
    rewrite (@getPallet_calm _ _ e' Hq). cbn [snd].
    destruct (scanRoute_cases u pid b d e) as [_ [[Hn _]|[p [s Hs]]]].
    + rewrite Hr in Hn. discriminate.
    + destruct Hs as [Hf [_ [_ [_ [Hr' Ht]]]]].
      unfold find_pallet at 1. rewrite Ht. cbn [pallets].
      rewrite (find_pallet_scanned _ _ _ _ _ Hf). congruence.
  - intros pid b row Hr. rewrite (@getPallet_calm _ _ e' Hq). cbn [snd].
    destruct (updatePallet_cases pid b d e)
      as [_ [_ [[_ Hn]|[rows' [p' [rest [Hu [Ht Hr']]]]]]]].
    + exfalso. exact (Hn _ Hr).
    + destruct (@update_rows_spec _ _ _ _ _ _ Hu) as [_ Hret].
      unfold find_pallet. rewrite Ht. cbn [pallets]. rewrite <- Hret.
      cbn [hd_error]. congruence.
  - intros pid Hr. rewrite (@getPallet_calm _ _ e' Hq). cbn [snd].
    destruct (deletePallet_cases pid d e) as [_ [[Hn _]|[_ [_ Ht]]]].
    + rewrite Hr in Hn. discriminate.
    + unfold find_pallet. rewrite Ht, deleted_pallet. reflexivity.
Qed.

Lemma reads_follow_writes_witness :
  storage_faults (calm 2) = [] /\
  snd (run (getPallet "PLT001") db1 (calm 2))
  = Some (mkResponse 200
            (PalletRow
               (mkPallet 1 "PLT001" "ITEM-001" "Sample Product" "100"
                  (Some "BOX") (Some "250.5") (Some "2026-01-01")
                  (Some "2026-04-01") "At Production" None None None 1 1))).
Proof.
  split; [reflexivity|].
  exact (proj1 (@reads_follow_writes db0 (calm 1) (calm 2) eq_refl) PLT001 _
               eq_refl).
Defined.

(** *** POST /api/qr/generate-bulk *)

Lemma qr_touched_refl elements rows : Forall2 (qr_touched elements) rows rows.
Proof. induction rows; constructor; [left; reflexivity | assumption]. Qed.

Lemma qr_touched_trans elements l1 l2 :
  Forall2 (qr_touched elements) l1 l2 ->
  forall l3, Forall2 (qr_touched elements) l2 l3 ->
             Forall2 (qr_touched elements) l1 l3.
Proof.
  induction 1 as [|p1 p2 l1 l2 H12 _ IH]; intros l3 H; inversion H; subst;
    constructor; [|auto].
  destruct H12 as [->|[Hl [i1 ->]]]; [assumption|].
  match goal with H : qr_touched _ _ _ |- _ => destruct H as [->|[_ [i2 ->]]] end.
  - right. eauto.
  - right. split; [exact Hl|]. exists i2. reflexivity.
Qed.

Lemma qr_rows_touched t image pid elements rows rows' returned :
  existsb (fun v => match v with Some x => String.eqb pid x | None => false end)
          elements = true ->
  update_rows t [SetParam col_qr_code_url (Some image)] (Some pid) rows
  = Some (rows', returned) ->
  Forall2 (qr_touched elements) rows rows'.
Proof.
  intros Hin. revert rows' returned.
  induction rows as [|p rows IH]; cbn [update_rows]; intros rows' returned H.
  - inversion H. constructor.
  - destruct (update_rows _ _ _ rows) as [[r1 r2]|]; [|discriminate].
    specialize (IH _ _ eq_refl).
    destruct (pallet_id_is (Some pid) p) eqn:E.
    + unfold update_row in H. cbn [assign_all assign] in H.
      destruct (is_valid_status _); [|discriminate]. inversion H; subst.
      constructor; [|exact IH]. right. split; [|eauto].
      unfold listed. apply existsb_exists. apply existsb_exists in Hin.
      destruct Hin as [[x|] [Hx Ex]]; [|discriminate].
      exists (Some x). split; [exact Hx|]. apply String.eqb_eq in Ex. subst x.
      exact E.
    + inversion H; subst. constructor; [left; reflexivity | exact IH].
Qed.

Lemma bulk_frame_refl elements c : txn c = None -> bulk_frame elements c c.
Proof.
  intros H. unfold bulk_frame. repeat split; auto. apply qr_touched_refl.
Qed.

Lemma bulk_frame_trans elements c1 c2 c3 :
  bulk_frame elements c1 c2 -> bulk_frame elements c2 c3 ->
  bulk_frame elements c1 c3.
Proof.
  intros [A1 [A2 [A3 [A4 [A5 A6]]]]] [B1 [B2 [B3 [B4 [B5 B6]]]]].
  unfold bulk_frame. repeat split; try congruence.
  exact (qr_touched_trans A6 B6).
Qed.

Lemma generate_one_frame encode elements p c :
  txn c = None -> listed elements p = true ->
  bulk_frame elements c (snd (generate_one encode p c)).
Proof.
  intros Ht Hl. unfold generate_one.
  destruct (encode p) as [image|]; [|apply bulk_frame_refl; exact Ht].
  destruct c as [sv tx ck fs]. cbn [txn] in Ht. subst tx.
  unfold bind, query, send, take_fault, execute, update_pallets, ret.
  cbn [faults server txn clock visible].
  assert (Hin : existsb (fun v => match v with
                                  | Some x => String.eqb (pallet_id p) x
                                  | None => false
                                  end) elements = true).
  { unfold listed in Hl. apply existsb_exists in Hl. apply existsb_exists.
    destruct Hl as [[x|] [Hx Ex]]; [|discriminate].
    exists (Some x). split; [exact Hx | exact Ex]. }
  destruct fs as [|[] fs]; cbn [fst snd faults server txn clock visible];
    try (unfold bulk_frame; cbn [txn clock server];
         repeat split; try reflexivity; apply qr_touched_refl).
  all: destruct (update_rows ck _ _ (pallets (tabs sv))) as [[rows' ret']|] eqn:Eu;
    cbn [fst snd store txn clock server with_seqs tabs seqs users_flo_id
         pallets pallet_scans];
    unfold bulk_frame; cbn [txn clock server with_seqs tabs seqs users_flo_id
                            pallets pallet_scans];
    repeat split; try reflexivity;
    first [eapply qr_rows_touched; eassumption | apply qr_touched_refl].
Qed.

Lemma Promise_all_frame encode elements rows :
  forall c,
    txn c = None -> Forall (fun p => listed elements p = true) rows ->
    bulk_frame elements c (snd (Promise_all (map (generate_one encode) rows) c)).
Proof.
  induction rows as [|p rows IH]; intros c Ht Hl; cbn [map Promise_all].
  - apply bulk_frame_refl. exact Ht.
  - inversion Hl as [|? ? Hp Hrest]; subst.
    pose proof (@generate_one_frame encode elements p c Ht Hp) as F1.
    destruct (generate_one encode p c) as [[a|] c1]; cbn [snd] in F1.
    + pose proof (IH c1 (proj1 F1) Hrest) as F2.
      destruct (Promise_all _ c1) as [[l|] c2]; cbn [snd] in *;
        exact (bulk_frame_trans F1 F2).
    + cbn [snd]. exact (bulk_frame_trans F1 (IH c1 (proj1 F1) Hrest)).
Qed.

Lemma run_as_wp A (h : pg A) d e (P : db -> option A -> Prop) :
  wp h (connect d e)
     (fun o c => P (server c) match o with
                              | Returned a => Some a
                              | Thrown => None
                              end) ->
  P (fst (run_as h d e)) (snd (run_as h d e)).
Proof.
  unfold wp, run_as. destruct (h (connect d e)) as [[r|] c]; exact (fun H => H).
Qed.

Lemma generateBulkQR_cases encode ids d e :
  bulk_outcome ids d (fst (run_as (generateBulkQR encode ids) d e)).
Proof.
  apply (run_as_wp (generateBulkQR encode ids) d e
           (fun d' _ => bulk_outcome ids d d')).
  assert (Hsame : forall d', users_flo_id d' = users_flo_id d ->
            seqs d' = seqs d -> tabs d' = tabs d -> bulk_outcome ids d d').
  { intros d' H1 H2 H3. unfold bulk_outcome. rewrite H3.
    repeat split; auto. apply qr_touched_refl. }
  unfold generateBulkQR, connect.
  destruct ids as [|[|v elements]]; cbn [elements_of] in *.
  1,2: repeat wp_step; apply Hsame; reflexivity.
  unfold select_pallets_any.
  repeat wp_step; try (apply Hsame; reflexivity).
  all: match goal with
       | H : filter (listed ?els) ?rows = ?p :: ?l
         |- wp (Promise_all (map _ (?p :: ?l))) ?c _ =>
           assert (Hl : Forall (fun q => listed els q = true) (p :: l))
             by (rewrite <- H; apply Forall_forall; intros q Hq;
                 apply filter_In in Hq; tauto);
           pose proof (@Promise_all_frame encode els (p :: l) c eq_refl Hl)
             as [_ [_ [F1 [F2 [F3 F4]]]]];
           unfold wp;
           destruct (Promise_all (map (generate_one encode) (p :: l)) c)
             as [[qs|] c'];
           cbn [fst snd server tabs seqs users_flo_id pallets pallet_scans] in *
       end.
  all: repeat wp_step; unfold bulk_outcome; auto.
Qed.

Lemma bulkRoute_cases encode u ids d e :
  bulk_outcome ids d (fst (bulkRoute encode u ids d e)).
Proof.
  unfold bulkRoute. destruct (negb _); [|apply generateBulkQR_cases].
  unfold bulk_outcome. cbn [fst]. repeat split; auto. apply qr_touched_refl.
Qed.

Lemma key_touched elements rows rows' :
  Forall2 (qr_touched elements) rows rows' ->
  map key rows' = map key rows /\ map birth rows' = map birth rows.
Proof.
  induction 1 as [|p p' rows rows' Hp _ [IH1 IH2]]; [split; reflexivity|].
  cbn [map]. rewrite IH1, IH2.
  destruct Hp as [->|[_ [image ->]]]; split; reflexivity.
Qed.

(** X18. POST /api/qr/generate-bulk writes stored QR codes and nothing
    else.  Whoever sends it, whatever the array, the encoder and the
    storage do, and although the branches of its [Promise.all] run to
    their end when one of them has thrown: the users, the sequences and the
    audit table are as before, the rows of [pallets] are the same rows in
    the same order, each either untouched or, when its [pallet_id] is in
    the array, with a new [qr_code_url] and no other change.  So a
    consistent database stays consistent, and the serial ids stay serial.
    A user who is no administrator is refused and changes nothing. *)
Theorem bulk_generation_writes_qr_codes_only encode u ids d e :
  users_flo_id (fst (bulkRoute encode u ids d e)) = users_flo_id d /\
  seqs (fst (bulkRoute encode u ids d e)) = seqs d /\
  pallet_scans (tabs (fst (bulkRoute encode u ids d e)))
  = pallet_scans (tabs d) /\
  Forall2 (qr_touched (elements_of ids)) (pallets (tabs d))
          (pallets (tabs (fst (bulkRoute encode u ids d e)))) /\
  (consistent d -> consistent (fst (bulkRoute encode u ids d e))) /\
  (serial d -> serial (fst (bulkRoute encode u ids d e))) /\
  (role u <> "admin" ->
   bulkRoute encode u ids d e
   = (d, Some (mkBulkResponse 403 (BulkError "Admin access required")))).
Proof.
  destruct (bulkRoute_cases encode u ids d e) as [H1 [H2 [H3 F]]].
  destruct (key_touched F) as [K1 K2].
  split; [exact H1|]. split; [exact H2|]. split; [exact H3|].
  split; [exact F|]. split; [|split].
  - apply consistent_keeps. unfold keeps_keys. auto.
  - intros [S1 S2]. split.
    + rewrite H2, ids_of_births, K2, <- ids_of_births. exact S1.
    + rewrite H2, H3. exact S2.
  - intros Hu. unfold bulkRoute. apply String.eqb_neq in Hu. rewrite Hu.
    reflexivity.
Qed.

Lemma branch_on_status encode q p : status (branch_on encode q p) = status q.
Proof.
  unfold branch_on. destruct (pallet_id_is _ q); [|reflexivity].
  destruct (encode p); reflexivity.
Qed.

Lemma generate_one_calm encode p c :
  txn c = None -> faults c = [] ->
  Forall (fun q => is_valid_status (status q) = true)
         (pallets (tabs (server c))) ->
  fst (generate_one encode p c)
  = match qr_entry encode p with
    | Some entry => Returned entry
    | None => Thrown
    end /\
  calm_frame c (snd (generate_one encode p c)) /\
  pallets (tabs (server (snd (generate_one encode p c))))
  = map (fun q => branch_on encode q p) (pallets (tabs (server c))).
Proof.
  intros Ht Hf Hv. destruct c as [sv tx ck fs]. cbn [txn faults server] in *.
  subst tx fs. unfold generate_one, qr_entry, calm_frame, branch_on.
  destruct (encode p) as [image|] eqn:Ee; cbn [option_map fst snd throw].
  - unfold bind, query, send, take_fault, execute, update_pallets, ret.
    cbn [faults server txn clock visible].
    rewrite (@update_rows_map_in ck [SetParam col_qr_code_url (Some image)]
               (Some (pallet_id p)) (with_qr_code_url (Some image)));
      [|intros q Hq _; apply qr_update_row; rewrite Forall_forall in Hv; auto].
    cbn [store txn server clock faults fst snd tabs seqs users_flo_id pallets
         pallet_scans].
    repeat split; reflexivity.
  - unfold throw. cbn [fst snd txn faults clock server].
    repeat split; try reflexivity.
    rewrite <- (map_id (pallets (tabs sv))) at 1.
    apply map_ext. intros q. destruct (pallet_id_is _ q); reflexivity.
Qed.

Lemma Promise_all_calm encode rows :
  forall c,
    txn c = None -> faults c = [] ->
    Forall (fun q => is_valid_status (status q) = true)
           (pallets (tabs (server c))) ->
    fst (Promise_all (map (generate_one encode) rows) c)
    = match all_some (map (qr_entry encode) rows) with
      | Some entries => Returned entries
      | None => Thrown
      end /\
    calm_frame c (snd (Promise_all (map (generate_one encode) rows) c)) /\
    pallets (tabs (server (snd (Promise_all (map (generate_one encode) rows) c))))
    = map (fun q => fold_left (branch_on encode) rows q)
          (pallets (tabs (server c))).
Proof.
  induction rows as [|p rows IH]; intros c Ht Hf Hv;
    cbn [map Promise_all all_some fold_left].
  - unfold ret, calm_frame. cbn [fst snd]. rewrite map_id. auto 10.
  - destruct (@generate_one_calm encode p c Ht Hf Hv) as [G1 [G2 G3]].
    destruct (generate_one encode p c) as [o c1]. cbn [fst snd] in *.
    destruct G2 as [A1 [A2 [A3 [A4 [A5 A6]]]]].
    assert (Hv1 : Forall (fun q => is_valid_status (status q) = true)
                         (pallets (tabs (server c1)))).
    { rewrite G3. apply Forall_map. eapply Forall_impl; [|exact Hv].
      intros q Hq. cbv beta. rewrite branch_on_status. exact Hq. }
    destruct (IH c1 A1 A2 Hv1) as [I1 [[B1 [B2 [B3 [B4 [B5 B6]]]]] I3]].
    assert (F : calm_frame c (snd (Promise_all (map (generate_one encode) rows)
                                                c1))).
    { unfold calm_frame. repeat split; congruence. }
    assert (E : pallets (tabs (server (snd (Promise_all
                  (map (generate_one encode) rows) c1))))
                = map (fun q => fold_left (branch_on encode) rows
                                          (branch_on encode q p))
                      (pallets (tabs (server c)))).
    { rewrite I3, G3, map_map. reflexivity. }
    subst o. destruct (qr_entry encode p) as [entry|].
    + destruct (Promise_all (map (generate_one encode) rows) c1) as [[l|] c2];
        cbn [fst snd] in *;
        destruct (all_some (map (qr_entry encode) rows)) as [es|];
        cbn [option_map]; try discriminate I1;
        (split; [congruence|]; split; [exact F | exact E]).
    + cbn [fst snd]. split; [reflexivity|]. split; [exact F | exact E].
Qed.

Lemma branches_on_row encode rows q :
  (forall p, In p rows -> pallet_id p = pallet_id q -> p = q) ->
  forall acc,
    acc = q \/
    acc = match encode q with
          | Some image => with_qr_code_url (Some image) q
          | None => q
          end ->
    fold_left (branch_on encode) rows acc
    = if existsb (fun p => String.eqb (pallet_id q) (pallet_id p)) rows
      then match encode q with
           | Some image => with_qr_code_url (Some image) q
           | None => q
           end
      else acc.
Proof.
  induction rows as [|p rows IH]; intros Hu acc Hacc; cbn [fold_left existsb];
    [reflexivity|].
  assert (Hid : pallet_id acc = pallet_id q).
  { destruct Hacc as [->| ->]; [reflexivity|]. destruct (encode q); reflexivity. }
  unfold branch_on at 2. unfold pallet_id_is. rewrite Hid.
  destruct (String.eqb (pallet_id q) (pallet_id p)) eqn:E; cbn [orb].
  - apply String.eqb_eq in E.
    rewrite (Hu p (or_introl eq_refl) (eq_sym E)).
    rewrite IH; [|intros x Hx; apply Hu; right; exact Hx|].
    + destruct (existsb _ rows); [reflexivity|].
      destruct Hacc as [->| ->]; [reflexivity|].
      destruct (encode q); reflexivity.
    + right. destruct Hacc as [->| ->]; [reflexivity|].
      destruct (encode q); reflexivity.
  - apply IH; [intros x Hx; apply Hu; right; exact Hx | exact Hacc].
Qed.

Lemma branches_encode encode elements T :
  NoDup (map pallet_id T) ->
  map (fun q => fold_left (branch_on encode) (filter (listed elements) T) q) T
  = map (encoded encode elements) T.
Proof.
  intros Hn. apply map_ext_in. intros q Hq.
  rewrite (@branches_on_row encode (filter (listed elements) T) q).
  - unfold encoded. destruct (listed elements q) eqn:El.
    + assert (E : existsb (fun p => String.eqb (pallet_id q) (pallet_id p))
                          (filter (listed elements) T) = true).
      { apply existsb_exists. exists q. split; [|apply String.eqb_refl].
        apply filter_In. auto. }
      rewrite E. reflexivity.
    + destruct (existsb _ _) eqn:E; [|reflexivity]. exfalso.
      apply existsb_exists in E. destruct E as [p [Hp Ep]].
      apply filter_In in Hp. destruct Hp as [Hp Hl].
      apply String.eqb_eq in Ep.
      rewrite (@unique_row T p q Hn Hp Hq (eq_sym Ep)) in Hl. congruence.
  - intros p Hp E. apply filter_In in Hp.
    exact (@unique_row T p q Hn (proj1 Hp) Hq E).
  - left. reflexivity.
Qed.

Lemma listed_nil rows : filter (listed []) rows = [].
Proof. induction rows; [reflexivity | assumption]. Qed.

(** X19. POST /api/qr/generate-bulk, sent by an administrator.  Something
    that is no array, or an empty array, is answered 400 and nothing is
    sent to the database.  With a storage that does not fail: when no
    stored pallet is listed the answer is 404 and the tables are
    unchanged; otherwise, in a consistent database, every listed pallet
    whose data the encoder takes is stored with its own image and nothing
    else is changed, and the answer is 200 with one entry for each listed
    pallet, in table order, or 500 when the encoder has thrown for one of
    them: the codes of the others are stored all the same. *)
Theorem bulk_generation_encodes_each_row encode u ids d e :
  role u = "admin" ->
  (ids = NotAnArray \/ ids = IdArray [] ->
   bulkRoute encode u ids d e
   = (d, Some (mkBulkResponse 400
                 (BulkError "Array of pallet IDs required")))) /\
  (storage_faults e = [] -> elements_of ids <> [] ->
   filter (listed (elements_of ids)) (pallets (tabs d)) = [] ->
   snd (bulkRoute encode u ids d e)
   = Some (mkBulkResponse 404 (BulkError "No pallets found")) /\
   tabs (fst (bulkRoute encode u ids d e)) = tabs d) /\
  (storage_faults e = [] -> consistent d ->
   filter (listed (elements_of ids)) (pallets (tabs d)) <> [] ->
   snd (bulkRoute encode u ids d e)
   = Some match all_some (map (qr_entry encode)
                              (filter (listed (elements_of ids))
                                      (pallets (tabs d)))) with
          | Some entries =>
              mkBulkResponse 200 (QrCodes (length entries) entries)
          | None => mkBulkResponse 500 (BulkError "Failed to generate QR codes")
          end /\
   pallets (tabs (fst (bulkRoute encode u ids d e)))
   = map (encoded encode (elements_of ids)) (pallets (tabs d))).
Proof.
  intros Hu. unfold bulkRoute. rewrite Hu.
  cbn [String.eqb Ascii.eqb Bool.eqb negb].
  split; [|split].
  - intros [-> | ->]; destruct d as [tb sq fl]; reflexivity.
  - intros Hq Hne Hnone. destruct ids as [|[|v l]]; cbn [elements_of] in *;
      try contradiction.
    destruct d as [tb sq fl]. destruct e as [t c fs q].
    cbn [storage_faults] in Hq. subst fs.
    unfold run_as, generateBulkQR, connect, try_catch, bind, query, send,
      execute, select_pallets_any, take_fault.
    cbn [faults clock server users_flo_id seqs visible txn tabs now
         storage_faults store] in *.
    rewrite Hnone. split; reflexivity.
  - intros Hq Hc Hsome.
    destruct ids as [|[|v l]]; cbn [elements_of] in *;
      try (exfalso; apply Hsome; apply listed_nil).
    pose proof (unique_ids Hc) as Hn. pose proof (valid_statuses Hc) as Hv.
    destruct d as [tb sq fl]. destruct e as [t c fs q].
    cbn [storage_faults tabs] in *. subst fs.
    unfold run_as, generateBulkQR, connect, try_catch, bind, query, send,
      execute, select_pallets_any, take_fault.
    cbn [faults clock server users_flo_id seqs visible txn tabs now
         storage_faults store].
    set (els := v :: l) in *.
    destruct (filter (listed els) (pallets tb)) as [|p rows] eqn:Ef;
      [contradiction|].
    rewrite <- Ef.
    destruct (@Promise_all_calm encode (filter (listed els) (pallets tb))
                (mkSession (mkDb tb sq fl) None t []) eq_refl eq_refl Hv)
      as [P1 [_ P3]].
    cbn [server tabs] in P3. rewrite (@branches_encode encode els (pallets tb) Hn) in P3.
    destruct (Promise_all _ _) as [o c']. cbn [fst snd] in *. subst o.
    destruct (all_some _) as [entries|]; cbn [fst snd ret]; auto.
Qed.

Lemma bulk_generation_encodes_each_row_witness :
  role admin = "admin" /\ storage_faults (calm 5) = [] /\ consistent db3 /\
  filter (listed (elements_of bulk_sample)) (pallets (tabs db3)) <> [] /\
  snd (bulkRoute label_encoder admin bulk_sample db3 (calm 5))
  = Some match all_some (map (qr_entry label_encoder)
                             (filter (listed (elements_of bulk_sample))
                                     (pallets (tabs db3)))) with
         | Some entries =>
             mkBulkResponse 200 (QrCodes (length entries) entries)
         | None => mkBulkResponse 500 (BulkError "Failed to generate QR codes")
         end /\
  pallets (tabs (fst (bulkRoute label_encoder admin bulk_sample db3 (calm 5))))
  = map (encoded label_encoder (elements_of bulk_sample)) (pallets (tabs db3)) /\
  map qr_code_url
      (pallets (tabs (fst (bulkRoute label_encoder admin bulk_sample db3
                             (calm 5)))))
  = [Some "data:image/png;base64,PLT001:At Warehouse"].
Proof.
  assert (Hc : consistent db3)
    by exact (serve_consistent flo001 _ (calm 3)
                (serve_consistent flo001 _ (calm 2) consistent_db1)).
  assert (Hs : filter (listed (elements_of bulk_sample)) (pallets (tabs db3))
               <> []) by (vm_compute; discriminate).
  split; [reflexivity|]. split; [reflexivity|]. split; [exact Hc|].
  split; [exact Hs|].
  destruct (proj2 (proj2 (@bulk_generation_encodes_each_row label_encoder admin
                            bulk_sample db3 (calm 5) eq_refl)) eq_refl Hc Hs)
    as [H1 H2].
  split; [exact H1|]. split; [exact H2|].
  rewrite H2. vm_compute. reflexivity.
Defined.

(** *** GET /api/qr/:palletId *)

Lemma qrRoute_calm u pid d e :
  role u = "admin" -> storage_faults e = [] ->
  qrRoute u pid d e = (d, Some (qr_answer (find_pallet pid d))).
Proof.
  intros Hu Hq. destruct d as [tb sq fl]. destruct e as [t c fs q].
  cbn [storage_faults] in Hq. subst fs.
  unfold qrRoute, run_as, getQRCode, find_pallet, qr_answer, connect, try_catch,
    bind, query, send, execute, select_qr_codes, take_fault.
  rewrite Hu.
  cbn [faults clock server users_flo_id seqs visible txn tabs now
       storage_faults store String.eqb Ascii.eqb Bool.eqb negb].
  destruct (filter _ _) as [|p l]; [reflexivity|]. cbn [map hd_error].
  destruct (qr_code_url p) as [url|]; [|reflexivity].
  destruct (String.eqb url ""); reflexivity.
Qed.

Lemma hd_filter_app A (f : A -> bool) l1 l2 x :
  hd_error (filter f l1) = Some x ->
  hd_error (filter f (l1 ++ l2)) = Some x.
Proof.
  rewrite filter_app. destruct (filter f l1); [discriminate|]. exact (fun H => H).
Qed.

Lemma update_row_edited t b p p' :
  update_row t (admin_updates b ++ [SetUpdatedAtNow]) p = Some p' ->
  edited t b p = Some p'.
Proof.
  unfold update_row. rewrite admin_assign.
  destruct (edited t b p) as [q|]; [|discriminate].
  destruct (is_valid_status (status q)); [|discriminate]. exact (fun H => H).
Qed.

Lemma scanned_qr t b s p : qr_code_url (scanned t b s p) = qr_code_url p.
Proof. unfold scanned. destruct (JS.truthy _); reflexivity. Qed.

(** A request that neither generates a QR code nor deletes the pallet
    leaves the pallet stored, with the QR code it had. *)
Lemma serve_keeps_qr pid u r d e p :
  is_qr_generate r = false -> is_delete_of pid r = false ->
  find_pallet pid d = Some p ->
  exists p', find_pallet pid (fst (serve u r d e)) = Some p' /\
             qr_code_url p' = qr_code_url p.
Proof.
  intros Hg Hd Hf.
  assert (Hsame : forall d', tabs d' = tabs d ->
            exists p', find_pallet pid d' = Some p' /\
                       qr_code_url p' = qr_code_url p).
  { intros d' Ht. exists p. unfold find_pallet in *. rewrite Ht. auto. }
  destruct r as [b|x|x b|x|x b|x|b]; cbn [serve is_qr_generate is_delete_of] in *;
    try discriminate.
  - destruct (isAdmin_cases u (run (createPallet b)) d e) as [E|E];
      rewrite E; [apply Hsame; reflexivity|].
    destruct (createPallet_cases b d e) as [_ [[_ Ht]|[row Hrow]]];
      [exact (Hsame _ Ht)|].
    destruct Hrow as [_ [_ [_ Ht]]]. exists p. split; [|reflexivity].
    unfold find_pallet in *. rewrite Ht. cbn [pallets].
    apply hd_filter_app. exact Hf.
  - apply Hsame. rewrite getPallet_reads. reflexivity.
  - destruct (scanRoute_cases u x b d e) as [_ [[_ Ht]|[q [s Hs]]]];
      [exact (Hsame _ Ht)|].
    destruct Hs as [_ [_ [_ [_ [_ Ht]]]]].
    unfold find_pallet in *. rewrite Ht. cbn [pallets].
    rewrite filter_map_if by (intros; apply scanned_pallet_id).
    destruct (filter (pallet_id_is (Some pid)) (pallets (tabs d)))
      as [|p0 l]; [discriminate|].
    cbn [map hd_error] in *. inversion Hf; subst p0. eexists.
    split; [reflexivity|].
    destruct (pallet_id_is (Some x) p); [apply scanned_qr | reflexivity].
  - apply Hsame. rewrite getHistory_reads. reflexivity.
  - destruct (isAdmin_cases u (run (updatePallet x b)) d e) as [E|E];
      rewrite E; [apply Hsame; reflexivity|].
    destruct (updatePallet_cases x b d e)
      as [_ [_ [[Ht _]|[rows' [p' [rest [Hu [Ht _]]]]]]]];
      [exact (Hsame _ Ht)|].
    destruct (@update_rows_spec _ _ _ _ _ _ Hu) as [F _].
    unfold find_pallet in *. rewrite Ht. cbn [pallets].
    destruct (String.eqb x pid) eqn:Ex.
    + apply String.eqb_eq in Ex. subst x.
      destruct (@updated_first _ _ _ _ _ _ F Hf) as [q [H1 H2]].
      exists q. split; [exact H1|].
      apply update_row_edited in H2.
      destruct (edited_row _ _ _ H2) as [_ [_ [_ [H _]]]]. exact H.
    + apply String.eqb_neq in Ex.
      rewrite (@updated_others _ _ x pid _ _ F) by congruence. eauto.
  - destruct (isAdmin_cases u (run (deletePallet x)) d e) as [E|E];
      rewrite E; [apply Hsame; reflexivity|].
    destruct (deletePallet_cases x d e) as [_ [[_ Ht]|[_ [_ Ht]]]];
      [exact (Hsame _ Ht)|].
    apply String.eqb_neq in Hd.
    unfold find_pallet in *. rewrite Ht.
    rewrite (@deleted_find_others x pid (tabs d)) by congruence. eauto.
Qed.

Lemma not_listed pid elements q :
  existsb (fun v => match v with
                    | Some x => String.eqb x pid
                    | None => false
                    end) elements = false ->
  pallet_id q = pid -> listed elements q = false.
Proof.
  intros Hn Hq. unfold listed.
  induction elements as [|[x|] l IH]; cbn [existsb pallet_id_is] in *;
    [reflexivity| |].
  - apply orb_false_iff in Hn. destruct Hn as [H1 H2].
    rewrite Hq, (String.eqb_sym pid x), H1. exact (IH H2).
  - exact (IH Hn).
Qed.

Lemma touched_others elements pid rows rows' :
  (forall q, pallet_id q = pid -> listed elements q = false) ->
  Forall2 (qr_touched elements) rows rows' ->
  filter (pallet_id_is (Some pid)) rows' = filter (pallet_id_is (Some pid)) rows.
Proof.
  intros Hn. induction 1 as [|p p' rows rows' Hp _ IH]; [reflexivity|].
  cbn [filter]. rewrite IH. destruct Hp as [->|[Hl [image ->]]]; [reflexivity|].
  assert (E : pallet_id_is (Some pid) (with_qr_code_url (Some image) p)
              = pallet_id_is (Some pid) p) by reflexivity.
  rewrite E. destruct (pallet_id_is (Some pid) p) eqn:Ep; [|reflexivity].
  apply pallet_id_is_eq in Ep. rewrite (Hn p Ep) in Hl. discriminate.
Qed.

(** A request that does not generate a QR code for pallet [pid] leaves
    the rows of the pallet with the QR codes they had. *)
Lemma generateQR_others pid b d e :
  match JS.prepareValue (palletId b) with
  | Some x => String.eqb x pid
  | None => false
  end = false ->
  filter (pallet_id_is (Some pid))
         (pallets (tabs (fst (run (generateQR (qr_image e) b) d e))))
  = filter (pallet_id_is (Some pid)) (pallets (tabs d)).
Proof.
  intros Hn.
  destruct (generateQR_cases (qr_image e) b d e)
    as [_ [_ [[Ht _]|[x [im [p [rows' [ret [Hp [_ [_ [Hu [Ht _]]]]]]]]]]]]].
  - rewrite Ht. reflexivity.
  - rewrite Hp in Hn. apply String.eqb_neq in Hn.
    destruct (@update_rows_spec _ _ _ _ _ _ Hu) as [F _].
    rewrite Ht. cbn [pallets].
    apply (@updated_others _ _ x pid _ _ F). congruence.
Qed.

Lemma serve_api_keeps_qr encode pid d c p :
  generates_for pid (api_what c) = false ->
  deletes pid (api_what c) = false ->
  find_pallet pid d = Some p ->
  exists p', find_pallet pid (serve_api encode d c) = Some p' /\
             qr_code_url p' = qr_code_url p.
Proof.
  intros Hg Hd Hf. unfold serve_api.
  destruct (api_what c) as [r|ids]; cbn [generates_for deletes] in *.
  - destruct (is_qr_generate r) eqn:Eg;
      [|exact (@serve_keeps_qr pid (api_sender c) r d (api_during c) p Eg Hd Hf)].
    destruct r as [b|x|x b|x|x b|x|b]; try discriminate. cbn [serve].
    exists p. split; [|reflexivity].
    destruct (isAdmin_cases (api_sender c)
                (run (generateQR (qr_image (api_during c)) b)) d (api_during c))
      as [E|E]; rewrite E; [exact Hf|].
    unfold find_pallet in *. rewrite (@generateQR_others pid b d _ Hg). exact Hf.
  - exists p. split; [|reflexivity].
    destruct (bulkRoute_cases encode (api_sender c) ids d (api_during c))
      as [_ [_ [_ F]]].
    unfold find_pallet in *.
    rewrite (@touched_others (elements_of ids) pid _ _
               (fun q => @not_listed pid _ q Hg) F).
    exact Hf.
Qed.

Lemma serve_api_all_keeps_qr encode pid calls :
  forall d p,
    Forall (fun c => generates_for pid (api_what c) = false /\
                     deletes pid (api_what c) = false) calls ->
    find_pallet pid d = Some p ->
    exists p', find_pallet pid (serve_api_all encode d calls) = Some p' /\
               qr_code_url p' = qr_code_url p.
Proof.
  induction calls as [|c calls IH]; intros d p Hc Hf; [cbn; eauto|].
  inversion Hc as [|? ? [H1 H2] H3]; subst.
  unfold serve_api_all. cbn [fold_left]. fold (serve_api_all encode).
  destruct (@serve_api_keeps_qr encode pid d c p H1 H2 Hf) as [p1 [Hf1 E1]].
  destruct (IH _ _ H3 Hf1) as [p2 [Hf2 E2]].
  exists p2. split; [exact Hf2 | congruence].
Qed.

(** X12. The QR code outlives the data it encodes.  When POST
    /api/qr/generate has answered 200 with an image for a pallet, then
    after any requests that neither delete that pallet nor generate a QR
    code for it (scans and administrative updates of the pallet, single
    and bulk generations for other pallets included), GET
    /api/qr/:palletId still answers an administrator with that image: only
    the two generation routes write a stored code, and only for the pallets
    they are asked for.  (An empty image is answered 404, as if none had
    been generated.) *)
Theorem qr_code_is_kept encode u b d e pid image meta calls e' :
  snd (run (generateQR (qr_image e) b) d e)
  = Some (mkResponse 200 (QrGenerated pid image meta)) ->
  Forall (fun c => generates_for pid (api_what c) = false /\
                   deletes pid (api_what c) = false) calls ->
  role u = "admin" -> storage_faults e' = [] ->
  exists p',
    find_pallet pid
      (serve_api_all encode (fst (run (generateQR (qr_image e) b) d e)) calls)
    = Some p' /\
    qrRoute u pid
      (serve_api_all encode (fst (run (generateQR (qr_image e) b) d e)) calls)
      e'
    = (serve_api_all encode (fst (run (generateQR (qr_image e) b) d e)) calls,
       Some (if String.eqb image "" then QrNotGenerated
             else mkQrResponse 200 (QrCode pid (item_name p') image))).
Proof.
  intros Hr Hcalls Hu Hq.
  destruct (generateQR_cases (qr_image e) b d e)
    as [_ [_ [[_ Hn]|[x [im [p [rows' [ret [_ [_ [Hf [Hup [Ht Hr']]]]]]]]]]]]].
  { exfalso. exact (Hn _ _ _ Hr). }
  rewrite Hr in Hr'. inversion Hr'; subst pid im meta. clear Hr'.
  destruct (find_pallet_In _ _ Hf) as [_ Hid]. rewrite Hid in *.
  destruct (@update_rows_spec _ _ _ _ _ _ Hup) as [F _].
  destruct (@updated_first _ _ _ _ _ _ F Hf) as [p1 [H1 H2]].
  assert (Hq1 : qr_code_url p1 = Some image).
  { unfold update_row in H2. cbn [assign_all assign] in H2.
    destruct (is_valid_status _); [|discriminate]. inversion H2. reflexivity. }
  assert (Hf1 : find_pallet x (fst (run (generateQR (qr_image e) b) d e))
                = Some p1).
  { unfold find_pallet. rewrite Ht. exact H1. }
  destruct (@serve_api_all_keeps_qr encode x calls _ p1 Hcalls Hf1)
    as [p' [Hf' Hq']].
  exists p'. split; [exact Hf'|].
  rewrite (@qrRoute_calm u x _ e' Hu Hq), Hf'. unfold qr_answer.
  rewrite Hq', Hq1. destruct (find_pallet_In _ _ Hf') as [_ Hid'].
  rewrite Hid'. reflexivity.
Qed.

Lemma qr_code_is_kept_witness :
  let image := "data:image/png;base64," in
  let meta :=
    mkPallet 1 "PLT001" "ITEM-001" "Sample Product" "100" (Some "BOX")
      (Some "250.5") (Some "2026-01-01") (Some "2026-04-01") "At Production"
      None None None 1 1 in
  snd (run (generateQR (qr_image (calm 2)) PLT001) db1 (calm 2))
  = Some (mkResponse 200 (QrGenerated "PLT001" image meta)) /\
  Forall (fun c => generates_for "PLT001" (api_what c) = false /\
                   deletes "PLT001" (api_what c) = false) other_calls /\
  exists p',
    find_pallet "PLT001"
      (serve_api_all label_encoder
         (fst (run (generateQR (qr_image (calm 2)) PLT001) db1 (calm 2)))
         other_calls) = Some p' /\
    qrRoute admin "PLT001"
      (serve_api_all label_encoder
         (fst (run (generateQR (qr_image (calm 2)) PLT001) db1 (calm 2)))
         other_calls) (calm 6)
    = (serve_api_all label_encoder
         (fst (run (generateQR (qr_image (calm 2)) PLT001) db1 (calm 2)))
         other_calls,
       Some (if String.eqb image "" then QrNotGenerated
             else mkQrResponse 200 (QrCode "PLT001" (item_name p') image))).
Proof.
  intros image meta.
  assert (H : snd (run (generateQR (qr_image (calm 2)) PLT001) db1 (calm 2))
              = Some (mkResponse 200 (QrGenerated "PLT001" image meta)))
    by (vm_compute; reflexivity).
  assert (Hcalls : Forall (fun c => generates_for "PLT001" (api_what c) = false /\
                                    deletes "PLT001" (api_what c) = false)
                          other_calls)
    by (repeat constructor).
  split; [exact H|]. split; [exact Hcalls|].
  apply (@qr_code_is_kept label_encoder admin PLT001 db1 (calm 2) "PLT001"
           image meta other_calls (calm 6) H Hcalls).
  - reflexivity.
  - reflexivity.
Defined.

Lemma created_row_qr d t b row :
  created_row d t b = Some row -> qr_code_url row = None.
Proof.
  unfold created_row.
  destruct (JS.prepareValue (palletId b)); [|discriminate].
  destruct (JS.prepareValue (itemCode b)); [|discriminate].
  destruct (JS.prepareValue (itemName b)); [|discriminate].
  destruct (JS.prepareValue (itemQuantity b)); [|discriminate].
  intros H; inversion H; reflexivity.
Qed.

Lemma edited_rows_keep_qr t b x pid rows rows' :
  Forall2 (row_updated t (admin_updates b ++ [SetUpdatedAtNow]) (Some x))
          rows rows' ->
  map qr_code_url (filter (pallet_id_is (Some pid)) rows')
  = map qr_code_url (filter (pallet_id_is (Some pid)) rows).
Proof.
  induction 1 as [|p p' rows rows' Hp _ IH]; [reflexivity|].
  cbn [filter]. unfold row_updated in Hp.
  assert (E : pallet_id p' = pallet_id p /\ qr_code_url p' = qr_code_url p).
  { destruct (pallet_id_is (Some x) p); [|subst; auto].
    apply update_row_edited in Hp.
    destruct (edited_row _ _ _ Hp) as [_ [H1 [_ [H2 _]]]]. auto. }
  destruct E as [E1 E2].
  assert (Em : pallet_id_is (Some pid) p' = pallet_id_is (Some pid) p)
    by (unfold pallet_id_is; rewrite E1; reflexivity).
  rewrite Em. destruct (pallet_id_is (Some pid) p); cbn [map];
    rewrite ?E2, IH; reflexivity.
Qed.

Lemma no_qr_code_same pid d d' :
  map qr_code_url (filter (pallet_id_is (Some pid)) (pallets (tabs d')))
  = map qr_code_url (filter (pallet_id_is (Some pid)) (pallets (tabs d))) ->
  no_qr_code pid d -> no_qr_code pid d'.
Proof.
  unfold no_qr_code. intros E H.
  apply (Forall_map qr_code_url (fun v => v = None)).
  rewrite E. apply (Forall_map qr_code_url (fun v => v = None)). exact H.
Qed.

(** A request that does not generate a QR code for pallet [pid] leaves
    the pallet without one. *)
Lemma serve_api_no_qr encode pid d c :
  generates_for pid (api_what c) = false ->
  no_qr_code pid d -> no_qr_code pid (serve_api encode d c).
Proof.
  intros Hg Hn. unfold serve_api.
  assert (Hsame : forall d', tabs d' = tabs d -> no_qr_code pid d').
  { intros d' Ht. unfold no_qr_code. rewrite Ht. exact Hn. }
  destruct (api_what c) as [r|ids]; cbn [generates_for] in Hg.
  - set (u := api_sender c). set (e := api_during c).
    destruct r as [b|x|x b|x|x b|x|b]; cbn [serve].
    + destruct (isAdmin_cases u (run (createPallet b)) d e) as [E|E];
        rewrite E; [apply Hsame; reflexivity|].
      destruct (createPallet_cases b d e) as [_ [[_ Ht]|[row Hrow]]];
        [exact (Hsame _ Ht)|].
      destruct Hrow as [Hc [_ [_ Ht]]]. unfold no_qr_code in *.
      rewrite Ht. cbn [pallets]. rewrite filter_app. apply Forall_app.
      split; [exact Hn|]. cbn [filter].
      destruct (pallet_id_is (Some pid) row); constructor;
        [exact (created_row_qr _ _ _ Hc) | constructor].
    + apply Hsame. rewrite getPallet_reads. reflexivity.
    + destruct (scanRoute_cases u x b d e) as [_ [[_ Ht]|[q [s Hs]]]];
        [exact (Hsame _ Ht)|].
      destruct Hs as [_ [_ [_ [_ [_ Ht]]]]]. unfold no_qr_code in *.
      rewrite Ht. cbn [pallets].
      rewrite filter_map_if by (intros; apply scanned_pallet_id).
      apply Forall_map. eapply Forall_impl; [|exact Hn]. intros p Hp.
      cbv beta in *. destruct (pallet_id_is (Some x) p);
        [rewrite scanned_qr|]; exact Hp.
    + apply Hsame. rewrite getHistory_reads. reflexivity.
    + destruct (isAdmin_cases u (run (updatePallet x b)) d e) as [E|E];
        rewrite E; [apply Hsame; reflexivity|].
      destruct (updatePallet_cases x b d e)
        as [_ [_ [[Ht _]|[rows' [p' [rest [Hu [Ht _]]]]]]]];
        [exact (Hsame _ Ht)|].
      destruct (@update_rows_spec _ _ _ _ _ _ Hu) as [F _].
      apply (@no_qr_code_same pid d); [|exact Hn].
      rewrite Ht. cbn [pallets]. exact (@edited_rows_keep_qr _ _ _ pid _ _ F).
    + destruct (isAdmin_cases u (run (deletePallet x)) d e) as [E|E];
        rewrite E; [apply Hsame; reflexivity|].
      destruct (deletePallet_cases x d e) as [_ [[_ Ht]|[_ [_ Ht]]]];
        [exact (Hsame _ Ht)|].
      unfold no_qr_code in *. rewrite Ht. unfold deleted. cbn [pallets].
      rewrite Forall_forall in *. intros p Hp. apply Hn.
      apply filter_In in Hp. destruct Hp as [Hp Hm].
      apply filter_In in Hp. apply filter_In. tauto.
    + destruct (isAdmin_cases u (run (generateQR (qr_image e) b)) d e)
        as [E|E]; rewrite E; [apply Hsame; reflexivity|].
      unfold no_qr_code in *. rewrite (@generateQR_others pid b d e Hg).
      exact Hn.
  - destruct (bulkRoute_cases encode (api_sender c) ids d (api_during c))
      as [_ [_ [_ F]]].
    unfold no_qr_code in *.
    rewrite (@touched_others (elements_of ids) pid _ _
               (fun q => @not_listed pid _ q Hg) F).
    exact Hn.
Qed.

(** X13. A pallet gets a QR code only from a generation that names it.
    When no stored row of a pallet has a QR code (the pallet is not stored,
    or was created and never encoded), then as long as no request is a POST
    /api/qr/generate for that pallet or a POST /api/qr/generate-bulk that
    lists it, GET /api/qr/:palletId answers 404: the pallet is unknown, or
    its code "not generated".  Creation, scans, administrative updates,
    deletion and generations for other pallets never set one. *)
Theorem qr_code_only_by_generation encode calls d u pid e :
  no_qr_code pid d ->
  Forall (fun c => generates_for pid (api_what c) = false) calls ->
  role u = "admin" -> storage_faults e = [] ->
  snd (qrRoute u pid (serve_api_all encode d calls) e)
  = Some match find_pallet pid (serve_api_all encode d calls) with
          | Some _ => QrNotGenerated
          | None => mkQrResponse 404 (QrError "Pallet not found")
          end.
Proof.
  intros Hn Hcalls Hu Hq.
  assert (Hfin : no_qr_code pid (serve_api_all encode d calls)).
  { revert d Hn. induction Hcalls as [|c calls Hc _ IH]; intros d Hn;
      [exact Hn|].
    unfold serve_api_all. cbn [fold_left]. apply IH.
    apply serve_api_no_qr; assumption. }
  rewrite (@qrRoute_calm u pid _ e Hu Hq). cbn [snd]. unfold qr_answer.
  destruct (find_pallet pid (serve_api_all encode d calls)) as [p|] eqn:Hf;
    [|reflexivity].
  unfold no_qr_code in Hfin. unfold find_pallet in Hf.
  destruct (filter _ _) as [|p0 l]; [discriminate|].
  inversion Hf; subst p0. inversion Hfin as [|? ? H0 _]; subst.
  rewrite H0. reflexivity.
Qed.

Lemma qr_code_only_by_generation_witness :
  no_qr_code "PLT001" db1 /\
  Forall (fun c => generates_for "PLT001" (api_what c) = false) other_calls /\
  snd (qrRoute admin "PLT001" (serve_api_all label_encoder db1 other_calls)
         (calm 6))
  = Some match find_pallet "PLT001"
                 (serve_api_all label_encoder db1 other_calls) with
          | Some _ => QrNotGenerated
          | None => mkQrResponse 404 (QrError "Pallet not found")
          end.
Proof.
  assert (H0 : no_qr_code "PLT001" db1)
    by (unfold no_qr_code; vm_compute; repeat constructor).
  assert (Hcalls : Forall (fun c => generates_for "PLT001" (api_what c) = false)
                          other_calls)
    by (repeat constructor).
  split; [exact H0|]. split; [exact Hcalls|].
  apply (@qr_code_only_by_generation label_encoder other_calls db1 admin
           "PLT001" (calm 6) H0 Hcalls).
  - reflexivity.
  - reflexivity.
Defined.

(** *** GET /api/pallets *)

(** The placeholders the builder numbers are the parameters it pushes, for
    the page query and for the count query, and the built conditions ask
    what the request's filters ask. *)
Lemma filters_bound l a b :
  bound (map placeholder (conditions (filters l))
           ++ [paramCount (filters l); S (paramCount (filters l))])
        (params (filters l) ++ [a; b]) = true /\
  bound (map placeholder (conditions (filters l))) (params (filters l)) = true /\
  parameter (params (filters l) ++ [a; b]) (paramCount (filters l)) = Some a /\
  parameter (params (filters l) ++ [a; b]) (S (paramCount (filters l)))
  = Some b /\
  (forall p, forallb (fun c => holds (params (filters l) ++ [a; b]) c p)
                     (conditions (filters l)) = wanted l p) /\
  (forall p, forallb (fun c => holds (params (filters l)) c p)
                     (conditions (filters l)) = wanted l p).
Proof.
  unfold filters, add_filter, wanted, asks.
  destruct (JS.truthy (q_status l)), (JS.truthy (q_itemCode l)),
    (JS.truthy (q_warehouseLocation l));
    cbn [conditions params paramCount app map];
    (split; [reflexivity|]); (split; [reflexivity|]);
    (split; [reflexivity|]); (split; [reflexivity|]);
    split; intros p; cbn [forallb holds parameter nth_error placeholder on
                          column_value];
    repeat match goal with
           | |- context [JS.prepareValue ?v] => destruct (JS.prepareValue v)
           end;
    destruct (warehouse_location p);
    rewrite ?andb_true_r, ?andb_false_r, ?andb_assoc; reflexivity.
Qed.

Lemma filter_wanted ps l rows :
  (forall p, forallb (fun c => holds ps c p) (conditions (filters l))
             = wanted l p) ->
  filter (fun p => forallb (fun c => holds ps c p) (conditions (filters l)))
         rows
  = filter (wanted l) rows.
Proof. intros H. apply filter_ext. exact H. Qed.

Lemma listPallets_calm rd l d e :
  storage_faults e = [] ->
  run_as (listPallets rd l) d e
  = (d,
     Some match row_count rd (JS.prepareValue (or_default (q_limit l) "100")),
                row_count rd (JS.prepareValue (or_default (q_offset l) "0"))
          with
          | Some lim, Some off =>
              mkListResponse 200
                (PalletList
                   (page l lim off (pallets (tabs d)))
                   (Z.of_nat (length (filter (wanted l) (pallets (tabs d)))))
                   (parseInt rd (or_default (q_limit l) "100"))
                   (parseInt rd (or_default (q_offset l) "0"))
                   (has_more
                      (Z.of_nat (length (filter (wanted l) (pallets (tabs d)))))
                      (parseInt rd (or_default (q_offset l) "0"))
                      (length (page l lim off (pallets (tabs d))))))
          | _, _ => mkListResponse 500 (ListError "Failed to fetch pallets")
          end).
Proof.
  intros Hq. destruct d as [tb sq fl]. destruct e as [t c fs q].
  cbn [storage_faults] in Hq. subst fs.
  set (a := JS.prepareValue (or_default (q_limit l) "100")).
  set (b := JS.prepareValue (or_default (q_offset l) "0")).
  destruct (filters_bound l a b) as [B1 [B2 [P1 [P2 [W1 W2]]]]].
  unfold run_as, listPallets, page, connect, try_catch, bind, query, send,
    execute, select_page, select_count, take_fault.
  cbv zeta. fold a b.
  cbn [faults clock server users_flo_id seqs visible txn tabs now
       storage_faults store].
  rewrite B1, P1, P2.
  destruct (row_count rd a) as [lim|]; [|reflexivity].
  destruct (row_count rd b) as [off|]; [|reflexivity].
  cbn [faults clock server users_flo_id seqs visible txn tabs now
       storage_faults store].
  rewrite B2.
  cbn [faults clock server users_flo_id seqs visible txn tabs now
       storage_faults store].
  rewrite (filter_wanted _ l _ W1), (filter_wanted _ l _ W2). reflexivity.
Qed.

Lemma insert_newest_perm x l : Permutation (x :: l) (insert_newest x l).
Proof.
  induction l as [|y l IH]; cbn [insert_newest]; [reflexivity|].
  destruct (created_at y <=? created_at x); [reflexivity|].
  rewrite perm_swap. constructor. exact IH.
Qed.

Lemma order_newest_perm l : Permutation l (order_by_created_at_desc l).
Proof.
  induction l as [|x l IH]; cbn [order_by_created_at_desc]; [constructor|].
  rewrite <- insert_newest_perm. constructor. exact IH.
Qed.

Lemma insert_newest_sorted x l :
  StronglySorted newest_first l -> StronglySorted newest_first (insert_newest x l).
Proof.
  induction 1 as [|y l Hs IH Hy]; cbn [insert_newest].
  - repeat constructor.
  - destruct (created_at y <=? created_at x) eqn:E.
    + apply Z.leb_le in E. constructor; [constructor; assumption|].
      constructor; [exact E|].
      eapply Forall_impl; [|exact Hy]. unfold newest_first. intros; lia.
    + apply Z.leb_gt in E. constructor; [exact IH|].
      eapply Permutation_Forall; [apply insert_newest_perm|].
      constructor; [unfold newest_first; lia | exact Hy].
Qed.

Lemma order_newest_sorted l :
  StronglySorted newest_first (order_by_created_at_desc l).
Proof.
  induction l as [|x l IH]; cbn [order_by_created_at_desc]; [constructor|].
  apply insert_newest_sorted. exact IH.
Qed.

Lemma sorted_skipn A (R : A -> A -> Prop) n l :
  StronglySorted R l -> StronglySorted R (skipn n l).
Proof.
  revert l. induction n as [|n IH]; intros l H; [exact H|].
  destruct l as [|x l]; [constructor|]. cbn [skipn]. apply IH.
  inversion H; assumption.
Qed.

Lemma sorted_firstn A (R : A -> A -> Prop) n l :
  StronglySorted R l -> StronglySorted R (firstn n l).
Proof.
  revert l. induction n as [|n IH]; intros l H; [constructor|].
  destruct l as [|x l]; [constructor|]. cbn [firstn].
  inversion H as [|? ? Hs Hx]; subst. constructor; [auto|].
  rewrite Forall_forall in *. intros y Hy. apply Hx.
  rewrite <- (firstn_skipn n l). apply in_or_app. left. exact Hy.
Qed.

Lemma page_sub l lim off rows p :
  In p (page l lim off rows) -> In p rows /\ wanted l p = true.
Proof.
  unfold page. intros H.
  assert (Hs : In p (order_by_created_at_desc (filter (wanted l) rows))).
  { destruct lim as [n|], off as [m|];
      repeat match goal with
             | H : In _ (firstn ?n ?x) |- _ =>
                 rewrite <- (firstn_skipn n x); apply in_or_app; left; exact H
             | H : In _ (skipn ?n ?x) |- _ =>
                 rewrite <- (firstn_skipn n x); apply in_or_app; right; exact H
             | _ => exact H
             end.
    assert (H' : In p (skipn m (order_by_created_at_desc
                                  (filter (wanted l) rows)))).
    { rewrite <- (firstn_skipn n (skipn m _)). apply in_or_app. left. exact H. }
    rewrite <- (firstn_skipn m _). apply in_or_app. right. exact H'. }
  apply (Permutation_in _ (Permutation_sym (order_newest_perm _))) in Hs.
  apply filter_In in Hs. exact Hs.
Qed.

Lemma page_sorted l lim off rows :
  StronglySorted newest_first (page l lim off rows).
Proof.
  unfold page. destruct lim as [n|], off as [m|];
    repeat first [apply sorted_firstn | apply sorted_skipn];
    apply order_newest_sorted.
Qed.

Lemma page_length l n m rows :
  length (page l (Some n) (Some m) rows)
  = Nat.min n (length (filter (wanted l) rows) - m).
Proof.
  unfold page. rewrite length_firstn, length_skipn.
  rewrite <- (Permutation_length (order_newest_perm _)). reflexivity.
Qed.

(** X14. GET /api/pallets with a limit and an offset the server reads as
    non-negative integers, the storage not failing.  The answer is 200;
    the rows are pallets of the table that pass every filter given
    (a filter is given when its value is truthy), newest first, at most
    [limit] of them, taken after the first [offset]; [total] counts the
    pallets that pass the filters, whatever the limit and offset; and when
    [parseInt] reads the offset as the server does, [hasMore] is true
    exactly when rows remain after the page. *)
Theorem list_is_a_page rd l d e tl tf L F :
  storage_faults e = [] ->
  JS.prepareValue (or_default (q_limit l) "100") = Some tl ->
  int8in rd tl = Some L -> 0 <= L ->
  JS.prepareValue (or_default (q_offset l) "0") = Some tf ->
  int8in rd tf = Some F -> 0 <= F ->
  exists rows total more,
    run_as (listPallets rd l) d e
    = (d, Some (mkListResponse 200
                  (PalletList rows total
                     (parseInt rd (or_default (q_limit l) "100"))
                     (parseInt rd (or_default (q_offset l) "0")) more))) /\
    rows = firstn (Z.to_nat L)
             (skipn (Z.to_nat F)
                (order_by_created_at_desc
                   (filter (wanted l) (pallets (tabs d))))) /\
    total = Z.of_nat (length (filter (wanted l) (pallets (tabs d)))) /\
    Forall (fun p => In p (pallets (tabs d)) /\ wanted l p = true) rows /\
    StronglySorted newest_first rows /\
    Z.of_nat (length rows) <= L /\
    (parseInt rd (or_default (q_offset l) "0") = Some F ->
     (more = true <-> F + L < total)).
Proof.
  intros Hq Hl HL HL0 Hf HF HF0.
  assert (Rl : row_count rd (JS.prepareValue (or_default (q_limit l) "100"))
               = Some (Some (Z.to_nat L))).
  { rewrite Hl. unfold row_count. rewrite HL.
    destruct (L <? 0) eqn:E; [apply Z.ltb_lt in E; lia | reflexivity]. }
  assert (Rf : row_count rd (JS.prepareValue (or_default (q_offset l) "0"))
               = Some (Some (Z.to_nat F))).
  { rewrite Hf. unfold row_count. rewrite HF.
    destruct (F <? 0) eqn:E; [apply Z.ltb_lt in E; lia | reflexivity]. }
  do 3 eexists. split.
  { rewrite (@listPallets_calm rd l d e Hq), Rl, Rf. reflexivity. }
  split; [reflexivity|]. split; [reflexivity|].
  change (firstn (Z.to_nat L) (skipn (Z.to_nat F)
            (order_by_created_at_desc (filter (wanted l) (pallets (tabs d))))))
    with (page l (Some (Z.to_nat L)) (Some (Z.to_nat F)) (pallets (tabs d))).
  split; [|split; [|split; [|]]].
  - apply Forall_forall. intros p Hp. exact (page_sub _ _ _ _ _ Hp).
  - apply page_sorted.
  - rewrite page_length. lia.
  - intros Hp. rewrite Hp. unfold has_more. rewrite page_length.
    rewrite Z.ltb_lt. lia.
Qed.

Lemma list_is_a_page_witness :
  storage_faults (calm 5) = [] /\
  int8in decimal_readers "1" = Some 1 /\ int8in decimal_readers "0" = Some 0 /\
  exists rows total more,
    run_as (listPallets decimal_readers at_warehouse) db3 (calm 5)
    = (db3, Some (mkListResponse 200
                    (PalletList rows total
                       (parseInt decimal_readers
                          (or_default (q_limit at_warehouse) "100"))
                       (parseInt decimal_readers
                          (or_default (q_offset at_warehouse) "0")) more))) /\
    rows = firstn (Z.to_nat 1)
             (skipn (Z.to_nat 0)
                (order_by_created_at_desc
                   (filter (wanted at_warehouse) (pallets (tabs db3))))) /\
    total = Z.of_nat (length (filter (wanted at_warehouse) (pallets (tabs db3)))) /\
    Forall (fun p => In p (pallets (tabs db3)) /\ wanted at_warehouse p = true)
           rows /\
    StronglySorted newest_first rows /\
    Z.of_nat (length rows) <= 1 /\
    (parseInt decimal_readers (or_default (q_offset at_warehouse) "0") = Some 0 ->
     (more = true <-> 0 + 1 < total)).
Proof.
  split; [reflexivity|]. split; [reflexivity|]. split; [reflexivity|].
  apply (@list_is_a_page decimal_readers at_warehouse db3 (calm 5) "1" "0" 1 0);
    first [reflexivity | lia].
Defined.

(** X15. GET /api/pallets never writes: whatever the query and the
    storage do, the database is as before.  A limit or an offset that the
    server does not read as a non-negative integer is answered 500. *)
Theorem list_reads_only rd l d e :
  fst (run_as (listPallets rd l) d e) = d /\
  (storage_faults e = [] ->
   row_count rd (JS.prepareValue (or_default (q_limit l) "100")) = None \/
   row_count rd (JS.prepareValue (or_default (q_offset l) "0")) = None ->
   snd (run_as (listPallets rd l) d e)
   = Some (mkListResponse 500 (ListError "Failed to fetch pallets"))).
Proof.
  split.
  - assert (H : wp (listPallets rd l) (connect d e)
                   (fun _ c => server c = d)).
    { unfold listPallets, select_page, select_count, connect.
      destruct d as [tb sq fl].
      repeat wp_step; reflexivity. }
    unfold wp in H. unfold run_as.
    destruct (listPallets rd l (connect d e)) as [[r|] c]; exact H.
  - intros Hq H. rewrite (@listPallets_calm rd l d e Hq). cbn [snd].
    destruct H as [H|H]; [rewrite H; reflexivity|].
    destruct (row_count rd (JS.prepareValue (or_default (q_limit l) "100")));
      rewrite ?H; reflexivity.
Qed.

(** *** GET /api/pallets/warehouse/stock *)

Lemma own_find g key :
  own g key = match find (fun kv => String.eqb (fst kv) key) g with
              | Some _ => true
              | None => false
              end.
Proof.
  unfold own. induction g as [|kv g IH]; cbn; [reflexivity|].
  destruct (String.eqb (fst kv) key); [reflexivity | exact IH].
Qed.

Lemma rows_of_push g key r k :
  rows_of (push key r g) k
  = if String.eqb k key && own g key then (rows_of g k ++ [r])%list
    else rows_of g k.
Proof.
  unfold rows_of, push, own. induction g as [|kv g IH]; cbn [map find existsb].
  - rewrite andb_false_r. reflexivity.
  - destruct (String.eqb_spec (fst kv) key) as [E1|E1]; cbn [fst snd orb].
    + destruct (String.eqb_spec (fst kv) k) as [E2|E2].
      * assert (E : String.eqb k key = true) by (apply String.eqb_eq; congruence).
        rewrite E. reflexivity.
      * assert (E : String.eqb k key = false) by (apply String.eqb_neq; congruence).
        rewrite E in *. cbn [andb] in *. exact IH.
    + destruct (String.eqb_spec (fst kv) k) as [E2|E2].
      * assert (E : String.eqb k key = false) by (apply String.eqb_neq; congruence).
        rewrite E. reflexivity.
      * exact IH.
Qed.

Lemma rows_of_app g key r k :
  own g key = false ->
  rows_of (g ++ [(key, [r])])%list k
  = if String.eqb k key then (rows_of g k ++ [r])%list else rows_of g k.
Proof.
  unfold rows_of, own. induction g as [|kv g IH]; cbn [app find existsb fst snd].
  - intros _. rewrite (String.eqb_sym key k).
    destruct (String.eqb k key); reflexivity.
  - intros H. apply orb_false_iff in H. destruct H as [H1 H2].
    destruct (String.eqb_spec (fst kv) k) as [E|E].
    + assert (E' : String.eqb k key = false).
      { apply String.eqb_neq. apply String.eqb_neq in H1. congruence. }
      rewrite E'. reflexivity.
    + exact (IH H2).
Qed.

Lemma group_one_rows inherited g r g' k :
  group_one inherited g r = Some g' ->
  rows_of g' k
  = (rows_of g k ++ if at_location k r then [r] else [])%list.
Proof.
  unfold group_one, at_location.
  rewrite (String.eqb_sym (location r) k).
  destruct (own g (location r)) eqn:Eo.
  - intros H; inversion H; subst g'. rewrite rows_of_push, Eo, andb_true_r.
    destruct (String.eqb k (location r)); [reflexivity|].
    symmetry; apply app_nil_r.
  - destruct (inherited (location r)); [discriminate|].
    intros H; inversion H; subst g'. rewrite (@rows_of_app g (location r) r k Eo).
    destruct (String.eqb k (location r)); [reflexivity|].
    symmetry; apply app_nil_r.
Qed.

Lemma group_all_rows inherited rows :
  forall g g' k,
    group_all inherited g rows = Some g' ->
    rows_of g' k = (rows_of g k ++ filter (at_location k) rows)%list.
Proof.
  induction rows as [|r rows IH]; intros g g' k; cbn [group_all filter].
  - intros H; inversion H. symmetry; apply app_nil_r.
  - destruct (group_one inherited g r) as [g1|] eqn:E; [|discriminate].
    intros H. rewrite (IH _ _ k H), (@group_one_rows inherited g r g1 k E), <- app_assoc.
    destruct (at_location k r); reflexivity.
Qed.

Lemma group_one_own inherited g r g' k :
  group_one inherited g r = Some g' ->
  own g' k = own g k || at_location k r.
Proof.
  unfold group_one, at_location. rewrite (String.eqb_sym (location r) k).
  destruct (own g (location r)) eqn:Eo.
  - intros H; inversion H; subst g'.
    assert (E : own (push (location r) r g) k = own g k).
    { unfold own, push. clear. induction g as [|kv g IH]; [reflexivity|].
      cbn [map existsb]. rewrite IH.
      destruct (String.eqb (fst kv) (location r)); reflexivity. }
    rewrite E. destruct (String.eqb k (location r)) eqn:Ek;
      [|rewrite orb_false_r; reflexivity].
    apply String.eqb_eq in Ek. subst k. rewrite Eo. reflexivity.
  - destruct (inherited (location r)); [discriminate|].
    intros H; inversion H; subst g'. unfold own. rewrite existsb_app.
    cbn [existsb fst]. rewrite orb_false_r, (String.eqb_sym (location r) k).
    reflexivity.
Qed.

Lemma group_all_fails inherited rows :
  forall g,
    (forall k, own g k = true -> inherited k = false) ->
    (group_all inherited g rows = None <->
     existsb (fun r => inherited (location r)) rows = true).
Proof.
  induction rows as [|r rows IH]; intros g Hg; cbn [group_all existsb].
  - split; discriminate.
  - destruct (group_one inherited g r) as [g1|] eqn:E.
    + assert (Hi : inherited (location r) = false).
      { unfold group_one in E. destruct (own g (location r)) eqn:Eo;
          [exact (Hg _ Eo)|].
        destruct (inherited (location r)); [discriminate | reflexivity]. }
      rewrite Hi. cbn [orb]. apply IH. intros k Hk.
      rewrite (@group_one_own inherited g r g1 k E) in Hk. apply orb_true_iff in Hk.
      destruct Hk as [Hk|Hk]; [exact (Hg _ Hk)|].
      unfold at_location in Hk. apply String.eqb_eq in Hk. congruence.
    + unfold group_one in E. destruct (own g (location r)); [discriminate|].
      destruct (inherited (location r)); [|discriminate].
      split; reflexivity.
Qed.

Lemma insert_last_scan_perm x l : Permutation (insert_last_scan x l) (x :: l).
Proof.
  induction l as [|y l IH]; cbn [insert_last_scan]; [reflexivity|].
  destruct (not_after _ _); [reflexivity|].
  rewrite IH. apply perm_swap.
Qed.

Lemma order_by_last_scan_perm l :
  Permutation (order_by_last_scan_time_desc l) l.
Proof.
  induction l as [|x l IH]; cbn [order_by_last_scan_time_desc]; [reflexivity|].
  rewrite insert_last_scan_perm. constructor. exact IH.
Qed.

Lemma not_after_trans a b c :
  not_after a b = true -> not_after b c = true -> not_after a c = true.
Proof.
  destruct a, b, c; cbn; intros H1 H2; try discriminate; try reflexivity.
  apply Z.leb_le in H1, H2. apply Z.leb_le. lia.
Qed.

Lemma not_after_total a b : not_after a b = false -> not_after b a = true.
Proof.
  destruct a, b; cbn; intros H; try discriminate; try reflexivity.
  apply Z.leb_gt in H. apply Z.leb_le. lia.
Qed.

Lemma insert_last_scan_sorted x l :
  StronglySorted last_scan_first l ->
  StronglySorted last_scan_first (insert_last_scan x l).
Proof.
  induction 1 as [|y l Hs IH Hy]; cbn [insert_last_scan].
  - repeat constructor.
  - destruct (not_after (last_scan_time y) (last_scan_time x)) eqn:E.
    + constructor; [constructor; assumption|].
      constructor; [exact E|].
      eapply Forall_impl; [|exact Hy]. unfold last_scan_first.
      intros z Hz. exact (not_after_trans _ _ _ Hz E).
    + constructor; [exact IH|].
      eapply Permutation_Forall;
        [apply Permutation_sym, insert_last_scan_perm|].
      constructor; [exact (not_after_total _ _ E) | exact Hy].
Qed.

Lemma order_by_last_scan_sorted l :
  StronglySorted last_scan_first (order_by_last_scan_time_desc l).
Proof.
  induction l as [|x l IH]; cbn [order_by_last_scan_time_desc]; [constructor|].
  apply insert_last_scan_sorted. exact IH.
Qed.

Lemma warehouseStock_calm inherited d e :
  storage_faults e = [] ->
  run_as (warehouseStock inherited) d e
  = (d,
     Some match group_all inherited []
                  (order_by_last_scan_time_desc
                     (current_warehouse_stock (tabs d))) with
          | Some g =>
              mkStockResponse 200
                (Stock (Z.of_nat
                          (length (order_by_last_scan_time_desc
                                     (current_warehouse_stock (tabs d)))))
                       (order_by_last_scan_time_desc
                          (current_warehouse_stock (tabs d))) g)
          | None =>
              mkStockResponse 500
                (StockError "Failed to fetch warehouse stock")
          end).
Proof.
  intros Hq. destruct d as [tb sq fl]. destruct e as [t c fs q].
  cbn [storage_faults] in Hq. subst fs.
  unfold run_as, warehouseStock, connect, try_catch, bind, query, send,
    execute, select_stock, take_fault.
  cbn [faults clock server users_flo_id seqs visible txn tabs now
       storage_faults store].
  destruct (group_all inherited [] _); reflexivity.
Qed.

Lemma stock_rows_at_warehouse t r :
  In r (order_by_last_scan_time_desc (current_warehouse_stock t)) ->
  In (stock_pallet r) (pallets t) /\
  status (stock_pallet r) = "At Warehouse" /\
  last_handled_by r = option_map flo_name (last_scan t (stock_pallet r)) /\
  last_scan_time r = option_map scanned_at (last_scan t (stock_pallet r)).
Proof.
  intros H. apply (Permutation_in _ (order_by_last_scan_perm _)) in H.
  unfold current_warehouse_stock in H. apply in_map_iff in H.
  destruct H as [p [<- Hp]]. apply filter_In in Hp. destruct Hp as [Hin Hs].
  apply String.eqb_eq in Hs. cbn. auto.
Qed.

Lemma consistent_db3 : consistent db3.
Proof.
  exact (serve_consistent flo001 _ (calm 3)
           (serve_consistent flo001 _ (calm 2) consistent_db1)).
Qed.

(** X16. GET /api/pallets/warehouse/stock, the storage not failing.  The
    rows are pallets of the table whose status is 'At Warehouse', one for
    each such pallet, the last scanned first, and [totalPallets] is their
    number.  Unless a
    location is a name that [Object.prototype] holds, the answer is 200
    and [byLocation] has under each key exactly the rows of that location,
    in the order of the list, those without a location under
    'Unassigned'.  When a row's location is such a name ("constructor",
    say), the grouping throws and the answer is 500.  The database is
    left as it is. *)
Theorem stock_by_location inherited d e :
  storage_faults e = [] ->
  exists rows,
    Permutation rows (current_warehouse_stock (tabs d)) /\
    StronglySorted last_scan_first rows /\
    Forall (fun r => In (stock_pallet r) (pallets (tabs d)) /\
                     status (stock_pallet r) = "At Warehouse") rows /\
    length rows
    = length (filter (fun p => String.eqb (status p) "At Warehouse")
                     (pallets (tabs d))) /\
    (existsb (fun r => inherited (location r)) rows = false ->
     exists g,
       run_as (warehouseStock inherited) d e
       = (d, Some (mkStockResponse 200
                     (Stock (Z.of_nat (length rows)) rows g))) /\
       forall k, rows_of g k = filter (at_location k) rows) /\
    (existsb (fun r => inherited (location r)) rows = true ->
     run_as (warehouseStock inherited) d e
     = (d, Some (mkStockResponse 500
                   (StockError "Failed to fetch warehouse stock")))).
Proof.
  intros Hq.
  exists (order_by_last_scan_time_desc (current_warehouse_stock (tabs d))).
  split; [apply order_by_last_scan_perm|].
  split; [apply order_by_last_scan_sorted|]. split; [|split; [|split]].
  - apply Forall_forall. intros r Hr.
    destruct (stock_rows_at_warehouse _ _ Hr) as [H1 [H2 _]]. auto.
  - rewrite (Permutation_length (order_by_last_scan_perm _)).
    unfold current_warehouse_stock. apply length_map.
  - intros Hn. rewrite (@warehouseStock_calm inherited d e Hq).
    destruct (group_all inherited [] _) as [g|] eqn:Eg.
    + exists g. split; [reflexivity|]. intros k.
      rewrite (@group_all_rows inherited _ [] g k Eg). reflexivity.
    + apply group_all_fails in Eg; [congruence|]. intros k Hk. discriminate Hk.
  - intros Hy. rewrite (@warehouseStock_calm inherited d e Hq).
    apply (group_all_fails inherited _ []) in Hy;
      [|intros k Hk; discriminate Hk].
    rewrite Hy. reflexivity.
Qed.

Lemma stock_by_location_witness :
  storage_faults (calm 5) = [] /\
  exists rows,
    Permutation rows (current_warehouse_stock (tabs db3)) /\
    StronglySorted last_scan_first rows /\
    Forall (fun r => In (stock_pallet r) (pallets (tabs db3)) /\
                     status (stock_pallet r) = "At Warehouse") rows /\
    length rows
    = length (filter (fun p => String.eqb (status p) "At Warehouse")
                     (pallets (tabs db3))) /\
    (existsb (fun r => object_prototype (location r)) rows = false ->
     exists g,
       run_as (warehouseStock object_prototype) db3 (calm 5)
       = (db3, Some (mkStockResponse 200
                       (Stock (Z.of_nat (length rows)) rows g))) /\
       forall k, rows_of g k = filter (at_location k) rows) /\
    (existsb (fun r => object_prototype (location r)) rows = true ->
     run_as (warehouseStock object_prototype) db3 (calm 5)
     = (db3, Some (mkStockResponse 500
                     (StockError "Failed to fetch warehouse stock")))).
Proof.
  split; [reflexivity|].
  exact (@stock_by_location object_prototype db3 (calm 5) eq_refl).
Defined.

(** X17. In a consistent database every pallet in stock has been
    scanned: the LEFT JOIN of the view never gives NULLs.
    [last_handled_by] and [last_scan_time] are the operator and the time
    of an audit row of the pallet, and no audit row of the pallet is
    later. *)
Theorem stock_names_the_last_scan d r :
  consistent d ->
  In r (order_by_last_scan_time_desc (current_warehouse_stock (tabs d))) ->
  exists s,
    In s (audit_trail (pallet_id (stock_pallet r)) d) /\
    last_handled_by r = Some (flo_name s) /\
    last_scan_time r = Some (scanned_at s) /\
    forall s', In s' (audit_trail (pallet_id (stock_pallet r)) d) ->
               scanned_at s' <= scanned_at s.
Proof.
  intros Hc Hr.
  destruct (stock_rows_at_warehouse _ _ Hr) as [Hin [Hs [Hh Ht]]].
  set (p := stock_pallet r) in *.
  pose proof (trails_replay Hc) as Hrep. rewrite Forall_forall in Hrep.
  specialize (Hrep p Hin). rewrite Hs in Hrep.
  unfold last_scan in *. fold (audit_trail (pallet_id p) d) in *.
  pose proof (order_by_perm (audit_trail (pallet_id p) d)) as Hperm.
  pose proof (order_by_sorted (audit_trail (pallet_id p) d)) as Hsort.
  destruct (order_by_scanned_at_desc (audit_trail (pallet_id p) d))
    as [|s rest] eqn:E.
  - apply Permutation_nil in Hperm. rewrite Hperm in Hrep. discriminate Hrep.
  - exists s. cbn [hd_error option_map] in Hh, Ht.
    split; [apply (Permutation_in _ Hperm); left; reflexivity|].
    split; [exact Hh|]. split; [exact Ht|].
    intros s' Hs'. apply (Permutation_in _ (Permutation_sym Hperm)) in Hs'.
    inversion Hsort as [|? ? _ Hall]; subst. rewrite Forall_forall in Hall.
    destruct Hs' as [<-|Hs']; [lia|]. exact (Hall _ Hs').
Qed.

Lemma stock_names_the_last_scan_witness :
  let r :=
    mkStockRow
      (mkPallet 1 "PLT001" "ITEM-001" "Sample Product" "100" (Some "BOX")
         (Some "250.5") (Some "2026-01-01") (Some "2026-04-01") "At Warehouse"
         (Some "A-12-3") None None 1 3)
      (Some "John Forklift") (Some 3) in
  consistent db3 /\
  In r (order_by_last_scan_time_desc (current_warehouse_stock (tabs db3))) /\
  exists s,
    In s (audit_trail (pallet_id (stock_pallet r)) db3) /\
    last_handled_by r = Some (flo_name s) /\
    last_scan_time r = Some (scanned_at s) /\
    forall s', In s' (audit_trail (pallet_id (stock_pallet r)) db3) ->
               scanned_at s' <= scanned_at s.
Proof.
  intros r.
  assert (Hc : consistent db3) by exact consistent_db3.
  assert (Hr : In r (order_by_last_scan_time_desc
                       (current_warehouse_stock (tabs db3))))
    by (vm_compute; left; reflexivity).
  split; [exact Hc|]. split; [exact Hr|].
  exact (@stock_names_the_last_scan db3 r Hc Hr).
Defined.

(** A pallet put at the location "constructor" makes the stock route fail
    for everybody. *)
Example stock_fails_on_inherited_location :
  let d :=
    fst (serve flo001
           (POST_scan "PLT001" (scan_to "At Warehouse" (JS.Str "constructor")))
           db3 (calm 4)) in
  snd (run_as (warehouseStock object_prototype) d (calm 5))
  = Some (mkStockResponse 500 (StockError "Failed to fetch warehouse stock")).
Proof. vm_compute. reflexivity. Qed.
